(** * DrDavinci backend: authentication, rate limiting and chat history

  A shallow embedding of [server/database.ts], [server/utils/uuid.ts],
  [server/routes/auth.ts] and [server/routes/history.ts], followed by the
  properties of the specification that were checked against it.

  Conventions of the embedding.
  - A JavaScript string is a [string]; each character stands for one
    UTF-16 code unit in the range 0..255.  The fields of a request body
    that the routes treat as strings are strings, except in the module
    [Untyped]: the routes do not check the type of a field, and where that
    matters, in [/signup] and [/login], the module embeds the route on the
    JSON values of the body and [Auth] is the route on strings.
  - A JavaScript number that the handlers compute with (counters,
    [Date.now()] milliseconds) is a [Z]; a number inside a JSON value is
    an integer.
  - A field of a request body is an [option]: [None] is [undefined].
  - The SQLite store is a record of three tables, each a list of rows in
    insertion order, plus the connection's foreign-key switch.  A
    statement fails only by violating a constraint of the schema (no I/O
    error, no lock timeout), and an [async] route runs to completion
    before the next one starts.
  - A route is a function from its inputs and the state before to the
    response and the state after.  [Date.now()] and the entropy of
    [crypto.randomBytes] are inputs; [bcrypt], [JSON.stringify],
    [JSON.parse] and the rendering of dates are the fields of the class
    [Runtime].  An exception caught by the route's [try] is the [None] or
    the [inl] of the step that throws.
  - Requests are served one at a time: a state of the process is reached
    by whole runs of the routes, not by runs that overlap at an
    [await]. *)

From Stdlib Require Import ZArith Ascii String DecimalString DecimalZ DecimalPos.
From stdpp Require Import base tactics option list sorting gmap strings.

Local Open Scope Z_scope.

(* ================================================================== *)
(** * JavaScript values *)
(* ================================================================== *)

Module JS.

(** The values a parsed JSON body can hold, and the bodies handed to
    [res.json].  Numbers are restricted to integers. *)
#[warnings="-register-all"]
Inductive json :=
| JNull
| JBool (b : bool)
| JNum (n : Z)
| JStr (s : string)
| JArr (items : list json)
| JObj (fields : list (string * json)).

(** [!!s] for a string: the empty string is falsy. *)
Definition truthy_str (s : string) : bool :=
  match s with
  | EmptyString => false
  | String _ _ => true
  end.

(** [!!x] for a possibly undefined string. *)
Definition truthy_ostr (x : option string) : bool :=
  match x with
  | Some s => truthy_str s
  | None => false
  end.

(** [!!v] for a JSON value: [null], [false], [0] and [""] are falsy,
    every array and every object is truthy. *)
Definition truthy (v : json) : bool :=
  match v with
  | JNull => false
  | JBool b => b
  | JNum n => negb (n =? 0)
  | JStr s => truthy_str s
  | JArr _ => true
  | JObj _ => true
  end.

(** [x || d] on strings. *)
Definition or_else (x : option string) (d : string) : string :=
  match x with
  | Some s => if truthy_str s then s else d
  | None => d
  end.

(** [x || null] and [x || undefined] on strings: a falsy [x] is dropped. *)
Definition or_null (x : option string) : option string :=
  match x with
  | Some s => if truthy_str s then Some s else None
  | None => None
  end.

(** Property lookup [o.k] on an object literal (first binding of [k]);
    a missing key and a non-object both read as [undefined]. *)
Fixpoint assoc (k : string) (fields : list (string * json)) : option json :=
  match fields with
  | [] => None
  | (k', v) :: rest => if String.eqb k k' then Some v else assoc k rest
  end.

Definition jget (k : string) (v : json) : option json :=
  match v with
  | JObj fields => assoc k fields
  | _ => None
  end.

(** The own keys of an object. *)
Definition keys (v : json) : list string :=
  match v with
  | JObj fields => map fst fields
  | _ => []
  end.

(** A property whose value may be [undefined]: [res.json] leaves an
    undefined property out of the serialised object. *)
Definition prop (k : string) (v : option json) : list (string * json) :=
  match v with
  | Some x => [(k, x)]
  | None => []
  end.

(** A nullable column read from a row: SQL NULL is JSON [null]. *)
Definition nullable (x : option string) : json :=
  match x with
  | Some s => JStr s
  | None => JNull
  end.

End JS.
Export JS.

(* ================================================================== *)
(** * Regular expressions ([RegExp.prototype.test]) *)
(* ================================================================== *)

Module Regex.

(** The fragment of regular expressions the handlers use: character
    classes, concatenation and the [+] quantifier.  [Void] and [Alt]
    only arise as derivatives. *)
Inductive regex :=
| Void
| Eps
| Class (p : ascii → bool)
| Cat (r1 r2 : regex)
| Alt (r1 r2 : regex)
| Star (r : regex).

Definition Plus (r : regex) : regex := Cat r (Star r).

Fixpoint nullable (r : regex) : bool :=
  match r with
  | Void => false
  | Eps => true
  | Class _ => false
  | Cat r1 r2 => nullable r1 && nullable r2
  | Alt r1 r2 => nullable r1 || nullable r2
  | Star _ => true
  end.

Fixpoint deriv (c : ascii) (r : regex) : regex :=
  match r with
  | Void => Void
  | Eps => Void
  | Class p => if p c then Eps else Void
  | Cat r1 r2 =>
      if nullable r1
      then Alt (Cat (deriv c r1) r2) (deriv c r2)
      else Cat (deriv c r1) r2
  | Alt r1 r2 => Alt (deriv c r1) (deriv c r2)
  | Star r1 => Cat (deriv c r1) (Star r1)
  end.

Fixpoint matches (r : regex) (s : string) : bool :=
  match s with
  | EmptyString => nullable r
  | String c s' => matches (deriv c r) s'
  end.

(** [/^r$/.test(s)]: the whole string matches. *)
Definition test_anchored (r : regex) (s : string) : bool := matches r s.

(** [/r/.test(s)]: some substring matches. *)
Definition any : regex := Star (Class (λ _, true)).
Definition test (r : regex) (s : string) : bool :=
  matches (Cat any (Cat r any)) s.

(** Character classes. *)
Definition code (c : ascii) : N := N_of_ascii c.
Definition in_range (lo hi : ascii) (c : ascii) : bool :=
  ((code lo <=? code c) && (code c <=? code hi))%N.

(** [\s] on code units below 256: tab, line feed, vertical tab, form
    feed, carriage return, space and no-break space. *)
Definition is_space (c : ascii) : bool :=
  ((9 <=? code c) && (code c <=? 13) || (code c =? 32) || (code c =? 160))%N.
(** [\d] *)
Definition is_digit : ascii → bool := in_range "0" "9".
(** [[a-z]] and [[A-Z]] *)
Definition is_lower : ascii → bool := in_range "a" "z".
Definition is_upper : ascii → bool := in_range "A" "Z".
(** [[^\s@]] *)
Definition not_space_at (c : ascii) : bool :=
  negb (is_space c) && negb (Ascii.eqb c "@").
(** [[a-zA-Z0-9_-]] *)
Definition is_username_char (c : ascii) : bool :=
  is_lower c || is_upper c || is_digit c || Ascii.eqb c "_" || Ascii.eqb c "-".

End Regex.

(* ================================================================== *)
(** * Random bytes and identifiers ([utils/uuid.ts], [generateToken]) *)
(* ================================================================== *)

Module Random.

(** [crypto.randomBytes(n)]: the [n] bytes drawn are the base-256 digits
    of the entropy [seed] handed to the call. *)
Fixpoint randomBytes (n : nat) (seed : Z) : list Z :=
  match n with
  | O => []
  | S n' => (seed mod 256) :: randomBytes n' (seed / 256)
  end.

Definition hex_digit (d : Z) : ascii :=
  (if d <? 10
   then ascii_of_N (Z.to_N (48 + d))
   else ascii_of_N (Z.to_N (87 + d)))%Z.

(** [buf.toString('hex')] *)
Fixpoint toHex (bytes : list Z) : string :=
  match bytes with
  | [] => EmptyString
  | b :: rest => String (hex_digit (b / 16)) (String (hex_digit (b mod 16)) (toHex rest))
  end.

(** [s.slice(0, n)] *)
Definition slice0 (n : nat) (s : string) : string := String.substring 0 n s.

(** [utils/uuid.ts] *)
Definition generateUUID (seed : Z) : string :=
  slice0 36 (toHex (randomBytes 16 seed)).

(** [auth.ts], [generateToken] *)
Definition generateToken (seed : Z) : string :=
  toHex (randomBytes 32 seed).

End Random.
Export Random.

(* ================================================================== *)
(** * The login rate limiter ([auth.ts], [checkRateLimit]) *)
(* ================================================================== *)

Module RateLimit.

Record Attempt := { count : Z; timestamp : Z }.

Definition RATE_LIMIT_ATTEMPTS : Z := 5.
Definition RATE_LIMIT_WINDOW : Z := 15 * 60 * 1000.

(** [checkRateLimit(identifier)] at [Date.now() = now]: the verdict and
    the [loginAttempts] map afterwards.  [attempt.count++] mutates the
    object held by the map, which is the map with that entry replaced. *)
Definition checkRateLimit (now : Z) (identifier : string)
    (loginAttempts : gmap string Attempt) : bool * gmap string Attempt :=
  match loginAttempts !! identifier with
  | None =>
      (true, <[identifier := {| count := 1; timestamp := now |}]> loginAttempts)
  | Some attempt =>
      if now - timestamp attempt >? RATE_LIMIT_WINDOW then
        (true, <[identifier := {| count := 1; timestamp := now |}]> loginAttempts)
      else if count attempt >=? RATE_LIMIT_ATTEMPTS then
        (false, loginAttempts)
      else
        (true, <[identifier := {| count := count attempt + 1;
                                  timestamp := timestamp attempt |}]> loginAttempts)
  end.

End RateLimit.
Export RateLimit.

(* ================================================================== *)
(** * The SQLite store ([database.ts]) *)
(* ================================================================== *)

(** ** Rows of the three tables, one record per [CREATE TABLE] *)

Module Users.
Record row := {
  id : string;
  username : string;
  password_hash : string;
  name : string;
  email : option string;
  auth_token : option string;
  token_expiry : option string;
  last_login : option string;
  created_at : string;
  updated_at : string
}.
End Users.

Module ChatSessions.
Record row := {
  id : string;
  user_id : string;
  title : string;
  created_at : string;
  updated_at : string
}.
End ChatSessions.

Module Messages.
Record row := {
  id : string;
  session_id : string;
  role : string;
  content : string;
  image_url : option string;
  extracted_symptoms : option string;
  grounding_sources : option string;
  analysis_results : option string;
  timestamp : string
}.
End Messages.

Module Database.

(** The connection [db] and what it holds.  [foreign_keys] is the
    connection's [PRAGMA foreign_keys]: SQLite parses the
    [FOREIGN KEY ... ON DELETE CASCADE] clauses of the schema whatever its
    value, and acts on them only while it is on. *)
Record Db := {
  foreign_keys : bool;
  users : list Users.row;
  chat_sessions : list ChatSessions.row;
  messages : list Messages.row
}.

(** The result codes a rejected statement carries in [err.code]. *)
Inductive sqlite_code := SQLITE_CONSTRAINT | SQLITE_BUSY.

(** [new sqlite3.Database(dbPath)] on a new file, then
    [db.configure('busyTimeout', 30000)] and [initializeDatabase()]: three
    empty tables.  SQLite opens a connection with foreign-key enforcement
    off and turns it on only at [PRAGMA foreign_keys = ON]; the busy
    timeout is all the sources configure, and no statement of theirs is
    that pragma. *)
Definition initializeDatabase : Db :=
  {| foreign_keys := false; users := []; chat_sessions := []; messages := [] |}.

(** What [PRAGMA foreign_keys = ON] would do to the connection. *)
Definition pragma_foreign_keys_on (d : Db) : Db :=
  {| foreign_keys := true; users := users d;
     chat_sessions := chat_sessions d; messages := messages d |}.

(** SQL [LOWER()]: folds the ASCII letters only. *)
Definition lower_char (c : ascii) : ascii :=
  if Regex.is_upper c then ascii_of_N (N_of_ascii c + 32) else c.

Fixpoint LOWER (s : string) : string :=
  match s with
  | EmptyString => EmptyString
  | String c s' => String (lower_char c) (LOWER s')
  end.

(** [ORDER BY timestamp ASC] and [ORDER BY updated_at DESC]: text columns
    compare byte by byte. *)
Definition timestamp_asc (a b : Messages.row) : Prop :=
  String.leb (Messages.timestamp a) (Messages.timestamp b) = true.

Definition updated_at_desc (a b : ChatSessions.row) : Prop :=
  String.leb (ChatSessions.updated_at b) (ChatSessions.updated_at a) = true.

#[global] Instance timestamp_asc_dec a b : Decision (timestamp_asc a b).
Proof. unfold timestamp_asc. apply _. Defined.

#[global] Instance updated_at_desc_dec a b : Decision (updated_at_desc a b).
Proof. unfold updated_at_desc. apply _. Defined.

(** *** Statements on [users] *)

(** [SELECT ... FROM users WHERE LOWER(username) = LOWER(?)] through
    [getAsync]: the first matching row. *)
Definition select_user_by_username (uname : string) (d : Db) : option Users.row :=
  find (λ u, String.eqb (LOWER (Users.username u)) (LOWER uname)) (users d).

(** [SELECT id FROM users WHERE LOWER(email) = LOWER(?)]; a NULL email
    matches nothing. *)
Definition select_user_by_email (mail : string) (d : Db) : option Users.row :=
  find (λ u, match Users.email u with
             | Some e => String.eqb (LOWER e) (LOWER mail)
             | None => false
             end) (users d).

(** [SELECT id, username, name, email FROM users WHERE id = ?] *)
Definition select_user_by_id (uid : string) (d : Db) : option Users.row :=
  find (λ u, String.eqb (Users.id u) uid) (users d).

(** [INSERT INTO users ...]: rejected when the primary key or one of the
    two [UNIQUE] columns is taken. *)
Definition insert_user (r : Users.row) (d : Db) : sqlite_code + Db :=
  if existsb (λ u, String.eqb (Users.id u) (Users.id r)
                   || String.eqb (Users.username u) (Users.username r)
                   || match Users.email u, Users.email r with
                      | Some a, Some b => String.eqb a b
                      | _, _ => false
                      end) (users d)
  then inl SQLITE_CONSTRAINT
  else inr {| foreign_keys := foreign_keys d; users := users d ++ [r];
              chat_sessions := chat_sessions d; messages := messages d |}.

(** [UPDATE users SET auth_token = ?, token_expiry = ?, last_login =
    CURRENT_TIMESTAMP WHERE id = ?] *)
Definition update_user_login (token expiry stamp uid : string) (d : Db) : Db :=
  {| foreign_keys := foreign_keys d;
     users := map (λ u, if String.eqb (Users.id u) uid
                        then {| Users.id := Users.id u;
                                Users.username := Users.username u;
                                Users.password_hash := Users.password_hash u;
                                Users.name := Users.name u;
                                Users.email := Users.email u;
                                Users.auth_token := Some token;
                                Users.token_expiry := Some expiry;
                                Users.last_login := Some stamp;
                                Users.created_at := Users.created_at u;
                                Users.updated_at := Users.updated_at u |}
                        else u) (users d);
     chat_sessions := chat_sessions d; messages := messages d |}.

(** [UPDATE users SET auth_token = NULL, token_expiry = NULL WHERE id = ?] *)
Definition update_user_logout (uid : string) (d : Db) : Db :=
  {| foreign_keys := foreign_keys d;
     users := map (λ u, if String.eqb (Users.id u) uid
                        then {| Users.id := Users.id u;
                                Users.username := Users.username u;
                                Users.password_hash := Users.password_hash u;
                                Users.name := Users.name u;
                                Users.email := Users.email u;
                                Users.auth_token := None;
                                Users.token_expiry := None;
                                Users.last_login := Users.last_login u;
                                Users.created_at := Users.created_at u;
                                Users.updated_at := Users.updated_at u |}
                        else u) (users d);
     chat_sessions := chat_sessions d; messages := messages d |}.

(** *** Statements on [chat_sessions] *)

(** [SELECT * FROM chat_sessions WHERE user_id = ? ORDER BY updated_at DESC] *)
Definition select_sessions_by_user (uid : string) (d : Db) : list ChatSessions.row :=
  merge_sort updated_at_desc
    (filter (λ s, ChatSessions.user_id s = uid) (chat_sessions d)).

(** [SELECT * FROM chat_sessions WHERE id = ?] through [getAsync] *)
Definition select_session_by_id (sid : string) (d : Db) : option ChatSessions.row :=
  find (λ s, String.eqb (ChatSessions.id s) sid) (chat_sessions d).

(** [INSERT INTO chat_sessions ...]: rejected when the primary key is
    taken or, under enforcement, when [user_id] names no user. *)
Definition insert_session (r : ChatSessions.row) (d : Db) : sqlite_code + Db :=
  if existsb (λ s, String.eqb (ChatSessions.id s) (ChatSessions.id r)) (chat_sessions d)
     || (foreign_keys d
         && negb (existsb (λ u, String.eqb (Users.id u) (ChatSessions.user_id r)) (users d)))
  then inl SQLITE_CONSTRAINT
  else inr {| foreign_keys := foreign_keys d; users := users d;
              chat_sessions := chat_sessions d ++ [r]; messages := messages d |}.

(** [UPDATE chat_sessions SET updated_at = ? WHERE id = ?] *)
Definition update_session_updated_at (stamp sid : string) (d : Db) : Db :=
  {| foreign_keys := foreign_keys d; users := users d;
     chat_sessions := map (λ s, if String.eqb (ChatSessions.id s) sid
                                then {| ChatSessions.id := ChatSessions.id s;
                                        ChatSessions.user_id := ChatSessions.user_id s;
                                        ChatSessions.title := ChatSessions.title s;
                                        ChatSessions.created_at := ChatSessions.created_at s;
                                        ChatSessions.updated_at := stamp |}
                                else s) (chat_sessions d);
     messages := messages d |}.

(** [UPDATE chat_sessions SET title = ?, updated_at = ? WHERE id = ?] *)
Definition update_session_title (ttl stamp sid : string) (d : Db) : Db :=
  {| foreign_keys := foreign_keys d; users := users d;
     chat_sessions := map (λ s, if String.eqb (ChatSessions.id s) sid
                                then {| ChatSessions.id := ChatSessions.id s;
                                        ChatSessions.user_id := ChatSessions.user_id s;
                                        ChatSessions.title := ttl;
                                        ChatSessions.created_at := ChatSessions.created_at s;
                                        ChatSessions.updated_at := stamp |}
                                else s) (chat_sessions d);
     messages := messages d |}.

(** [DELETE FROM chat_sessions WHERE <doomed>]: the matching sessions go;
    the [ON DELETE CASCADE] of [messages.session_id] removes their messages
    only under enforcement. *)
Definition delete_sessions (doomed : ChatSessions.row → bool) (d : Db) : Db :=
  let gone := map ChatSessions.id (filter (λ s, doomed s = true) (chat_sessions d)) in
  {| foreign_keys := foreign_keys d; users := users d;
     chat_sessions := filter (λ s, doomed s = false) (chat_sessions d);
     messages :=
       if foreign_keys d
       then filter (λ m, existsb (String.eqb (Messages.session_id m)) gone = false)
              (messages d)
       else messages d |}.

(** [DELETE FROM chat_sessions WHERE id = ?] *)
Definition delete_session_by_id (sid : string) : Db → Db :=
  delete_sessions (λ s, String.eqb (ChatSessions.id s) sid).

(** [DELETE FROM chat_sessions WHERE user_id = ?] *)
Definition delete_sessions_by_user (uid : string) : Db → Db :=
  delete_sessions (λ s, String.eqb (ChatSessions.user_id s) uid).

(** *** Statements on [messages] *)

(** [SELECT * FROM messages WHERE session_id = ? ORDER BY timestamp ASC] *)
Definition select_messages_by_session (sid : string) (d : Db) : list Messages.row :=
  merge_sort timestamp_asc
    (filter (λ m, Messages.session_id m = sid) (messages d)).

(** [INSERT INTO messages ...]: rejected when the primary key is taken or,
    under enforcement, when [session_id] names no session. *)
Definition insert_message (r : Messages.row) (d : Db) : sqlite_code + Db :=
  if existsb (λ m, String.eqb (Messages.id m) (Messages.id r)) (messages d)
     || (foreign_keys d
         && negb (existsb (λ s, String.eqb (ChatSessions.id s) (Messages.session_id r))
                    (chat_sessions d)))
  then inl SQLITE_CONSTRAINT
  else inr {| foreign_keys := foreign_keys d; users := users d;
              chat_sessions := chat_sessions d; messages := messages d ++ [r] |}.

(** [UPDATE messages SET role = ?, content = ?, image_url = ?,
    extracted_symptoms = ?, grounding_sources = ?, analysis_results = ?,
    timestamp = ? WHERE id = ?]: [session_id] is not among the columns
    set.  The new values are those of [r]. *)
Definition update_message (r : Messages.row) (d : Db) : Db :=
  {| foreign_keys := foreign_keys d; users := users d;
     chat_sessions := chat_sessions d;
     messages := map (λ m, if String.eqb (Messages.id m) (Messages.id r)
                           then {| Messages.id := Messages.id m;
                                   Messages.session_id := Messages.session_id m;
                                   Messages.role := Messages.role r;
                                   Messages.content := Messages.content r;
                                   Messages.image_url := Messages.image_url r;
                                   Messages.extracted_symptoms := Messages.extracted_symptoms r;
                                   Messages.grounding_sources := Messages.grounding_sources r;
                                   Messages.analysis_results := Messages.analysis_results r;
                                   Messages.timestamp := Messages.timestamp r |}
                           else m) (messages d) |}.

End Database.
Export Database.

(* ================================================================== *)
(** * What the handlers take from the platform *)
(* ================================================================== *)

(** The library and language functions the routes call.  Nothing is
    assumed of them here; a property that needs a fact about one of them
    states it as a hypothesis. *)
Class Runtime := {
  (** [bcrypt.hash(password, rounds)], with the entropy of its salt *)
  bcrypt_hash : string → Z → Z → string;
  (** [bcrypt.compare(password, hash)] *)
  bcrypt_compare : string → string → bool;
  (** [JSON.stringify(value)] *)
  JSON_stringify : json → string;
  (** [JSON.parse(text)]; [None] when it throws *)
  JSON_parse : string → option json;
  (** [new Date(ms).toISOString()] *)
  toISOString : Z → string;
  (** SQL [CURRENT_TIMESTAMP] at the instant [ms] *)
  CURRENT_TIMESTAMP : Z → string
}.

(** An HTTP response: [res.status(code).json(body)]. *)
Record Response := { status : Z; body : json }.

Definition error_body (msg : string) : json := JObj [("error", JStr msg)].
Definition success_body : json := JObj [("success", JBool true)].

(** The state of the process: the store and the rate limiter's map. *)
Record Server := {
  db : Db;
  loginAttempts : gmap string Attempt
}.

(* ================================================================== *)
(** * Authentication routes ([routes/auth.ts]) *)
(* ================================================================== *)

Module Auth.

Record SignupBody := {
  su_username : option string;
  su_password : option string;
  su_name : option string;
  su_email : option string
}.

Record LoginBody := {
  li_username : option string;
  li_password : option string
}.

(** The body of [/verify] and the [Authorization] header it reads into
    [authHeader]. *)
Record VerifyRequest := {
  vr_userId : option string;
  vr_authorization : option string
}.

(** The random draws of one request. *)
Record Draws := { salt_seed : Z; uuid_seed : Z; token_seed : Z }.

(** [/^[^\s@]+@[^\s@]+\.[^\s@]+$/] *)
Definition emailRegex : Regex.regex :=
  Regex.Cat (Regex.Plus (Regex.Class Regex.not_space_at))
    (Regex.Cat (Regex.Class (Ascii.eqb "@"))
       (Regex.Cat (Regex.Plus (Regex.Class Regex.not_space_at))
          (Regex.Cat (Regex.Class (Ascii.eqb "."))
             (Regex.Plus (Regex.Class Regex.not_space_at))))).

(** [/^[a-zA-Z0-9_-]+$/] *)
Definition usernameRegex : Regex.regex :=
  Regex.Plus (Regex.Class Regex.is_username_char).

(** [30 * 24 * 60 * 60 * 1000] *)
Definition THIRTY_DAYS : Z := 30 * 24 * 60 * 60 * 1000.

(** The [UserResponse] object literal; [email: x || undefined]. *)
Definition user_response (uid uname nm : string) (mail : option string) : json :=
  JObj ([("id", JStr uid); ("username", JStr uname); ("name", JStr nm)]
        ++ prop "email" (JStr <$> or_null mail)).

Section Routes.
Context `{Runtime}.

(** [router.post('/signup', ...)] on a body whose fields are strings *)
Definition signup (now : Z) (draws : Draws) (req : SignupBody) (d : Db)
    : Response * Db :=
  match su_username req, su_password req, su_name req, su_email req with
  | Some username, Some password, Some name, Some email =>
    if negb (truthy_str username) || negb (truthy_str password)
       || negb (truthy_str name) || negb (truthy_str email)
    then ({| status := 400; body := error_body "Missing required fields" |}, d)
    else if negb (Regex.test_anchored emailRegex email)
    then ({| status := 400; body := error_body "Invalid email format" |}, d)
    else if (String.length username <? 3)%nat
    then ({| status := 400;
             body := error_body "Username must be at least 3 characters" |}, d)
    else if negb (Regex.test_anchored usernameRegex username)
    then ({| status := 400;
             body := error_body
               "Username can only contain letters, numbers, underscores, and hyphens" |}, d)
    else if (String.length password <? 8)%nat
    then ({| status := 400;
             body := error_body "Password must be at least 8 characters" |}, d)
    else if negb (Regex.test (Regex.Class Regex.is_lower) password)
            || negb (Regex.test (Regex.Class Regex.is_upper) password)
    then ({| status := 400;
             body := error_body
               "Password must contain uppercase and lowercase letters" |}, d)
    else if negb (Regex.test (Regex.Class Regex.is_digit) password)
    then ({| status := 400;
             body := error_body "Password must contain at least one number" |}, d)
    else
      match select_user_by_username username d with
      | Some _ =>
          ({| status := 409; body := error_body "Username already exists" |}, d)
      | None =>
      match select_user_by_email email d with
      | Some _ =>
          ({| status := 409; body := error_body "Email already registered" |}, d)
      | None =>
        let passwordHash := bcrypt_hash password 12 (salt_seed draws) in
        let userId := generateUUID (uuid_seed draws) in
        let token := generateToken (token_seed draws) in
        match insert_user
                {| Users.id := userId;
                   Users.username := username;
                   Users.password_hash := passwordHash;
                   Users.name := name;
                   Users.email := or_null (Some email);
                   Users.auth_token := Some token;
                   Users.token_expiry := Some (toISOString (now + THIRTY_DAYS));
                   Users.last_login := None;
                   Users.created_at := CURRENT_TIMESTAMP now;
                   Users.updated_at := CURRENT_TIMESTAMP now |} d with
        | inl _ => ({| status := 500; body := error_body "Signup failed" |}, d)
        | inr d' =>
            ({| status := 201;
                body := JObj [("user", user_response userId username name (Some email));
                              ("token", JStr token);
                              ("expiresIn", JNum THIRTY_DAYS)] |}, d')
        end
      end
      end
  | _, _, _, _ =>
    ({| status := 400; body := error_body "Missing required fields" |}, d)
  end.

(** [router.post('/login', ...)] with a password that is a string *)
Definition login (now : Z) (draws : Draws) (req : LoginBody) (st : Server)
    : Response * Server :=
  match li_username req, li_password req with
  | Some username, Some password =>
    if negb (truthy_str username) || negb (truthy_str password)
    then ({| status := 400; body := error_body "Missing username or password" |}, st)
    else
      let (allowed, attempts) := checkRateLimit now username (loginAttempts st) in
      if negb allowed
      then ({| status := 429;
               body := error_body "Too many login attempts. Please try again later." |},
            {| db := db st; loginAttempts := attempts |})
      else
        match select_user_by_username username (db st) with
        | None =>
            ({| status := 401; body := error_body "Invalid credentials" |},
             {| db := db st; loginAttempts := attempts |})
        | Some user =>
            if negb (bcrypt_compare password (Users.password_hash user))
            then ({| status := 401; body := error_body "Invalid credentials" |},
                  {| db := db st; loginAttempts := attempts |})
            else
              let token := generateToken (token_seed draws) in
              let tokenExpiry := toISOString (now + THIRTY_DAYS) in
              ({| status := 200;
                  body := JObj [("user", user_response (Users.id user)
                                           (Users.username user) (Users.name user)
                                           (Users.email user));
                                ("token", JStr token);
                                ("expiresIn", JNum THIRTY_DAYS)] |},
               {| db := update_user_login token tokenExpiry (CURRENT_TIMESTAMP now)
                          (Users.id user) (db st);
                  loginAttempts := attempts |})
        end
  | _, _ =>
    ({| status := 400; body := error_body "Missing username or password" |}, st)
  end.

(** [router.post('/verify', ...)]: [authHeader] is read and never used. *)
Definition verify (req : VerifyRequest) (d : Db) : Response :=
  let authHeader := vr_authorization req in
  match vr_userId req with
  | Some userId =>
    if negb (truthy_str userId)
    then {| status := 400; body := error_body "Missing userId" |}
    else
      match select_user_by_id userId d with
      | None => {| status := 401; body := error_body "User not found" |}
      | Some user =>
          {| status := 200;
             body := JObj [("user", user_response (Users.id user) (Users.username user)
                                      (Users.name user) (Users.email user))] |}
      end
  | None => {| status := 400; body := error_body "Missing userId" |}
  end.

(** [router.post('/logout', ...)] *)
Definition logout (userId : option string) (d : Db) : Response * Db :=
  match userId with
  | Some uid =>
    if negb (truthy_str uid)
    then ({| status := 400; body := error_body "Missing userId" |}, d)
    else ({| status := 200; body := success_body |}, update_user_logout uid d)
  | None => ({| status := 400; body := error_body "Missing userId" |}, d)
  end.

End Routes.

End Auth.

(* ================================================================== *)
(** * [/signup] and [/login] on the JSON values of the body *)
(* ================================================================== *)

(** [express.json()] hands the routes whatever JSON values the body
    holds, and the routes do not check their types.  This section embeds
    [/signup] and [/login] on those values; [Auth.signup] and [Auth.login]
    above are the same routes on bodies whose fields are strings, as
    [signup_on_strings] and [login_on_strings] below show. *)

(** What the two routes take from the platform when a field is not a
    string.  Nothing is assumed of these functions either. *)
Class Coercions := {
  (** the text SQLite reads a bound parameter as when the value is not a
      string, in [LOWER(?)] and in a column of TEXT affinity; [None] when
      the driver refuses the value *)
  bind_text : json → option string;
  (** [ToNumber(s) < n] for a string [s] *)
  string_below : string → Z → bool
}.

Module Untyped.

Record SignupBody := {
  su_username : option json;
  su_password : option json;
  su_name : option json;
  su_email : option json
}.

(** The username is a string, the type [checkRateLimit] and its [Map]
    declare for their key; the password is any value. *)
Record LoginBody := {
  li_username : option string;
  li_password : option json
}.

(** [String(v)], as [RegExp.prototype.test] applies it to its argument:
    an array is its elements joined by commas, with [null] as the empty
    string, and an object is [[object Object]].  A number is an integer
    that prints in full (below 10^21 in magnitude). *)
#[warnings="-register-all"]
Fixpoint ToString (v : json) : string :=
  match v with
  | JNull => "null"
  | JBool b => if b then "true" else "false"
  | JNum n => DecimalString.NilZero.string_of_int (Z.to_int n)
  | JStr s => s
  | JArr items =>
      (fix join (l : list json) : string :=
         match l with
         | [] => ""
         | x :: rest =>
             match x with
             | JNull => ""
             | _ => ToString x
             end +:+ match rest with
                     | [] => ""
                     | _ :: _ => "," +:+ join rest
                     end
         end) items
  | JObj _ => "[object Object]"
  end.

Section Routes.
Context `{Runtime} `{Coercions}.

(** [w < n] for the value [w] of a [length] property and a number [n]:
    [ToNumber(w)] is compared, and [NaN] is below nothing. *)
Definition below (w : json) (n : Z) : bool :=
  match w with
  | JNull => 0 <? n
  | JBool b => (if b then 1 else 0) <? n
  | JNum k => k <? n
  | JStr s => string_below s n
  | JArr _ => string_below (ToString w) n
  | JObj _ => false
  end.

(** [v.length < n] for a value [v] that is not [null]: a string has its
    number of code units, an array its number of elements, an object its
    own property [length] if it has one; a number and a boolean have no
    such property, and [undefined < n] is false. *)
Definition length_below (v : json) (n : Z) : bool :=
  match v with
  | JStr s => Z.of_nat (String.length s) <? n
  | JArr items => Z.of_nat (length items) <? n
  | JObj fields =>
      match assoc "length" fields with
      | Some w => below w n
      | None => false
      end
  | _ => false
  end.

(** A statement parameter as SQLite reads it. *)
Definition bound (v : json) : option string :=
  match v with
  | JStr s => Some s
  | _ => bind_text v
  end.

Definition signup_failed : Response :=
  {| status := 500; body := error_body "Signup failed" |}.

(** [router.post('/signup', ...)].  [bcrypt.hash] rejects a password that
    is not a string, and a rejection anywhere is answered by the [catch]. *)
Definition signup (now : Z) (draws : Auth.Draws) (req : SignupBody) (d : Db)
    : Response * Db :=
  match su_username req, su_password req, su_name req, su_email req with
  | Some username, Some password, Some name, Some email =>
    if negb (truthy username) || negb (truthy password)
       || negb (truthy name) || negb (truthy email)
    then ({| status := 400; body := error_body "Missing required fields" |}, d)
    else if negb (Regex.test_anchored Auth.emailRegex (ToString email))
    then ({| status := 400; body := error_body "Invalid email format" |}, d)
    else if length_below username 3
    then ({| status := 400;
             body := error_body "Username must be at least 3 characters" |}, d)
    else if negb (Regex.test_anchored Auth.usernameRegex (ToString username))
    then ({| status := 400;
             body := error_body
               "Username can only contain letters, numbers, underscores, and hyphens" |}, d)
    else if length_below password 8
    then ({| status := 400;
             body := error_body "Password must be at least 8 characters" |}, d)
    else if negb (Regex.test (Regex.Class Regex.is_lower) (ToString password))
            || negb (Regex.test (Regex.Class Regex.is_upper) (ToString password))
    then ({| status := 400;
             body := error_body
               "Password must contain uppercase and lowercase letters" |}, d)
    else if negb (Regex.test (Regex.Class Regex.is_digit) (ToString password))
    then ({| status := 400;
             body := error_body "Password must contain at least one number" |}, d)
    else
      match bound username with
      | None => (signup_failed, d)
      | Some username_text =>
      match select_user_by_username username_text d with
      | Some _ =>
          ({| status := 409; body := error_body "Username already exists" |}, d)
      | None =>
      match bound email with
      | None => (signup_failed, d)
      | Some email_text =>
      match select_user_by_email email_text d with
      | Some _ =>
          ({| status := 409; body := error_body "Email already registered" |}, d)
      | None =>
      match password with
      | JStr password_text =>
        let passwordHash := bcrypt_hash password_text 12 (Auth.salt_seed draws) in
        let userId := generateUUID (Auth.uuid_seed draws) in
        let token := generateToken (Auth.token_seed draws) in
        match bound name with
        | None => (signup_failed, d)
        | Some name_text =>
        match insert_user
                {| Users.id := userId;
                   Users.username := username_text;
                   Users.password_hash := passwordHash;
                   Users.name := name_text;
                   Users.email := Some email_text;
                   Users.auth_token := Some token;
                   Users.token_expiry := Some (toISOString (now + Auth.THIRTY_DAYS));
                   Users.last_login := None;
                   Users.created_at := CURRENT_TIMESTAMP now;
                   Users.updated_at := CURRENT_TIMESTAMP now |} d with
        | inl _ => (signup_failed, d)
        | inr d' =>
            ({| status := 201;
                body := JObj [("user", JObj [("id", JStr userId);
                                             ("username", username);
                                             ("name", name);
                                             ("email", email)]);
                              ("token", JStr token);
                              ("expiresIn", JNum Auth.THIRTY_DAYS)] |}, d')
        end
        end
      | _ => (signup_failed, d)
      end
      end
      end
      end
      end
  | _, _, _, _ =>
    ({| status := 400; body := error_body "Missing required fields" |}, d)
  end.

Definition login_failed : Response :=
  {| status := 500; body := error_body "Login failed" |}.

(** [router.post('/login', ...)].  [bcrypt.compare] rejects a password
    that is not a string; by then the limiter has counted the call. *)
Definition login (now : Z) (draws : Auth.Draws) (req : LoginBody) (st : Server)
    : Response * Server :=
  match li_username req, li_password req with
  | Some username, Some password =>
    if negb (truthy_str username) || negb (truthy password)
    then ({| status := 400; body := error_body "Missing username or password" |}, st)
    else
      let (allowed, attempts) := checkRateLimit now username (loginAttempts st) in
      if negb allowed
      then ({| status := 429;
               body := error_body "Too many login attempts. Please try again later." |},
            {| db := db st; loginAttempts := attempts |})
      else
        match select_user_by_username username (db st) with
        | None =>
            ({| status := 401; body := error_body "Invalid credentials" |},
             {| db := db st; loginAttempts := attempts |})
        | Some user =>
            match password with
            | JStr password_text =>
                if negb (bcrypt_compare password_text (Users.password_hash user))
                then ({| status := 401; body := error_body "Invalid credentials" |},
                      {| db := db st; loginAttempts := attempts |})
                else
                  let token := generateToken (Auth.token_seed draws) in
                  let tokenExpiry := toISOString (now + Auth.THIRTY_DAYS) in
                  ({| status := 200;
                      body := JObj [("user", Auth.user_response (Users.id user)
                                               (Users.username user) (Users.name user)
                                               (Users.email user));
                                    ("token", JStr token);
                                    ("expiresIn", JNum Auth.THIRTY_DAYS)] |},
                   {| db := update_user_login token tokenExpiry (CURRENT_TIMESTAMP now)
                              (Users.id user) (db st);
                      loginAttempts := attempts |})
            | _ => (login_failed, {| db := db st; loginAttempts := attempts |})
            end
        end
  | _, _ =>
    ({| status := 400; body := error_body "Missing username or password" |}, st)
  end.

End Routes.

End Untyped.

(* ================================================================== *)
(** * Chat history routes ([routes/history.ts]) *)
(* ================================================================== *)

Module History.

Record SessionBody := {
  cs_userId : option string;
  cs_title : option string
}.

Record MessageBody := {
  mb_sessionId : option string;
  mb_role : option string;
  mb_content : option string;
  mb_imageUrl : option string;
  mb_extractedSymptoms : option json;
  mb_groundingSources : option json;
  mb_analysisResults : option json;
  mb_messageId : option string
}.

(** [{...session}]: the columns of a [chat_sessions] row. *)
Definition session_fields (s : ChatSessions.row) : list (string * json) :=
  [("id", JStr (ChatSessions.id s));
   ("user_id", JStr (ChatSessions.user_id s));
   ("title", JStr (ChatSessions.title s));
   ("created_at", JStr (ChatSessions.created_at s));
   ("updated_at", JStr (ChatSessions.updated_at s))].

(** [{...msg, extracted_symptoms: es, grounding_sources: gs,
    analysis_results: ar}]: the columns of a [messages] row with the three
    JSON columns replaced, each in its place. *)
Definition message_fields (m : Messages.row) (es gs ar : option json)
    : list (string * json) :=
  [("id", JStr (Messages.id m));
   ("session_id", JStr (Messages.session_id m));
   ("role", JStr (Messages.role m));
   ("content", JStr (Messages.content m));
   ("image_url", nullable (Messages.image_url m))]
  ++ prop "extracted_symptoms" es
  ++ prop "grounding_sources" gs
  ++ prop "analysis_results" ar
  ++ [("timestamp", JStr (Messages.timestamp m))].

Section Routes.
Context `{Runtime}.

(** [col ? JSON.parse(col) : undefined]; the outer [None] is the
    exception [JSON.parse] throws. *)
Definition parse_column (col : option string) : option (option json) :=
  match col with
  | Some text =>
      if truthy_str text
      then match JSON_parse text with
           | Some v => Some (Some v)
           | None => None
           end
      else Some None
  | None => Some None
  end.

(** The callback of [messages.map(msg => ({...}))]. *)
Definition parse_message (msg : Messages.row) : option json :=
  es ← parse_column (Messages.extracted_symptoms msg);
  gs ← parse_column (Messages.grounding_sources msg);
  ar ← parse_column (Messages.analysis_results msg);
  Some (JObj (message_fields msg es gs ar)).

(** [value ? JSON.stringify(value) : null] *)
Definition stringify_field (value : option json) : option string :=
  match value with
  | Some v => if truthy v then Some (JSON_stringify v) else None
  | None => None
  end.

(** The callback of [sessions.map(async (session) => ...)]. *)
Definition session_with_messages (d : Db) (session : ChatSessions.row) : option json :=
  parsedMessages ← mapM parse_message
                     (select_messages_by_session (ChatSessions.id session) d);
  Some (JObj (session_fields session ++ [("messages", JArr parsedMessages)])).

(** [router.get('/sessions/:userId', ...)] *)
Definition listSessions (userId : string) (d : Db) : Response :=
  if negb (truthy_str userId)
  then {| status := 400; body := error_body "Missing userId" |}
  else
    match mapM (session_with_messages d) (select_sessions_by_user userId d) with
    | Some sessionsWithMessages =>
        {| status := 200; body := JObj [("sessions", JArr sessionsWithMessages)] |}
    | None => {| status := 500; body := error_body "Failed to fetch sessions" |}
    end.

(** [router.get('/session/:sessionId', ...)] *)
Definition getSession (sessionId : string) (d : Db) : Response :=
  match select_session_by_id sessionId d with
  | None => {| status := 404; body := error_body "Session not found" |}
  | Some session =>
      match mapM parse_message (select_messages_by_session sessionId d) with
      | Some parsedMessages =>
          {| status := 200;
             body := JObj [("session", JObj (session_fields session));
                           ("messages", JArr parsedMessages)] |}
      | None => {| status := 500; body := error_body "Failed to fetch session" |}
      end
  end.

(** [router.post('/session', ...)] *)
Definition createSession (now : Z) (uuid_seed : Z) (req : SessionBody) (d : Db)
    : Response * Db :=
  match cs_userId req with
  | Some userId =>
    if negb (truthy_str userId)
    then ({| status := 400; body := error_body "Missing userId" |}, d)
    else
      let sessionId := generateUUID uuid_seed in
      let now_iso := toISOString now in
      let newSession :=
        {| ChatSessions.id := sessionId;
           ChatSessions.user_id := userId;
           ChatSessions.title := or_else (cs_title req) "New Consultation";
           ChatSessions.created_at := now_iso;
           ChatSessions.updated_at := now_iso |} in
      match insert_session newSession d with
      | inl _ => ({| status := 500; body := error_body "Failed to create session" |}, d)
      | inr d' =>
          ({| status := 201;
              body := JObj [("session",
                             JObj (session_fields newSession ++ [("messages", JArr [])]))] |},
           d')
      end
  | None => ({| status := 400; body := error_body "Missing userId" |}, d)
  end.

(** [router.post('/message', ...)] *)
Definition saveMessage (now : Z) (uuid_seed : Z) (req : MessageBody) (d : Db)
    : Response * Db :=
  match mb_sessionId req, mb_role req, mb_content req with
  | Some sessionId, Some role, Some content =>
    if negb (truthy_str sessionId) || negb (truthy_str role) || negb (truthy_str content)
    then ({| status := 400; body := error_body "Missing required fields" |}, d)
    else
      let id := or_else (mb_messageId req) (generateUUID uuid_seed) in
      let now_iso := toISOString now in
      let values :=
        {| Messages.id := id;
           Messages.session_id := sessionId;
           Messages.role := role;
           Messages.content := content;
           Messages.image_url := or_null (mb_imageUrl req);
           Messages.extracted_symptoms := stringify_field (mb_extractedSymptoms req);
           Messages.grounding_sources := stringify_field (mb_groundingSources req);
           Messages.analysis_results := stringify_field (mb_analysisResults req);
           Messages.timestamp := now_iso |} in
      let written :=
        match insert_message values d with
        | inr d1 => inr d1
        | inl SQLITE_CONSTRAINT => inr (update_message values d)
        | inl insertError => inl insertError
        end in
      match written with
      | inl _ => ({| status := 500; body := error_body "Failed to save message" |}, d)
      | inr d1 =>
          let d2 := update_session_updated_at now_iso sessionId d1 in
          ({| status := 201;
              body := JObj [("message",
                JObj ([("id", JStr id);
                       ("session_id", JStr sessionId);
                       ("role", JStr role);
                       ("content", JStr content)]
                      ++ prop "image_url" (JStr <$> mb_imageUrl req)
                      ++ prop "extracted_symptoms"
                           (JStr <$> stringify_field (mb_extractedSymptoms req))
                      ++ prop "grounding_sources"
                           (JStr <$> stringify_field (mb_groundingSources req))
                      ++ prop "analysis_results"
                           (JStr <$> stringify_field (mb_analysisResults req))
                      ++ [("timestamp", JStr now_iso)]))] |},
           d2)
      end
  | _, _, _ => ({| status := 400; body := error_body "Missing required fields" |}, d)
  end.

(** [router.put('/session/:sessionId', ...)] *)
Definition updateSessionTitle (now : Z) (sessionId : string) (title : option string)
    (d : Db) : Response * Db :=
  match title with
  | Some ttl =>
    if negb (truthy_str ttl)
    then ({| status := 400; body := error_body "Missing title" |}, d)
    else ({| status := 200; body := success_body |},
          update_session_title ttl (toISOString now) sessionId d)
  | None => ({| status := 400; body := error_body "Missing title" |}, d)
  end.

(** [router.delete('/session/:sessionId', ...)] *)
Definition deleteSession (sessionId : string) (d : Db) : Response * Db :=
  ({| status := 200; body := success_body |}, delete_session_by_id sessionId d).

(** [router.delete('/user/:userId', ...)] *)
Definition clearUserData (userId : string) (d : Db) : Response * Db :=
  ({| status := 200; body := success_body |}, delete_sessions_by_user userId d).

End Routes.

End History.

(* ================================================================== *)
(** * A reference runtime *)
(* ================================================================== *)

(** One concrete [Runtime], on which the routes can be run: a JSON
    printer and parser for [json], a keyed digest standing in for bcrypt,
    and fixed-width decimal renderings of instants.  The general
    properties below hold for every [Runtime]; this one instantiates
    them. *)
Module Reference.

Definition quote : ascii := ascii_of_N 34.
Definition backslash : ascii := ascii_of_N 92.

Definition hex4 (n : N) : string :=
  String "0" (String "0"
    (String (hex_digit (Z.of_N (n / 16))) (String (hex_digit (Z.of_N (n mod 16))) EmptyString))).

(** The inside of a string literal: quote and backslash escaped, control
    characters as [\u00XX]. *)
Fixpoint escape (s : string) : string :=
  match s with
  | EmptyString => EmptyString
  | String c rest =>
      if Ascii.eqb c quote then String backslash (String quote (escape rest))
      else if Ascii.eqb c backslash then String backslash (String backslash (escape rest))
      else if (N_of_ascii c <? 32)%N
      then String backslash (String "u" (hex4 (N_of_ascii c) +:+ escape rest))
      else String c (escape rest)
  end.

Definition literal (s : string) : string :=
  String quote (escape s +:+ String quote EmptyString).

Definition number (n : Z) : string := DecimalString.NilZero.string_of_int (Z.to_int n).

#[warnings="-register-all"]
Fixpoint stringify (v : json) : string :=
  match v with
  | JNull => "null"
  | JBool true => "true"
  | JBool false => "false"
  | JNum n => number n
  | JStr s => literal s
  | JArr items =>
      "[" +:+ (fix go (l : list json) : string :=
                 match l with
                 | [] => ""
                 | [x] => stringify x
                 | x :: rest => stringify x +:+ "," +:+ go rest
                 end) items +:+ "]"
  | JObj fields =>
      "{" +:+ (fix go (l : list (string * json)) : string :=
                 match l with
                 | [] => ""
                 | [(k, x)] => literal k +:+ ":" +:+ stringify x
                 | (k, x) :: rest => literal k +:+ ":" +:+ stringify x +:+ "," +:+ go rest
                 end) fields +:+ "}"
  end.

Definition is_ws (c : ascii) : bool :=
  Ascii.eqb c " " || (N_of_ascii c =? 9)%N || (N_of_ascii c =? 10)%N || (N_of_ascii c =? 13)%N.

Fixpoint skip_ws (s : string) : string :=
  match s with
  | String c rest => if is_ws c then skip_ws rest else s
  | EmptyString => s
  end.

Fixpoint span_digits (s : string) : string * string :=
  match s with
  | String c rest =>
      if Regex.is_digit c
      then let (ds, r) := span_digits rest in (String c ds, r)
      else (EmptyString, s)
  | EmptyString => (EmptyString, s)
  end.

Definition hex_value (c : ascii) : option N :=
  if Regex.is_digit c then Some (N_of_ascii c - 48)%N
  else if Regex.in_range "a" "f" c then Some (N_of_ascii c - 87)%N
  else if Regex.in_range "A" "F" c then Some (N_of_ascii c - 55)%N
  else None.

(** The character an escape letter stands for. *)
Definition simple_escape (e : ascii) : option ascii :=
  if Ascii.eqb e quote then Some quote
  else if Ascii.eqb e backslash then Some backslash
  else if Ascii.eqb e "/" then Some "/"%char
  else if Ascii.eqb e "n" then Some (ascii_of_N 10)
  else if Ascii.eqb e "t" then Some (ascii_of_N 9)
  else if Ascii.eqb e "r" then Some (ascii_of_N 13)
  else if Ascii.eqb e "b" then Some (ascii_of_N 8)
  else if Ascii.eqb e "f" then Some (ascii_of_N 12)
  else None.

(** The characters of a literal after its opening quote, up to and
    without the closing one, and the text after it. *)
Fixpoint unescape (s : string) : option (string * string) :=
  match s with
  | EmptyString => None
  | String c rest =>
      if Ascii.eqb c quote then Some (EmptyString, rest)
      else if Ascii.eqb c backslash then
        match rest with
        | EmptyString => None
        | String e rest1 =>
            if Ascii.eqb e "u" then
              match rest1 with
              | String z1 (String z2 (String h (String l rest2))) =>
                  if Ascii.eqb z1 "0" && Ascii.eqb z2 "0" then
                    match hex_value h, hex_value l, unescape rest2 with
                    | Some a, Some b, Some (str, r) =>
                        Some (String (ascii_of_N (16 * a + b)) str, r)
                    | _, _, _ => None
                    end
                  else None
              | _ => None
              end
            else
              match simple_escape e, unescape rest1 with
              | Some ch, Some (str, r) => Some (String ch str, r)
              | _, _ => None
              end
        end
      else if (N_of_ascii c <? 32)%N then None
      else match unescape rest with
           | Some (str, r) => Some (String c str, r)
           | None => None
           end
  end.

(** [p] removed from the front of [s]. *)
Fixpoint strip_prefix (p s : string) : option string :=
  match p with
  | EmptyString => Some s
  | String a p' =>
      match s with
      | String b s' => if Ascii.eqb a b then strip_prefix p' s' else None
      | EmptyString => None
      end
  end.

Definition parse_number (s : string) : option (json * string) :=
  let (sign, digits) :=
    match s with
    | String c rest => if Ascii.eqb c "-" then (String c EmptyString, rest) else (EmptyString, s)
    | EmptyString => (EmptyString, s)
    end in
  let (ds, r) := span_digits digits in
  match ds with
  | EmptyString => None
  | _ => match DecimalString.NilZero.int_of_string (sign +:+ ds) with
         | Some i => Some (JNum (Z.of_int i), r)
         | None => None
         end
  end.

Fixpoint parse_value (fuel : nat) (s : string) : option (json * string) :=
  match fuel with
  | O => None
  | S fuel' =>
      match skip_ws s with
      | EmptyString => None
      | String c rest =>
          if Ascii.eqb c "n" then r ← strip_prefix "ull" rest; Some (JNull, r)
          else if Ascii.eqb c "t" then r ← strip_prefix "rue" rest; Some (JBool true, r)
          else if Ascii.eqb c "f" then r ← strip_prefix "alse" rest; Some (JBool false, r)
          else if Ascii.eqb c "[" then
            match skip_ws rest with
            | EmptyString => None
            | String c' r =>
                if Ascii.eqb c' "]" then Some (JArr [], r)
                else '(items, r') ← parse_items fuel' rest; Some (JArr items, r')
            end
          else if Ascii.eqb c "{" then
            match skip_ws rest with
            | EmptyString => None
            | String c' r =>
                if Ascii.eqb c' "}" then Some (JObj [], r)
                else '(fields, r') ← parse_members fuel' rest; Some (JObj fields, r')
            end
          else if Ascii.eqb c quote then '(str, r) ← unescape rest; Some (JStr str, r)
          else parse_number (String c rest)
      end
  end
with parse_items (fuel : nat) (s : string) : option (list json * string) :=
  match fuel with
  | O => None
  | S fuel' =>
      '(v, r) ← parse_value fuel' s;
      match skip_ws r with
      | EmptyString => None
      | String c r' =>
          if Ascii.eqb c "," then '(vs, r'') ← parse_items fuel' r'; Some (v :: vs, r'')
          else if Ascii.eqb c "]" then Some ([v], r')
          else None
      end
  end
with parse_members (fuel : nat) (s : string) : option (list (string * json) * string) :=
  match fuel with
  | O => None
  | S fuel' =>
      match skip_ws s with
      | EmptyString => None
      | String c rest =>
          if Ascii.eqb c quote then
            '(k, r) ← unescape rest;
            match skip_ws r with
            | EmptyString => None
            | String c1 r1 =>
                if Ascii.eqb c1 ":" then
                  '(v, r2) ← parse_value fuel' r1;
                  match skip_ws r2 with
                  | EmptyString => None
                  | String c3 r3 =>
                      if Ascii.eqb c3 "," then
                        '(kvs, r4) ← parse_members fuel' r3; Some ((k, v) :: kvs, r4)
                      else if Ascii.eqb c3 "}" then Some ([(k, v)], r3)
                      else None
                  end
                else None
            end
          else None
      end
  end.

Definition parse (s : string) : option json :=
  '(v, r) ← parse_value (2 * String.length s + 2) s;
  match skip_ws r with
  | EmptyString => Some v
  | _ => None
  end.

(** *** What the round trip of the codec is stated with *)

(** The elements of an array, or the members of an object, as printed. *)
Fixpoint join (l : list string) : string :=
  match l with
  | [] => ""
  | [x] => x
  | x :: rest => x +:+ "," +:+ join rest
  end.

Definition member (kv : string * json) : string :=
  literal kv.1 +:+ ":" +:+ stringify kv.2.

(** The fuel a value needs. *)
#[warnings="-register-all"]
Fixpoint size (v : json) : nat :=
  match v with
  | JArr items =>
      S ((fix go (l : list json) : nat :=
            match l with [] => O | x :: r => S (size x + go r) end) items)
  | JObj fields =>
      S ((fix go (l : list (string * json)) : nat :=
            match l with [] => O | (_, x) :: r => S (size x + go r) end) fields)
  | _ => 1
  end.

Fixpoint sizes (l : list json) : nat :=
  match l with
  | [] => O
  | x :: r => S (size x + sizes r)
  end.

(** The text after a value does not go on with a digit. *)
Definition delimited (rest : string) : Prop :=
  match rest with
  | String c _ => Regex.is_digit c = false
  | EmptyString => True
  end.

(** The first character of a value: no white space, no closing bracket. *)
Definition opens_value (c : ascii) : Prop :=
  is_ws c = false ∧ Ascii.eqb c "]" = false ∧ Ascii.eqb c "}" = false.

(** The parser reads a printed value back and stops after it. *)
Definition parses_back (v : json) : Prop :=
  ∀ fuel rest, (size v ≤ fuel)%nat → delimited rest →
    parse_value fuel (stringify v +:+ rest) = Some (v, rest).

(** A digest standing in for bcrypt: the salt, then the password. *)
Definition digest (password : string) (rounds salt : Z) : string :=
  toHex (randomBytes 4 salt) +:+ "$" +:+ password.

Definition digest_matches (password hash : string) : bool :=
  String.eqb (String.substring 8 (String.length hash - 8) hash) ("$" +:+ password).

(** Instants as fixed-width decimals, so that text order is time order. *)
Fixpoint pad (width : nat) (ms : Z) (acc : string) : string :=
  match width with
  | O => acc
  | S w => pad w (ms / 10) (String (hex_digit (ms mod 10)) acc)
  end.

Definition iso (ms : Z) : string := pad 16 ms "Z".
Definition sql_now (ms : Z) : string := pad 16 ms "".

Definition runtime : Runtime :=
  {| bcrypt_hash := digest;
     bcrypt_compare := digest_matches;
     JSON_stringify := stringify;
     JSON_parse := parse;
     toISOString := iso;
     CURRENT_TIMESTAMP := sql_now |}.

End Reference.

(* ================================================================== *)
(** * The server as a transition system *)
(* ================================================================== *)

(** The requests the two routers serve. *)
Inductive Request :=
| PostSignup (body : Auth.SignupBody)
| PostLogin (body : Auth.LoginBody)
| PostVerify (req : Auth.VerifyRequest)
| PostLogout (userId : option string)
| GetSessions (userId : string)
| GetSession (sessionId : string)
| PostSession (body : History.SessionBody)
| PostMessage (body : History.MessageBody)
| PutSession (sessionId : string) (title : option string)
| DeleteSession (sessionId : string)
| DeleteUser (userId : string).

(** One request served at the instant [now] with the random [draws]. *)
Definition handle `{Runtime} (now : Z) (draws : Auth.Draws) (rq : Request) (st : Server)
    : Response * Server :=
  let on_db (out : Response * Db) : Response * Server :=
    (out.1, {| db := out.2; loginAttempts := loginAttempts st |}) in
  match rq with
  | PostSignup body => on_db (Auth.signup now draws body (db st))
  | PostLogin body => Auth.login now draws body st
  | PostVerify req => (Auth.verify req (db st), st)
  | PostLogout userId => on_db (Auth.logout userId (db st))
  | GetSessions userId => (History.listSessions userId (db st), st)
  | GetSession sessionId => (History.getSession sessionId (db st), st)
  | PostSession body => on_db (History.createSession now (Auth.uuid_seed draws) body (db st))
  | PostMessage body => on_db (History.saveMessage now (Auth.uuid_seed draws) body (db st))
  | PutSession sessionId title => on_db (History.updateSessionTitle now sessionId title (db st))
  | DeleteSession sessionId => on_db (History.deleteSession sessionId (db st))
  | DeleteUser userId => on_db (History.clearUserData userId (db st))
  end.

(** The states the process can be in: it starts on the database as
    [initializeDatabase] leaves a new file, with no login attempt
    recorded, and serves requests. *)
Inductive reachable `{Runtime} : Server → Prop :=
| reachable_start :
    reachable {| db := initializeDatabase; loginAttempts := ∅ |}
| reachable_step st now draws rq :
    reachable st → reachable (handle now draws rq st).2.

(* ================================================================== *)
(** * Drivers: several calls in a row *)
(* ================================================================== *)

(** [checkRateLimit(identifier)] called once at each instant of [times]. *)
Fixpoint attempts (identifier : string) (times : list Z)
    (m : gmap string Attempt) : list bool * gmap string Attempt :=
  match times with
  | [] => ([], m)
  | now :: rest =>
      let (ok, m1) := checkRateLimit now identifier m in
      let (oks, m2) := attempts identifier rest m1 in
      (ok :: oks, m2)
  end.

(** A window is free for [identifier] at [now]: no entry, or one that has
    expired. *)
Definition window_free (identifier : string) (now : Z) (m : gmap string Attempt) : Prop :=
  match m !! identifier with
  | None => True
  | Some a => now - timestamp a > 15 * 60 * 1000
  end.

(** [POST /login] called for one [username], once per element of [calls]:
    the instant, the random draws and the password of each call. *)
Fixpoint logins `{Runtime} (username : string) (calls : list (Z * Auth.Draws * string))
    (st : Server) : list Response * Server :=
  match calls with
  | [] => ([], st)
  | (now, draws, password) :: rest =>
      let (r, st1) :=
        Auth.login now draws
          {| Auth.li_username := Some username; Auth.li_password := Some password |} st in
      let (rs, st2) := logins username rest st1 in
      (r :: rs, st2)
  end.

(** The two failure responses of [/login]. *)
Definition too_many_attempts : Response :=
  {| status := 429; body := error_body "Too many login attempts. Please try again later." |}.

Definition invalid_credentials : Response :=
  {| status := 401; body := error_body "Invalid credentials" |}.

(** ** Sample data on the reference runtime *)

Definition alice_signup : Auth.SignupBody :=
  {| Auth.su_username := Some "alice";
     Auth.su_password := Some "Valid123";
     Auth.su_name := Some "Alice";
     Auth.su_email := Some "alice@example.com" |}.

Definition sample_draws : Auth.Draws :=
  {| Auth.salt_seed := 3735928559; Auth.uuid_seed := 81985529216486895;
     Auth.token_seed := 1311768467463790320 |}.

(** The server after [alice] has signed up on a new database. *)
Definition alice_server : Server :=
  {| db := (Auth.signup (H := Reference.runtime) 0 sample_draws alice_signup
              initializeDatabase).2;
     loginAttempts := ∅ |}.

(** Six logins with the right password, one per minute. *)
Definition six_calls : list (Z * Auth.Draws * string) :=
  [(60000, sample_draws, "Valid123"); (120000, sample_draws, "Valid123");
   (180000, sample_draws, "Valid123"); (240000, sample_draws, "Valid123");
   (300000, sample_draws, "Valid123"); (360000, sample_draws, "Valid123")].

(* ================================================================== *)
(** * Specification-level definitions *)
(* ================================================================== *)

(** The language of a regular expression: what [test] is to decide. *)
Inductive lang : Regex.regex → string → Prop :=
| lang_eps : lang Regex.Eps ""
| lang_class p c : p c = true → lang (Regex.Class p) (String c "")
| lang_cat r1 r2 s1 s2 :
    lang r1 s1 → lang r2 s2 → lang (Regex.Cat r1 r2) (s1 +:+ s2)
| lang_alt_l r1 r2 s : lang r1 s → lang (Regex.Alt r1 r2) s
| lang_alt_r r1 r2 s : lang r2 s → lang (Regex.Alt r1 r2) s
| lang_star_nil r : lang (Regex.Star r) ""
| lang_star_cons r s1 s2 :
    lang r s1 → lang (Regex.Star r) s2 → lang (Regex.Star r) (s1 +:+ s2).

(** Every character of [s] is in the class [p]; some character is. *)
Fixpoint every (p : ascii → bool) (s : string) : bool :=
  match s with
  | EmptyString => true
  | String c rest => p c && every p rest
  end.

Fixpoint some (p : ascii → bool) (s : string) : bool :=
  match s with
  | EmptyString => false
  | String c rest => p c || some p rest
  end.

(** ** The signup rules, in the words of the specification *)

(** A part of an address: not empty, no white space, no [@]. *)
Definition address_part (s : string) : Prop :=
  s ≠ "" ∧ every Regex.not_space_at s = true.

(** The shape [local@domain.tld]. *)
Definition email_shape (s : string) : Prop :=
  ∃ loc domain tld,
    s = loc +:+ "@" +:+ domain +:+ "." +:+ tld
    ∧ address_part loc ∧ address_part domain ∧ address_part tld.

Inductive signup_rule :=
| FieldsPresent
| EmailShape
| UsernameLength
| UsernameCharset
| PasswordLength
| PasswordCase
| PasswordDigit.

(** The order the specification gives. *)
Definition signup_rules : list signup_rule :=
  [FieldsPresent; EmailShape; UsernameLength; UsernameCharset;
   PasswordLength; PasswordCase; PasswordDigit].

(** A field as the rules read it: an absent field has no characters. *)
Definition field (x : option string) : string := default "" x.

Definition rule_holds (r : signup_rule) (req : Auth.SignupBody) : Prop :=
  match r with
  | FieldsPresent =>
      field (Auth.su_username req) ≠ "" ∧ field (Auth.su_password req) ≠ ""
      ∧ field (Auth.su_name req) ≠ "" ∧ field (Auth.su_email req) ≠ ""
  | EmailShape => email_shape (field (Auth.su_email req))
  | UsernameLength => (3 ≤ String.length (field (Auth.su_username req)))%nat
  | UsernameCharset =>
      field (Auth.su_username req) ≠ ""
      ∧ every Regex.is_username_char (field (Auth.su_username req)) = true
  | PasswordLength => (8 ≤ String.length (field (Auth.su_password req)))%nat
  | PasswordCase =>
      some Regex.is_lower (field (Auth.su_password req)) = true
      ∧ some Regex.is_upper (field (Auth.su_password req)) = true
  | PasswordDigit => some Regex.is_digit (field (Auth.su_password req)) = true
  end.

(** The validation error of each rule. *)
Definition rule_error (r : signup_rule) : Response :=
  {| status := 400;
     body := error_body
       match r with
       | FieldsPresent => "Missing required fields"
       | EmailShape => "Invalid email format"
       | UsernameLength => "Username must be at least 3 characters"
       | UsernameCharset =>
           "Username can only contain letters, numbers, underscores, and hyphens"
       | PasswordLength => "Password must be at least 8 characters"
       | PasswordCase => "Password must contain uppercase and lowercase letters"
       | PasswordDigit => "Password must contain at least one number"
       end |}.

(** The checks of [/signup] after the presence check, as the route makes
    them: the rule of the first test that fails. *)
Definition failed_check (username password email : string) : option signup_rule :=
  if negb (Regex.test_anchored Auth.emailRegex email) then Some EmailShape
  else if (String.length username <? 3)%nat then Some UsernameLength
  else if negb (Regex.test_anchored Auth.usernameRegex username) then Some UsernameCharset
  else if (String.length password <? 8)%nat then Some PasswordLength
  else if negb (Regex.test (Regex.Class Regex.is_lower) password)
          || negb (Regex.test (Regex.Class Regex.is_upper) password)
  then Some PasswordCase
  else if negb (Regex.test (Regex.Class Regex.is_digit) password) then Some PasswordDigit
  else None.

(** ** The public projection of a user *)

(** The four properties a user payload may carry. *)
Definition public_user_keys : list string := ["id"; "username"; "name"; "email"].

(** A user row with its token and the token's expiry forgotten. *)
Definition forget_token (u : Users.row) : Users.row :=
  {| Users.id := Users.id u;
     Users.username := Users.username u;
     Users.password_hash := Users.password_hash u;
     Users.name := Users.name u;
     Users.email := Users.email u;
     Users.auth_token := None;
     Users.token_expiry := None;
     Users.last_login := Users.last_login u;
     Users.created_at := Users.created_at u;
     Users.updated_at := Users.updated_at u |}.

(** The projection of a row, written out: the identifier, the username and
    the name, and the email when the row has one that is not empty. *)
Definition public_projection (u : Users.row) : json :=
  JObj ([("id", JStr (Users.id u));
         ("username", JStr (Users.username u));
         ("name", JStr (Users.name u))]
        ++ match Users.email u with
           | Some e => if truthy_str e then [("email", JStr e)] else []
           | None => []
           end).

(** The identifier [alice] got at signup. *)
Definition alice_id : string := generateUUID (Auth.uuid_seed sample_draws).

(** ** What [/message] writes and what the listings read *)

(** The primary keys of the three tables. *)
Definition primary_keys (d : Db) : Prop :=
  NoDup (map Users.id (users d))
  ∧ NoDup (map ChatSessions.id (chat_sessions d))
  ∧ NoDup (map Messages.id (messages d)).

(** What holds of the store in every state of the process: the keys are
    unique and the connection does not enforce foreign keys. *)
Definition store_invariant (d : Db) : Prop :=
  foreign_keys d = false ∧ primary_keys d.

(** A body that passes the presence check of [/message]. *)
Definition valid_message (req : History.MessageBody) : Prop :=
  truthy_ostr (History.mb_sessionId req) = true
  ∧ truthy_ostr (History.mb_role req) = true
  ∧ truthy_ostr (History.mb_content req) = true.

#[global] Instance valid_message_dec req : Decision (valid_message req).
Proof. unfold valid_message. apply _. Defined.

(** The identifier the route uses: the supplied one, else a fresh one. *)
Definition saved_id (uuid_seed : Z) (req : History.MessageBody) : string :=
  or_else (History.mb_messageId req) (generateUUID uuid_seed).

(** The values the route binds to its [INSERT] and to its [UPDATE]. *)
Definition saved_values `{Runtime} (now uuid_seed : Z) (req : History.MessageBody)
    : Messages.row :=
  {| Messages.id := saved_id uuid_seed req;
     Messages.session_id := field (History.mb_sessionId req);
     Messages.role := field (History.mb_role req);
     Messages.content := field (History.mb_content req);
     Messages.image_url := or_null (History.mb_imageUrl req);
     Messages.extracted_symptoms := History.stringify_field (History.mb_extractedSymptoms req);
     Messages.grounding_sources := History.stringify_field (History.mb_groundingSources req);
     Messages.analysis_results := History.stringify_field (History.mb_analysisResults req);
     Messages.timestamp := toISOString now |}.

(** The row an [UPDATE] of a message leaves: the identifier and the
    session of the stored row, everything else from the values. *)
Definition overwritten (stored values : Messages.row) : Messages.row :=
  {| Messages.id := Messages.id stored;
     Messages.session_id := Messages.session_id stored;
     Messages.role := Messages.role values;
     Messages.content := Messages.content values;
     Messages.image_url := Messages.image_url values;
     Messages.extracted_symptoms := Messages.extracted_symptoms values;
     Messages.grounding_sources := Messages.grounding_sources values;
     Messages.analysis_results := Messages.analysis_results values;
     Messages.timestamp := Messages.timestamp values |}.

(** A session row with its [updated_at] set. *)
Definition bumped (stamp : string) (s : ChatSessions.row) : ChatSessions.row :=
  {| ChatSessions.id := ChatSessions.id s;
     ChatSessions.user_id := ChatSessions.user_id s;
     ChatSessions.title := ChatSessions.title s;
     ChatSessions.created_at := ChatSessions.created_at s;
     ChatSessions.updated_at := stamp |}.

(** A JSON sub-field as a listing shows it: a falsy value was stored as
    NULL and reads as absent. *)
Definition kept (x : option json) : option json :=
  match x with
  | Some v => if truthy v then Some v else None
  | None => None
  end.

(** [JSON.parse] undoes [JSON.stringify] on the value of a sub-field, and
    the text is not empty. *)
Definition round_trips `{Runtime} (x : option json) : Prop :=
  match kept x with
  | Some v => JSON_parse (JSON_stringify v) = Some v
              ∧ truthy_str (JSON_stringify v) = true
  | None => True
  end.

(** Every stored message can be read back: its JSON columns parse. *)
Definition readable `{Runtime} (d : Db) : Prop :=
  Forall (λ r, is_Some (History.parse_message r)) (messages d).

(** A row is parsed into each message object of a listing. *)
Definition parsed_from `{Runtime} (rows : list Messages.row) (msgs : list json) : Prop :=
  Forall2 (λ r msg, History.parse_message r = Some msg) rows msgs.

(** The three JSON sub-fields of a message object are those kept of the
    body [req]. *)
Definition shows_fields_of (req : History.MessageBody) (msg : json) : Prop :=
  jget "extracted_symptoms" msg = kept (History.mb_extractedSymptoms req)
  ∧ jget "grounding_sources" msg = kept (History.mb_groundingSources req)
  ∧ jget "analysis_results" msg = kept (History.mb_analysisResults req).

(** The message objects of a listing that carry the identifier [mid]. *)
Definition has_id (mid : string) (msg : json) : bool :=
  match jget "id" msg with
  | Some (JStr s) => String.eqb s mid
  | _ => false
  end.

Definition with_id (mid : string) (msgs : list json) : list json :=
  filter (λ msg, has_id mid msg = true) msgs.

(** [alice]'s signup with another password. *)
Definition with_password (password : string) : Auth.SignupBody :=
  {| Auth.su_username := Some "alice";
     Auth.su_password := Some password;
     Auth.su_name := Some "Alice";
     Auth.su_email := Some "alice@example.com" |}.

(** A consultation of [alice] with one message that carries extracted
    symptoms. *)
Definition consultation : History.SessionBody :=
  {| History.cs_userId := Some alice_id; History.cs_title := None |}.

Definition consultation_seed : Z := 1234567890123456789.

Definition consultation_id : string := generateUUID consultation_seed.

Definition consultation_db : Db :=
  (History.createSession (H := Reference.runtime) 100000 consultation_seed consultation
     (db alice_server)).2.

Definition symptoms : json := JArr [JStr "fever"; JStr "cough"].

Definition symptoms_message : History.MessageBody :=
  {| History.mb_sessionId := Some consultation_id;
     History.mb_role := Some "user";
     History.mb_content := Some "I have a fever and a cough";
     History.mb_imageUrl := None;
     History.mb_extractedSymptoms := Some symptoms;
     History.mb_groundingSources := None;
     History.mb_analysisResults := None;
     History.mb_messageId := Some "m-1" |}.

(** The store with that message saved, then with a second consultation. *)
Definition saved_db : Db :=
  (History.saveMessage (H := Reference.runtime) 200000 7 symptoms_message
     consultation_db).2.

Definition second_seed : Z := 987654321987654321.

Definition second_id : string := generateUUID second_seed.

Definition second_db : Db :=
  (History.createSession (H := Reference.runtime) 300000 second_seed consultation
     saved_db).2.

(** The row of the message as stored. *)
Definition stored_message : Messages.row :=
  {| Messages.id := "m-1";
     Messages.session_id := consultation_id;
     Messages.role := "user";
     Messages.content := "I have a fever and a cough";
     Messages.image_url := None;
     Messages.extracted_symptoms := Some (Reference.stringify symptoms);
     Messages.grounding_sources := None;
     Messages.analysis_results := None;
     Messages.timestamp := Reference.iso 200000 |}.

(** The same identifier sent again, with a new content, naming the second
    consultation. *)
Definition resent_message : History.MessageBody :=
  {| History.mb_sessionId := Some second_id;
     History.mb_role := Some "user";
     History.mb_content := Some "I have a fever, a cough and a headache";
     History.mb_imageUrl := None;
     History.mb_extractedSymptoms := Some (JArr [JStr "fever"; JStr "cough"; JStr "headache"]);
     History.mb_groundingSources := None;
     History.mb_analysisResults := None;
     History.mb_messageId := Some "m-1" |}.

(* ================================================================== *)
(** * Definitions for the further properties *)
(* ================================================================== *)

(** A lower-case hexadecimal digit, [[0-9a-f]]. *)
Definition is_hex (c : ascii) : bool :=
  Regex.is_digit c || Regex.in_range "a" "f" c.

(** A user row with what one login sets forgotten: the token, its expiry
    and the instant of the last login. *)
Definition forget_login (u : Users.row) : Users.row :=
  {| Users.id := Users.id u;
     Users.username := Users.username u;
     Users.password_hash := Users.password_hash u;
     Users.name := Users.name u;
     Users.email := Users.email u;
     Users.auth_token := None;
     Users.token_expiry := None;
     Users.last_login := None;
     Users.created_at := Users.created_at u;
     Users.updated_at := Users.updated_at u |}.

(** The server after the six logins of [six_calls]. *)
Definition throttled_server : Server :=
  (logins (H := Reference.runtime) "alice" six_calls alice_server).2.

(** The row [/signup] inserts for the fields [username], [password],
    [name] and [email]. *)
Definition signup_row `{Runtime} (now : Z) (draws : Auth.Draws)
    (username password name email : string) : Users.row :=
  {| Users.id := generateUUID (Auth.uuid_seed draws);
     Users.username := username;
     Users.password_hash := bcrypt_hash password 12 (Auth.salt_seed draws);
     Users.name := name;
     Users.email := Some email;
     Users.auth_token := Some (generateToken (Auth.token_seed draws));
     Users.token_expiry := Some (toISOString (now + 2592000000));
     Users.last_login := None;
     Users.created_at := CURRENT_TIMESTAMP now;
     Users.updated_at := CURRENT_TIMESTAMP now |}.

(** The columns of an account that no route is to change once the row is
    inserted. *)
Definition account (u : Users.row)
    : string * string * string * string * option string * string :=
  (Users.id u, Users.username u, Users.password_hash u, Users.name u, Users.email u,
   Users.created_at u).

(** The identifier and the session of a stored message. *)
Definition placement (m : Messages.row) : string * string :=
  (Messages.id m, Messages.session_id m).

(** The columns the routes require are filled in every row of the two
    history tables. *)
Definition rows_filled (d : Db) : Prop :=
  Forall (λ s, String.length (ChatSessions.id s) = 32%nat
               ∧ ChatSessions.user_id s ≠ ""
               ∧ ChatSessions.title s ≠ "") (chat_sessions d)
  ∧ Forall (λ m, Messages.id m ≠ "" ∧ Messages.session_id m ≠ ""
                 ∧ Messages.role m ≠ "" ∧ Messages.content m ≠ "") (messages d).

(** The row [POST /session] inserts. *)
Definition session_row `{Runtime} (now seed : Z) (req : History.SessionBody)
    : ChatSessions.row :=
  {| ChatSessions.id := generateUUID seed;
     ChatSessions.user_id := field (History.cs_userId req);
     ChatSessions.title := or_else (History.cs_title req) "New Consultation";
     ChatSessions.created_at := toISOString now;
     ChatSessions.updated_at := toISOString now |}.

(** A session row with a new title and a new [updated_at]. *)
Definition retitled (ttl stamp : string) (s : ChatSessions.row) : ChatSessions.row :=
  {| ChatSessions.id := ChatSessions.id s;
     ChatSessions.user_id := ChatSessions.user_id s;
     ChatSessions.title := ttl;
     ChatSessions.created_at := ChatSessions.created_at s;
     ChatSessions.updated_at := stamp |}.

(** How many times the character [c] occurs in [s]. *)
Fixpoint occurrences (c : ascii) (s : string) : nat :=
  match s with
  | EmptyString => O
  | String c' rest => ((if Ascii.eqb c' c then 1 else 0) + occurrences c rest)%nat
  end.

(** A message for a session that does not exist. *)
Definition stray_message : History.MessageBody :=
  {| History.mb_sessionId := Some "no-such-session";
     History.mb_role := Some "user";
     History.mb_content := Some "hello";
     History.mb_imageUrl := Some "";
     History.mb_extractedSymptoms := None;
     History.mb_groundingSources := None;
     History.mb_analysisResults := None;
     History.mb_messageId := None |}.

(** Every entry of the limiter's map belongs to a username that is not
    empty and counts between one and five attempts. *)
Definition attempts_bounded (m : gmap string Attempt) : Prop :=
  ∀ identifier a, m !! identifier = Some a → identifier ≠ "" ∧ 1 ≤ count a ≤ 5.

(** A later message in [alice]'s first consultation. *)
Definition follow_up : History.MessageBody :=
  {| History.mb_sessionId := Some consultation_id;
     History.mb_role := Some "user";
     History.mb_content := Some "The fever is gone";
     History.mb_imageUrl := None;
     History.mb_extractedSymptoms := None;
     History.mb_groundingSources := None;
     History.mb_analysisResults := None;
     History.mb_messageId := Some "m-2" |}.

(** A platform to run the two routes on: a number is bound as its
    decimal text and a boolean as 1 or 0, an array and an object as their
    [String()]; a string of digits is the number it spells. *)
Definition reference_coercions : Coercions :=
  {| bind_text := λ v,
       match v with
       | JNull => None
       | JBool b => Some (if b then "1" else "0")
       | v => Some (Untyped.ToString v)
       end;
     string_below := λ s n,
       match DecimalString.NilZero.uint_of_string s with
       | Some u => Z.of_uint u <? n
       | None => false
       end |}.

(** A body of strings as the values it holds. *)
Definition signup_values (req : Auth.SignupBody) : Untyped.SignupBody :=
  {| Untyped.su_username := JStr <$> Auth.su_username req;
     Untyped.su_password := JStr <$> Auth.su_password req;
     Untyped.su_name := JStr <$> Auth.su_name req;
     Untyped.su_email := JStr <$> Auth.su_email req |}.

Definition login_values (req : Auth.LoginBody) : Untyped.LoginBody :=
  {| Untyped.li_username := Auth.li_username req;
     Untyped.li_password := JStr <$> Auth.li_password req |}.

(** [alice]'s signup with the number 7 for a username. *)
Definition seven_signup (password : string) : Untyped.SignupBody :=
  {| Untyped.su_username := Some (JNum 7);
     Untyped.su_password := Some (JStr password);
     Untyped.su_name := Some (JStr "Alice");
     Untyped.su_email := Some (JStr "alice@example.com") |}.

(** A login with the number 12345678 for a password. *)
Definition number_login (username : string) : Untyped.LoginBody :=
  {| Untyped.li_username := Some username;
     Untyped.li_password := Some (JNum 12345678) |}.

(* ================================================================== *)
(** * Properties of the rate limiter *)
(* ================================================================== *)

Section RateLimiter.
Implicit Types (m : gmap string Attempt) (identifier : string).

Lemma checkRateLimit_free identifier now m :
  window_free identifier now m →
  checkRateLimit now identifier m
  = (true, <[identifier := {| count := 1; timestamp := now |}]> m).
Proof.
  unfold window_free, checkRateLimit, RATE_LIMIT_WINDOW.
  destruct (m !! identifier) as [a|]; [|done].
  intros Hexp. destruct (Z.gtb_spec (now - timestamp a) (15 * 60 * 1000)); [done|lia].
Qed.

Lemma checkRateLimit_within identifier now m a :
  m !! identifier = Some a →
  now - timestamp a ≤ 15 * 60 * 1000 →
  checkRateLimit now identifier m
  = if decide (count a < 5)
    then (true, <[identifier := {| count := count a + 1; timestamp := timestamp a |}]> m)
    else (false, m).
Proof.
  intros Hm Hin. unfold checkRateLimit, RATE_LIMIT_WINDOW, RATE_LIMIT_ATTEMPTS. rewrite Hm.
  destruct (Z.gtb_spec (now - timestamp a) (15 * 60 * 1000)); [lia|].
  rewrite Z.geb_leb.
  destruct (Z.leb_spec 5 (count a)); case_decide; try lia; done.
Qed.

(** Other identifiers are not touched. *)
Lemma checkRateLimit_frame identifier other now m :
  other ≠ identifier →
  (checkRateLimit now identifier m).2 !! other = m !! other.
Proof.
  intros Hne. unfold checkRateLimit.
  destruct (m !! identifier) as [a|]; simpl.
  - destruct (_ >? _); simpl; [by rewrite lookup_insert_ne|].
    destruct (_ >=? _); simpl; [done|by rewrite lookup_insert_ne].
  - by rewrite lookup_insert_ne.
Qed.

(** Inside a window that started at [t0] with [c] attempts counted, the
    next calls are allowed until the count reaches five. *)
Lemma attempts_within identifier t0 (times : list Z) : ∀ m c,
  m !! identifier = Some {| count := c; timestamp := t0 |} →
  0 ≤ c →
  Forall (λ t, t - t0 ≤ 15 * 60 * 1000) times →
  (attempts identifier times m).1
    = replicate (Nat.min (Z.to_nat (5 - c)) (length times)) true
      ++ replicate (length times - Z.to_nat (5 - c)) false
  ∧ (attempts identifier times m).2 !! identifier
    = Some {| count := Z.min (Z.max 5 c) (c + Z.of_nat (length times)); timestamp := t0 |}.
Proof.
  induction times as [|t times IH]; intros m c Hm Hc Hall.
  - simpl. rewrite Nat.min_0_r. simpl. split; [done|]. rewrite Hm. do 2 f_equal. lia.
  - apply Forall_cons in Hall as [Ht Hall]. simpl.
    rewrite (checkRateLimit_within _ _ _ _ Hm) by done. simpl.
    case_decide as Hlt.
    + specialize (IH (<[identifier := {| count := c + 1; timestamp := t0 |}]> m) (c + 1)).
      destruct IH as [IH1 IH2]; [by rewrite lookup_insert_eq|lia|done|].
      destruct (attempts identifier times _) as [oks m2]. simpl in *.
      split.
      * rewrite IH1.
        replace (Z.to_nat (5 - c)) with (S (Z.to_nat (5 - (c + 1)))) by lia.
        simpl. done.
      * rewrite IH2. do 2 f_equal. lia.
    + specialize (IH m c Hm Hc Hall). destruct IH as [IH1 IH2].
      destruct (attempts identifier times m) as [oks m2]. simpl in *.
      split.
      * rewrite IH1. replace (Z.to_nat (5 - c)) with O by lia. simpl.
        by rewrite Nat.sub_0_r.
      * rewrite IH2. do 2 f_equal. lia.
Qed.

End RateLimiter.

Lemma attempts_app identifier (l1 l2 : list Z) (m : gmap string Attempt) :
  attempts identifier (l1 ++ l2) m
  = ((attempts identifier l1 m).1 ++ (attempts identifier l2 (attempts identifier l1 m).2).1,
     (attempts identifier l2 (attempts identifier l1 m).2).2).
Proof.
  revert m. induction l1 as [|t l1 IH]; intros m; simpl.
  - by destruct (attempts identifier l2 m).
  - destruct (checkRateLimit t identifier m) as [ok m1]. rewrite IH.
    destruct (attempts identifier l1 m1) as [oks m2]. simpl.
    by destruct (attempts identifier l2 m2).
Qed.

(** C2. [checkRateLimit] is a fixed-window counter with limit 5 and a
    window of 15 minutes.  With no entry or an expired window it stores
    count 1 at the current instant and allows; inside the window it
    increments and allows while the count is below 5, and denies without
    touching the map once the count is 5 or more.  Hence, from a free
    window, five attempts inside the window are allowed, the sixth is
    denied, and an attempt after the window has elapsed is allowed. *)
Theorem checkRateLimit_fixed_window (identifier : string) (m : gmap string Attempt) (now : Z) :
  (window_free identifier now m →
   checkRateLimit now identifier m
   = (true, <[identifier := {| count := 1; timestamp := now |}]> m))
  ∧ (∀ a, m !! identifier = Some a → now - timestamp a ≤ 15 * 60 * 1000 → count a < 5 →
     checkRateLimit now identifier m
     = (true, <[identifier := {| count := count a + 1; timestamp := timestamp a |}]> m))
  ∧ (∀ a, m !! identifier = Some a → now - timestamp a ≤ 15 * 60 * 1000 → 5 ≤ count a →
     checkRateLimit now identifier m = (false, m))
  ∧ (∀ t2 t3 t4 t5 t6 later,
     window_free identifier now m →
     Forall (λ t, t - now ≤ 15 * 60 * 1000) [t2; t3; t4; t5; t6] →
     later - now > 15 * 60 * 1000 →
     (attempts identifier [now; t2; t3; t4; t5; t6; later] m).1
     = [true; true; true; true; true; false; true]).
Proof.
  split; [apply checkRateLimit_free|].
  split; [intros a Hm Hin Hc; rewrite (checkRateLimit_within _ _ _ _ Hm Hin); by case_decide|].
  split; [intros a Hm Hin Hc; rewrite (checkRateLimit_within _ _ _ _ Hm Hin);
          case_decide; [lia|done]|].
  intros t2 t3 t4 t5 t6 later Hfree Hin Hlater.
  change [now; t2; t3; t4; t5; t6; later] with ([now] ++ [t2; t3; t4; t5; t6] ++ [later]).
  rewrite !attempts_app. cbn [fst snd].
  assert (Hfirst : attempts identifier [now] m
                   = ([true], <[identifier := {| count := 1; timestamp := now |}]> m)).
  { simpl. by rewrite checkRateLimit_free. }
  rewrite Hfirst. cbn [fst snd].
  destruct (attempts_within identifier now [t2; t3; t4; t5; t6]
              (<[identifier := {| count := 1; timestamp := now |}]> m) 1) as [Hoks Hend];
    [by rewrite lookup_insert_eq|lia|done|].
  rewrite Hoks. simpl in Hend.
  cbn [attempts]. rewrite checkRateLimit_free; [done|].
  unfold window_free. rewrite Hend. simpl. lia.
Qed.

(** A run on which every hypothesis of C2 holds. *)
Lemma checkRateLimit_fixed_window_witness :
  (attempts "alice" [1000; 2000; 3000; 4000; 5000; 900000; 902000] ∅).1
  = [true; true; true; true; true; false; true].
Proof.
  apply (proj2 (proj2 (proj2 (checkRateLimit_fixed_window "alice" ∅ 1000)))).
  - exact I.
  - repeat constructor; lia.
  - lia.
Defined.

(* ================================================================== *)
(** * Properties of [/login] *)
(* ================================================================== *)

Section Login.
Context `{Runtime}.
Implicit Types (st : Server) (username password : string).

Lemma truthy_str_true (s : string) : truthy_str s = true ↔ s ≠ "".
Proof. destruct s; simpl; split; congruence. Qed.

(** With both fields present, [/login] is the rate limiter followed by the
    credential check. *)
Lemma login_present now draws username password st :
  truthy_str username = true → truthy_str password = true →
  Auth.login now draws
    {| Auth.li_username := Some username; Auth.li_password := Some password |} st
  = let (allowed, la) := checkRateLimit now username (loginAttempts st) in
    if allowed then
      match select_user_by_username username (db st) with
      | Some user =>
          if bcrypt_compare password (Users.password_hash user)
          then ({| status := 200;
                   body := JObj [("user", Auth.user_response (Users.id user)
                                            (Users.username user) (Users.name user)
                                            (Users.email user));
                                 ("token", JStr (generateToken (Auth.token_seed draws)));
                                 ("expiresIn", JNum Auth.THIRTY_DAYS)] |},
                {| db := update_user_login (generateToken (Auth.token_seed draws))
                           (toISOString (now + Auth.THIRTY_DAYS)) (CURRENT_TIMESTAMP now)
                           (Users.id user) (db st);
                   loginAttempts := la |})
          else (invalid_credentials, {| db := db st; loginAttempts := la |})
      | None => (invalid_credentials, {| db := db st; loginAttempts := la |})
      end
    else (too_many_attempts, {| db := db st; loginAttempts := la |}).
Proof.
  intros Hu Hp. unfold Auth.login. simpl. rewrite Hu, Hp. simpl.
  destruct (checkRateLimit now username (loginAttempts st)) as [[] la]; simpl; [|done].
  destruct (select_user_by_username username (db st)) as [user|]; [|done].
  by destruct (bcrypt_compare password (Users.password_hash user)).
Qed.

(** Whatever the credentials, the call is counted. *)
Lemma login_counts now draws username password st :
  truthy_str username = true → truthy_str password = true →
  loginAttempts
    (Auth.login now draws
       {| Auth.li_username := Some username; Auth.li_password := Some password |} st).2
  = (checkRateLimit now username (loginAttempts st)).2.
Proof.
  intros Hu Hp. rewrite login_present by done.
  destruct (checkRateLimit now username (loginAttempts st)) as [[] la]; simpl; [|done].
  destruct (select_user_by_username username (db st)) as [user|]; [|done].
  by destruct (bcrypt_compare password (Users.password_hash user)).
Qed.

(** The response is the throttling error exactly when the limiter denies. *)
Lemma login_throttled_iff now draws username password st :
  truthy_str username = true → truthy_str password = true →
  let r := (Auth.login now draws
              {| Auth.li_username := Some username; Auth.li_password := Some password |} st).1 in
  ((checkRateLimit now username (loginAttempts st)).1 = false → r = too_many_attempts)
  ∧ ((checkRateLimit now username (loginAttempts st)).1 = true →
     status r = 200 ∨ r = invalid_credentials).
Proof.
  intros Hu Hp. cbv zeta. rewrite login_present by done.
  destruct (checkRateLimit now username (loginAttempts st)) as [[] la]; simpl.
  - split; [done|intros _].
    destruct (select_user_by_username username (db st)) as [user|]; [|by right].
    destruct (bcrypt_compare password (Users.password_hash user)); [by left|by right].
  - split; [done|done].
Qed.

(** A run of logins drives the limiter like a run of bare attempts. *)
Lemma logins_attempts username (calls : list (Z * Auth.Draws * string)) : ∀ st,
  truthy_str username = true →
  Forall (λ c, truthy_str c.2 = true) calls →
  loginAttempts (logins username calls st).2
  = (attempts username (map (λ c, c.1.1) calls) (loginAttempts st)).2
  ∧ Forall2 (λ r ok, if ok : bool then status r = 200 ∨ r = invalid_credentials
                     else r = too_many_attempts)
      (logins username calls st).1
      (attempts username (map (λ c, c.1.1) calls) (loginAttempts st)).1.
Proof.
  induction calls as [|[[now draws] password] calls IH]; intros st Hu Hall.
  - simpl. split; [done|constructor].
  - apply Forall_cons in Hall as [Hp Hall]. simpl in Hp. simpl.
    pose proof (login_counts now draws username password st Hu Hp) as Hcount.
    pose proof (login_throttled_iff now draws username password st Hu Hp) as Hresp.
    cbv zeta in Hresp.
    destruct (Auth.login now draws _ st) as [r st1]. simpl in *.
    destruct (checkRateLimit now username (loginAttempts st)) as [ok m1]. simpl in *.
    specialize (IH st1 Hu Hall). rewrite Hcount in IH. destruct IH as [IH1 IH2].
    destruct (logins username calls st1) as [rs st2].
    destruct (attempts username (map (λ c, c.1.1) calls) m1) as [oks m2]. simpl in *.
    split; [done|]. constructor; [|done].
    destruct ok; [apply Hresp; done|apply Hresp; done].
Qed.

End Login.

Lemma allowed_prefix_lookup (a b i : nat) (ok : bool) :
  (true :: replicate a true ++ replicate b false) !! i = Some ok →
  (a ≤ 4)%nat → (0 < b → a = 4)%nat →
  ok = bool_decide (i < 5)%nat.
Proof.
  intros Hi Ha Hb. destruct i as [|j]; simpl in Hi.
  - injection Hi as <-. by rewrite bool_decide_eq_true_2 by lia.
  - destruct (decide (j < a)%nat) as [Hlt|Hge].
    + rewrite lookup_app_l in Hi by (by rewrite length_replicate).
      apply lookup_replicate in Hi as [-> _].
      by rewrite bool_decide_eq_true_2 by lia.
    + rewrite lookup_app_r in Hi by (rewrite length_replicate; lia).
      apply lookup_replicate in Hi as [-> Hj]. rewrite length_replicate in Hj.
      rewrite bool_decide_eq_false_2; [done|]. lia.
Qed.

Section LoginClaims.
Context `{Runtime}.

(** C9. Every [/login] call that passes the missing-fields check is
    counted by the rate limiter, whatever the outcome of the credential
    check, and a successful login leaves the counter as the limiter set
    it.  So in a run of calls for one username that starts on a free
    window and stays inside it, the first five are answered on their
    credentials (200 or the 401 of invalid credentials) and every call
    from the sixth on is answered 429, also when the five before it were
    successful. *)
Theorem login_sixth_call_throttled (username : string) (st : Server)
    (t0 : Z) (dr0 : Auth.Draws) (pw0 : string) (calls : list (Z * Auth.Draws * string)) :
  truthy_str username = true →
  Forall (λ c, truthy_str c.2 = true) ((t0, dr0, pw0) :: calls) →
  window_free username t0 (loginAttempts st) →
  Forall (λ c, c.1.1 - t0 ≤ 15 * 60 * 1000) calls →
  (∀ now draws password st',
     truthy_str password = true →
     loginAttempts
       (Auth.login now draws
          {| Auth.li_username := Some username; Auth.li_password := Some password |} st').2
     = (checkRateLimit now username (loginAttempts st')).2)
  ∧ (∀ (i : nat) (r : Response),
       (logins username ((t0, dr0, pw0) :: calls) st).1 !! i = Some r →
       if decide (i < 5)%nat
       then status r = 200 ∨ r = invalid_credentials
       else r = too_many_attempts).
Proof.
  intros Hu Hpw Hfree Hin.
  split; [intros; by apply login_counts|].
  intros i r Hi.
  destruct (logins_attempts username ((t0, dr0, pw0) :: calls) st Hu Hpw) as [_ Hrs].
  destruct (Forall2_lookup_l _ _ _ _ _ Hrs Hi) as (ok & Hok & Hr).
  assert (ok = bool_decide (i < 5)%nat) as ->.
  { cbn [map fst snd attempts] in Hok.
    rewrite checkRateLimit_free in Hok by done.
    destruct (attempts_within username t0 (map (λ c, c.1.1) calls)
                (<[username := {| count := 1; timestamp := t0 |}]> (loginAttempts st)) 1)
      as [Hoks _]; [by rewrite lookup_insert_eq|lia| |].
    { by apply Forall_map. }
    destruct (attempts username (map (λ c, c.1.1) calls) _) as [oks m2].
    cbn [fst snd] in Hoks, Hok. subst oks.
    eapply allowed_prefix_lookup; [exact Hok| |]; lia. }
  case_decide.
  - by rewrite bool_decide_eq_true_2 in Hr.
  - by rewrite bool_decide_eq_false_2 in Hr.
Qed.

(** With a password that is a string, both fields present and the limiter
    allowing the call, a login for a username that matches no user and a
    login with a password that fails against an existing user's hash get
    the same response, status 401 with body
    [{error: "Invalid credentials"}], and neither changes the store. *)
Theorem login_failures_indistinguishable
    (now1 now2 : Z) (draws1 draws2 : Auth.Draws)
    (username1 password1 username2 password2 : string) (st1 st2 : Server)
    (user : Users.row) :
  truthy_str username1 = true → truthy_str password1 = true →
  truthy_str username2 = true → truthy_str password2 = true →
  (checkRateLimit now1 username1 (loginAttempts st1)).1 = true →
  (checkRateLimit now2 username2 (loginAttempts st2)).1 = true →
  select_user_by_username username1 (db st1) = None →
  select_user_by_username username2 (db st2) = Some user →
  bcrypt_compare password2 (Users.password_hash user) = false →
  let unknown_user :=
    Auth.login now1 draws1
      {| Auth.li_username := Some username1; Auth.li_password := Some password1 |} st1 in
  let wrong_password :=
    Auth.login now2 draws2
      {| Auth.li_username := Some username2; Auth.li_password := Some password2 |} st2 in
  unknown_user.1 = wrong_password.1
  ∧ wrong_password.1 = {| status := 401; body := JObj [("error", JStr "Invalid credentials")] |}
  ∧ db unknown_user.2 = db st1
  ∧ db wrong_password.2 = db st2.
Proof.
  intros Hu1 Hp1 Hu2 Hp2 Hok1 Hok2 Hnone Hsome Hbad. cbv zeta.
  rewrite !login_present by done.
  destruct (checkRateLimit now1 username1 (loginAttempts st1)) as [ok1 la1].
  destruct (checkRateLimit now2 username2 (loginAttempts st2)) as [ok2 la2].
  simpl in Hok1, Hok2. subst ok1 ok2.
  rewrite Hnone, Hsome, Hbad. done.
Qed.

End LoginClaims.

(** Six successful logins of [alice] in six minutes: the first five are
    answered 200, the sixth 429. *)
Lemma login_sixth_call_throttled_witness :
  map status (logins (H := Reference.runtime) "alice" six_calls alice_server).1
  = [200; 200; 200; 200; 200; 429]
  ∧ (logins (H := Reference.runtime) "alice" six_calls alice_server).1 !! 5%nat
    = Some too_many_attempts.
Proof.
  split; [vm_compute; reflexivity|].
  destruct ((logins (H := Reference.runtime) "alice" six_calls alice_server).1 !! 5%nat)
    as [r|] eqn:Hr; [|vm_compute in Hr; discriminate Hr].
  f_equal.
  refine (proj2 (login_sixth_call_throttled (H := Reference.runtime) "alice" alice_server
                   60000 sample_draws "Valid123" (tail six_calls) _ _ _ _) 5%nat r Hr).
  - reflexivity.
  - repeat constructor.
  - exact I.
  - repeat constructor; simpl; lia.
Defined.

(** [bob] is unknown and [alice]'s password is not "wrong": both logins
    get the same 401. *)
Lemma login_failures_indistinguishable_witness :
  (Auth.login (H := Reference.runtime) 1000 sample_draws
     {| Auth.li_username := Some "bob"; Auth.li_password := Some "Valid123" |}
     alice_server).1
  = (Auth.login (H := Reference.runtime) 2000 sample_draws
       {| Auth.li_username := Some "ALICE"; Auth.li_password := Some "wrong" |}
       alice_server).1.
Proof.
  destruct (select_user_by_username "ALICE" (db alice_server)) as [user|] eqn:Huser;
    [|vm_compute in Huser; discriminate Huser].
  refine (proj1 (login_failures_indistinguishable (H := Reference.runtime)
                   1000 2000 sample_draws sample_draws "bob" "Valid123" "ALICE" "wrong"
                   alice_server alice_server user _ _ _ _ _ _ _ Huser _));
    try reflexivity.
  vm_compute in Huser. injection Huser as <-. vm_compute. reflexivity.
Defined.

(* ================================================================== *)
(** * The matcher decides the language *)
(* ================================================================== *)

Section Matcher.
Import Regex.

Lemma append_nil_l (s : string) : "" +:+ s = s.
Proof. reflexivity. Qed.

Lemma append_cons c (s t : string) : String c s +:+ t = String c (s +:+ t).
Proof. reflexivity. Qed.

Lemma append_nil_r (s : string) : s +:+ "" = s.
Proof. induction s as [|c s IH]; [done|]. by rewrite append_cons, IH. Qed.

Lemma append_assoc (a b c : string) : (a +:+ b) +:+ c = a +:+ (b +:+ c).
Proof. induction a as [|x a IH]; [done|]. by rewrite !append_cons, IH. Qed.

Lemma append_eq_nil (a b : string) : a +:+ b = "" → a = "" ∧ b = "".
Proof. destruct a; [done|]. rewrite append_cons. discriminate. Qed.

Lemma append_eq_cons (a b : string) c s :
  a +:+ b = String c s →
  (a = "" ∧ b = String c s) ∨ (∃ a', a = String c a' ∧ s = a' +:+ b).
Proof.
  destruct a as [|c' a']; intros Heq; [by left|right].
  rewrite append_cons in Heq. injection Heq as -> <-. eauto.
Qed.

Lemma nullable_lang r : nullable r = true ↔ lang r "".
Proof.
  split.
  - induction r; simpl; intros Hn; try discriminate.
    + constructor.
    + apply andb_true_iff in Hn as [H1 H2].
      change "" with ("" +:+ ""). constructor; auto.
    + apply orb_true_iff in Hn as [H1|H2]; [apply lang_alt_l|apply lang_alt_r]; auto.
    + constructor.
  - intros Hl. remember "" as w eqn:Hw. induction Hl; simpl; try done.
    + apply append_eq_nil in Hw as [-> ->]. rewrite IHHl1, IHHl2; done.
    + rewrite IHHl; done.
    + rewrite IHHl; [apply orb_true_r|done].
Qed.

Lemma deriv_sound c r : ∀ s, lang (deriv c r) s → lang r (String c s).
Proof.
  induction r; simpl; intros s Hl.
  - inversion Hl.
  - inversion Hl.
  - destruct (p c) eqn:Hp; inversion Hl; subst. by constructor.
  - destruct (nullable r1) eqn:Hn.
    + inversion Hl as [| |? ? ? ? | ? ? ? Hcat | ? ? ? Hr2 | |]; subst.
      * inversion Hcat; subst.
        change (String c (s1 +:+ s2)) with (String c s1 +:+ s2). constructor; auto.
      * change (String c s) with ("" +:+ String c s).
        constructor; [by apply nullable_lang|auto].
    + inversion Hl; subst.
      change (String c (s1 +:+ s2)) with (String c s1 +:+ s2). constructor; auto.
  - inversion Hl; subst; [apply lang_alt_l|apply lang_alt_r]; auto.
  - inversion Hl; subst.
    change (String c (s1 +:+ s2)) with (String c s1 +:+ s2). constructor; auto.
Qed.

Lemma deriv_complete c r w : lang r w → ∀ s, w = String c s → lang (deriv c r) s.
Proof.
  induction 1 as [|p c' Hp|r1 r2 s1 s2 H1 IH1 H2 IH2|r1 r2 s0 H1 IH1|r1 r2 s0 H2 IH2
                 |r0|r0 s1 s2 H1 IH1 H2 IH2]; intros s Hw; simpl.
  - discriminate.
  - injection Hw as -> <-. rewrite Hp. constructor.
  - apply append_eq_cons in Hw as [[-> ->]|(a' & -> & ->)].
    + apply nullable_lang in H1. rewrite H1. apply lang_alt_r. by apply IH2.
    + destruct (nullable r1); [apply lang_alt_l|]; constructor; auto.
  - apply lang_alt_l. auto.
  - apply lang_alt_r. auto.
  - discriminate.
  - apply append_eq_cons in Hw as [[-> ->]|(a' & -> & ->)].
    + by apply IH2.
    + constructor; auto.
Qed.

Lemma matches_lang s : ∀ r, matches r s = true ↔ lang r s.
Proof.
  induction s as [|c s IH]; intros r; simpl.
  - apply nullable_lang.
  - rewrite IH. split; [apply deriv_sound|].
    intros Hl. by eapply deriv_complete.
Qed.

Lemma lang_star_class p s : lang (Star (Class p)) s ↔ every p s = true.
Proof.
  split.
  - intros Hl. remember (Star (Class p)) as r eqn:Hr.
    induction Hl; try discriminate; [done|].
    injection Hr as ->. inversion Hl1; subst.
    rewrite append_cons, append_nil_l. simpl.
    rewrite IHHl2 by done. by rewrite andb_true_r.
  - induction s as [|c s IH]; simpl; intros Hall; [constructor|].
    apply andb_true_iff in Hall as [Hc Hs].
    change (String c s) with (String c "" +:+ s).
    constructor; [by constructor|auto].
Qed.

Lemma lang_plus_class p s :
  lang (Plus (Class p)) s ↔ s ≠ "" ∧ every p s = true.
Proof.
  unfold Plus. split.
  - intros Hl. inversion Hl as [| |? ? s1 s2 H1 H2| | | |]; subst.
    inversion H1; subst. apply lang_star_class in H2.
    rewrite append_cons, append_nil_l. simpl.
    split; [discriminate|]. by rewrite H2, andb_true_r.
  - intros [Hne Hall]. destruct s as [|c s]; [done|]. simpl in Hall.
    apply andb_true_iff in Hall as [Hc Hs].
    change (String c s) with (String c "" +:+ s).
    constructor; [by constructor|by apply lang_star_class].
Qed.

Lemma every_true s : every (λ _, true) s = true.
Proof. induction s; simpl; auto. Qed.

Lemma some_split p s :
  some p s = true ↔ ∃ s1 c s2, s = s1 +:+ String c s2 ∧ p c = true.
Proof.
  split.
  - induction s as [|c s IH]; simpl; [discriminate|].
    destruct (p c) eqn:Hp; simpl.
    + intros _. by exists "", c, s.
    + intros Hs. destruct (IH Hs) as (s1 & c' & s2 & -> & Hc).
      by exists (String c s1), c', s2.
  - intros (s1 & c & s2 & -> & Hc). induction s1 as [|c1 s1 IH].
    + rewrite append_nil_l. simpl. by rewrite Hc.
    + rewrite append_cons. simpl. rewrite IH. apply orb_true_r.
Qed.

(** [/[class]/.test(s)]: some character of [s] is in the class. *)
Lemma test_class p s : test (Class p) s = some p s.
Proof.
  apply eq_true_iff_eq. unfold test. rewrite matches_lang, some_split. split.
  - intros Hl. inversion Hl as [| |? ? s1 s2 H1 H2| | | |]; subst.
    inversion H2 as [| |? ? s3 s4 H3 H4| | | |]; subst.
    inversion H3; subst. by exists s1, c, s4.
  - intros (s1 & c & s2 & -> & Hc).
    constructor; [apply lang_star_class, every_true|].
    change (String c s2) with (String c "" +:+ s2).
    constructor; [by constructor|apply lang_star_class, every_true].
Qed.

(** [/^[class]+$/.test(s)]: [s] is not empty and all of it is in the class. *)
Lemma test_anchored_plus p s :
  test_anchored (Plus (Class p)) s = true ↔ s ≠ "" ∧ every p s = true.
Proof. unfold test_anchored. by rewrite matches_lang, lang_plus_class. Qed.

(** [emailRegex.test(s)]: [s] has the shape [local@domain.tld]. *)
Lemma test_emailRegex s :
  test_anchored Auth.emailRegex s = true ↔ email_shape s.
Proof.
  unfold test_anchored, Auth.emailRegex, email_shape, address_part.
  rewrite matches_lang. split.
  - intros Hl.
    inversion Hl as [| |? ? loc s2 Hloc H2| | | |]; subst.
    inversion H2 as [| |? ? at_ s3 Hat H3| | | |]; subst.
    inversion H3 as [| |? ? domain s4 Hdom H4| | | |]; subst.
    inversion H4 as [| |? ? dot tld Hdot Htld| | | |]; subst.
    inversion Hat as [|? c1 Hc1| | | | |]; subst.
    inversion Hdot as [|? c2 Hc2| | | | |]; subst.
    apply Ascii.eqb_eq in Hc1, Hc2. subst c1 c2.
    apply lang_plus_class in Hloc, Hdom, Htld.
    by exists loc, domain, tld.
  - intros (loc & domain & tld & -> & Hloc & Hdom & Htld).
    constructor; [by apply lang_plus_class|].
    change ("@" +:+ domain +:+ "." +:+ tld) with (String "@" "" +:+ (domain +:+ "." +:+ tld)).
    constructor; [by constructor|].
    constructor; [by apply lang_plus_class|].
    change ("." +:+ tld) with (String "." "" +:+ tld).
    constructor; [by constructor|by apply lang_plus_class].
Qed.

End Matcher.

(* ================================================================== *)
(** * Properties of [/signup] *)
(* ================================================================== *)

Section Signup.
Context `{Runtime}.
Implicit Types (req : Auth.SignupBody) (d : Db).

Lemma truthy_str_false (s : string) : truthy_str s = false ↔ s = "".
Proof. destruct s; simpl; split; congruence. Qed.

(** The presence check. *)
Lemma signup_missing now draws req d :
  ¬ rule_holds FieldsPresent req →
  Auth.signup now draws req d = (rule_error FieldsPresent, d).
Proof.
  intros Hno. unfold Auth.signup.
  destruct req as [[u|] [p|] [n|] [e|]]; simpl in *; try done.
  destruct (truthy_str u) eqn:Hu; [|done].
  destruct (truthy_str p) eqn:Hp; [|done].
  destruct (truthy_str n) eqn:Hn; [|done].
  destruct (truthy_str e) eqn:He; [|done].
  exfalso. apply Hno. rewrite <- !truthy_str_true. done.
Qed.

(** A failing test answers with the error of its rule. *)
Lemma signup_failed_check now draws req d r :
  rule_holds FieldsPresent req →
  failed_check (field (Auth.su_username req)) (field (Auth.su_password req))
    (field (Auth.su_email req)) = Some r →
  Auth.signup now draws req d = (rule_error r, d).
Proof.
  intros (Hu & Hp & Hn & He). unfold Auth.signup, failed_check.
  destruct req as [[u|] [p|] [n|] [e|]]; simpl in *; try done.
  apply truthy_str_true in Hu, Hp, Hn, He. rewrite Hu, Hp, Hn, He. simpl.
  repeat (match goal with
          | |- context [if ?b then _ else _] => destruct b
          end; simpl; try (intros [= <-]; done)).
Qed.

(** With every test passed the route goes on to the duplicate checks and
    the insertion. *)
Lemma signup_passed now draws req d :
  rule_holds FieldsPresent req →
  failed_check (field (Auth.su_username req)) (field (Auth.su_password req))
    (field (Auth.su_email req)) = None →
  let username := field (Auth.su_username req) in
  let email := field (Auth.su_email req) in
  let out := Auth.signup now draws req d in
  match select_user_by_username username d with
  | Some _ => out = ({| status := 409; body := error_body "Username already exists" |}, d)
  | None =>
      match select_user_by_email email d with
      | Some _ => out = ({| status := 409; body := error_body "Email already registered" |}, d)
      | None =>
          out = ({| status := 500; body := error_body "Signup failed" |}, d)
          ∨ (status out.1 = 201
             ∧ jget "user" (body out.1)
               = Some (Auth.user_response (generateUUID (Auth.uuid_seed draws)) username
                         (field (Auth.su_name req)) (Some email))
             ∧ ∃ row, users out.2 = users d ++ [row]
                      ∧ Users.id row = generateUUID (Auth.uuid_seed draws)
                      ∧ Users.username row = username
                      ∧ Users.password_hash row
                        = bcrypt_hash (field (Auth.su_password req)) 12 (Auth.salt_seed draws))
      end
  end.
Proof.
  intros (Hu & Hp & Hn & He). unfold Auth.signup, failed_check.
  destruct req as [[u|] [p|] [n|] [e|]]; simpl in *; try done.
  apply truthy_str_true in Hu, Hp, Hn, He. rewrite Hu, Hp, Hn, He. simpl.
  destruct (Regex.test_anchored Auth.emailRegex e); simpl; [|discriminate].
  destruct (String.length u <? 3)%nat; simpl; [discriminate|].
  destruct (Regex.test_anchored Auth.usernameRegex u); simpl; [|discriminate].
  destruct (String.length p <? 8)%nat; simpl; [discriminate|].
  destruct (Regex.test (Regex.Class Regex.is_lower) p); simpl; [|discriminate].
  destruct (Regex.test (Regex.Class Regex.is_upper) p); simpl; [|discriminate].
  destruct (Regex.test (Regex.Class Regex.is_digit) p); simpl; [|discriminate].
  intros _.
  destruct (select_user_by_username u d); [done|].
  destruct (select_user_by_email e d); [done|].
  unfold insert_user. destruct (existsb _ _); simpl; [by left|right].
  split; [done|]. split; [done|]. eexists; split; [reflexivity|done].
Qed.

(** The tests agree with the rules: the first rule that does not hold is
    the one whose test fails first. *)
Lemma failed_check_first req (pre post : list signup_rule) (r : signup_rule) :
  [EmailShape; UsernameLength; UsernameCharset; PasswordLength; PasswordCase; PasswordDigit]
  = pre ++ r :: post →
  Forall (λ r', rule_holds r' req) pre →
  ¬ rule_holds r req →
  failed_check (field (Auth.su_username req)) (field (Auth.su_password req))
    (field (Auth.su_email req)) = Some r.
Proof.
  intros Hsplit Hpre Hr. unfold failed_check.
  set (u := field (Auth.su_username req)) in *.
  set (p := field (Auth.su_password req)) in *.
  set (e := field (Auth.su_email req)) in *.
  assert (He : Regex.test_anchored Auth.emailRegex e = true ↔ rule_holds EmailShape req)
    by apply test_emailRegex.
  assert (Hul : (String.length u <? 3)%nat = false ↔ rule_holds UsernameLength req)
    by (simpl; fold u; rewrite Nat.ltb_ge; done).
  assert (Huc : Regex.test_anchored Auth.usernameRegex u = true
                ↔ rule_holds UsernameCharset req)
    by apply test_anchored_plus.
  assert (Hpl : (String.length p <? 8)%nat = false ↔ rule_holds PasswordLength req)
    by (simpl; fold p; rewrite Nat.ltb_ge; done).
  assert (Hpc : Regex.test (Regex.Class Regex.is_lower) p = true
                ∧ Regex.test (Regex.Class Regex.is_upper) p = true
                ↔ rule_holds PasswordCase req)
    by (simpl; fold p; rewrite !test_class; done).
  assert (Hpd : Regex.test (Regex.Class Regex.is_digit) p = true
                ↔ rule_holds PasswordDigit req)
    by (simpl; fold p; rewrite test_class; done).
  clearbody u p e.
  destruct (Regex.test_anchored Auth.emailRegex e),
           (String.length u <? 3)%nat,
           (Regex.test_anchored Auth.usernameRegex u),
           (String.length p <? 8)%nat,
           (Regex.test (Regex.Class Regex.is_lower) p),
           (Regex.test (Regex.Class Regex.is_upper) p),
           (Regex.test (Regex.Class Regex.is_digit) p); simpl;
    repeat (destruct pre as [|? pre]; simplify_eq/=);
    repeat match goal with
           | Hf : Forall _ (_ :: _) |- _ => apply Forall_cons in Hf as [? Hf]
           end;
    try done; try tauto; exfalso; intuition congruence.
Qed.

Lemma failed_check_none req :
  Forall (λ r, rule_holds r req) signup_rules →
  failed_check (field (Auth.su_username req)) (field (Auth.su_password req))
    (field (Auth.su_email req)) = None.
Proof.
  intros Hall. unfold signup_rules in Hall.
  repeat match goal with
         | Hf : Forall _ (_ :: _) |- _ => apply Forall_cons in Hf as [? Hf]
         end.
  unfold failed_check.
  match goal with He : rule_holds EmailShape _ |- _ => apply test_emailRegex in He; rewrite He end.
  match goal with He : rule_holds UsernameLength _ |- _ =>
    simpl in He; apply Nat.ltb_ge in He; rewrite He end.
  match goal with He : rule_holds UsernameCharset _ |- _ =>
    apply test_anchored_plus in He; unfold Auth.usernameRegex; rewrite He end.
  match goal with He : rule_holds PasswordLength _ |- _ =>
    simpl in He; apply Nat.ltb_ge in He; rewrite He end.
  rewrite !test_class.
  match goal with He : rule_holds PasswordCase _ |- _ =>
    simpl in He; destruct He as [-> ->] end.
  match goal with He : rule_holds PasswordDigit _ |- _ =>
    simpl in He; rewrite He end.
  done.
Qed.

End Signup.

Section Lookups.

Lemma find_is_Some {A} (f : A → bool) (l : list A) :
  is_Some (find f l) ↔ ∃ x, x ∈ l ∧ f x = true.
Proof.
  induction l as [|a l IH]; simpl.
  - split; [intros [? [=]]|intros (x & Hx & _); by apply elem_of_nil in Hx].
  - destruct (f a) eqn:Ha.
    + split; [intros _; exists a; split; [left|done]|eauto].
    + rewrite IH. split.
      * intros (x & Hx & Hfx). exists x. split; [by right|done].
      * intros (x & Hx & Hfx). apply elem_of_cons in Hx as [->|Hx]; [congruence|eauto].
Qed.

(** The duplicate checks compare case-insensitively. *)
Lemma select_user_by_username_is_Some uname d :
  is_Some (select_user_by_username uname d)
  ↔ ∃ u, u ∈ users d ∧ LOWER (Users.username u) = LOWER uname.
Proof.
  unfold select_user_by_username. rewrite find_is_Some.
  by setoid_rewrite String.eqb_eq.
Qed.

Lemma select_user_by_email_is_Some mail d :
  is_Some (select_user_by_email mail d)
  ↔ ∃ u e, u ∈ users d ∧ Users.email u = Some e ∧ LOWER e = LOWER mail.
Proof.
  unfold select_user_by_email. rewrite find_is_Some. split.
  - intros (u & Hu & Hm). destruct (Users.email u) as [e|] eqn:He; [|done].
    apply String.eqb_eq in Hm. eauto.
  - intros (u & e & Hu & He & Hm). exists u. split; [done|].
    rewrite He. by apply String.eqb_eq.
Qed.

End Lookups.

Section SignupClaims.
Context `{Runtime}.

(** On a body whose fields are strings, [/signup] validates fail-fast in
    the order: all four fields present, email shape, username length at least 3, username characters
    in [[A-Za-z0-9_-]], password length at least 8, password with a lower
    and an upper case letter, password with a digit.  The first rule that
    does not hold decides the 400 response and the store is left as it
    was; when all hold, the username and then the email are looked up
    case-insensitively, and a match answers 409.  "short1A",
    "alllowercase1" and "NoDigitsHere" are rejected by the length, case and
    digit rules, and "Valid123" passes. *)
Theorem signup_validation_order (now : Z) (draws : Auth.Draws)
    (req : Auth.SignupBody) (d : Db) :
  (∀ pre r post,
     signup_rules = pre ++ r :: post →
     Forall (λ r', rule_holds r' req) pre →
     ¬ rule_holds r req →
     Auth.signup now draws req d = (rule_error r, d))
  ∧ (Forall (λ r, rule_holds r req) signup_rules →
     let username := field (Auth.su_username req) in
     let email := field (Auth.su_email req) in
     ((∃ u, u ∈ users d ∧ LOWER (Users.username u) = LOWER username) →
      Auth.signup now draws req d
      = ({| status := 409; body := error_body "Username already exists" |}, d))
     ∧ (¬ (∃ u, u ∈ users d ∧ LOWER (Users.username u) = LOWER username) →
        (∃ u e, u ∈ users d ∧ Users.email u = Some e ∧ LOWER e = LOWER email) →
        Auth.signup now draws req d
        = ({| status := 409; body := error_body "Email already registered" |}, d))
     ∧ (¬ (∃ u, u ∈ users d ∧ LOWER (Users.username u) = LOWER username) →
        ¬ (∃ u e, u ∈ users d ∧ Users.email u = Some e ∧ LOWER e = LOWER email) →
        status (Auth.signup now draws req d).1 = 201
        ∨ status (Auth.signup now draws req d).1 = 500))
  ∧ Auth.signup now draws (with_password "short1A") d = (rule_error PasswordLength, d)
  ∧ Auth.signup now draws (with_password "alllowercase1") d = (rule_error PasswordCase, d)
  ∧ Auth.signup now draws (with_password "NoDigitsHere") d = (rule_error PasswordDigit, d)
  ∧ failed_check "alice" "Valid123" "alice@example.com" = None
  ∧ status (Auth.signup now draws (with_password "Valid123") initializeDatabase).1 = 201.
Proof.
  split.
  { intros pre r post Hsplit Hpre Hr. unfold signup_rules in Hsplit.
    destruct pre as [|r0 pre]; simplify_eq/=.
    - by apply signup_missing.
    - apply Forall_cons in Hpre as [Hpresent Hpre].
      apply signup_failed_check; [done|]. by eapply failed_check_first. }
  split.
  { intros Hall. cbv zeta.
    pose proof (Forall_inv Hall) as Hpresent.
    pose proof (signup_passed now draws req d Hpresent (failed_check_none req Hall)) as Hout.
    cbv zeta in Hout.
    rewrite <- select_user_by_username_is_Some, <- select_user_by_email_is_Some.
    destruct (select_user_by_username _ d) as [u|] eqn:Hu.
    { split; [done|]. split; intros Hno; exfalso; apply Hno; eauto. }
    destruct (select_user_by_email _ d) as [u|] eqn:He.
    { split; [by intros [? [=]]|]. split; [done|]. intros _ Hno. exfalso. apply Hno. eauto. }
    split; [by intros [? [=]]|]. split; [by intros _ [? [=]]|]. intros _ _.
    destruct Hout as [->|(Hst & _)]; [by right|by left]. }
  repeat split; vm_compute; reflexivity.
Qed.

End SignupClaims.

(** "short1A" passes the four rules before the length rule and fails it. *)
Lemma signup_validation_order_witness :
  Auth.signup (H := Reference.runtime) 0 sample_draws (with_password "short1A")
    initializeDatabase
  = (rule_error PasswordLength, initializeDatabase).
Proof.
  refine (proj1 (signup_validation_order (H := Reference.runtime) 0 sample_draws
                   (with_password "short1A") initializeDatabase)
            [FieldsPresent; EmailShape; UsernameLength; UsernameCharset] PasswordLength
            [PasswordCase; PasswordDigit] _ _ _).
  - reflexivity.
  - repeat constructor; try discriminate; simpl; try lia.
    exists "alice", "example", "com". repeat split; discriminate.
  - simpl. lia.
Defined.

(* ================================================================== *)
(** * The user payload and [/verify] *)
(* ================================================================== *)

Section UserPayload.
Context `{Runtime}.

Lemma user_response_keys uid uname nm mail :
  (keys (Auth.user_response uid uname nm mail) ⊆ public_user_keys)
  ∧ jget "password_hash" (Auth.user_response uid uname nm mail) = None.
Proof.
  unfold Auth.user_response, public_user_keys.
  destruct (or_null mail) as [m|]; simpl; (split; [|done]);
    intros k Hk; apply list_elem_of_In in Hk; apply list_elem_of_In;
    simpl in *; tauto.
Qed.

Lemma user_response_keys_email uid uname nm mail :
  truthy_str mail = true →
  keys (Auth.user_response uid uname nm (Some mail)) = public_user_keys.
Proof. intros Hm. unfold Auth.user_response. simpl. by rewrite Hm. Qed.

(** A username or an email that is taken is also taken up to case. *)
Lemma insert_user_fresh (r : Users.row) d mail :
  Users.email r = Some mail →
  Users.id r ∉ map Users.id (users d) →
  select_user_by_username (Users.username r) d = None →
  select_user_by_email mail d = None →
  ∃ d', insert_user r d = inr d'.
Proof.
  intros Hmail Hid Hu He. unfold insert_user.
  destruct (existsb _ (users d)) eqn:Hex; [|eauto].
  exfalso. apply existsb_exists in Hex as (u & Hin & Hu3).
  apply list_elem_of_In in Hin.
  apply orb_true_iff in Hu3 as [Hu2|Hmail'];
    [apply orb_true_iff in Hu2 as [Hid'|Hname]|].
  - apply String.eqb_eq in Hid'. apply Hid. rewrite <- Hid'.
    apply list_elem_of_In, in_map, list_elem_of_In. done.
  - apply String.eqb_eq in Hname.
    assert (is_Some (select_user_by_username (Users.username r) d)) as [? Hs];
      [|congruence].
    apply select_user_by_username_is_Some. exists u. by rewrite Hname.
  - rewrite Hmail in Hmail'. destruct (Users.email u) as [e|] eqn:Heu; [|done].
    apply String.eqb_eq in Hmail'.
    assert (is_Some (select_user_by_email mail d)) as [? Hs]; [|congruence].
    apply select_user_by_email_is_Some. exists u, e. by subst e.
Qed.

(** C8. The [user] object of a successful [/signup] response has exactly
    the properties [id], [username], [name] and [email], so no password
    hash; every input that passes the validation, meets no duplicate and
    draws a fresh identifier gets such a response.  The [user] object of
    a successful [/login] or [/verify] response has no property outside
    those four either. *)
Theorem user_payload_without_password_hash (now : Z) (draws : Auth.Draws)
    (sreq : Auth.SignupBody) (lreq : Auth.LoginBody) (vreq : Auth.VerifyRequest)
    (d : Db) (st : Server) :
  (status (Auth.signup now draws sreq d).1 = 201 →
   ∃ user, jget "user" (body (Auth.signup now draws sreq d).1) = Some user
           ∧ keys user = public_user_keys
           ∧ jget "password_hash" user = None)
  ∧ (Forall (λ r, rule_holds r sreq) signup_rules →
     select_user_by_username (field (Auth.su_username sreq)) d = None →
     select_user_by_email (field (Auth.su_email sreq)) d = None →
     generateUUID (Auth.uuid_seed draws) ∉ map Users.id (users d) →
     status (Auth.signup now draws sreq d).1 = 201)
  ∧ (status (Auth.login now draws lreq st).1 = 200 →
     ∃ user, jget "user" (body (Auth.login now draws lreq st).1) = Some user
             ∧ (keys user ⊆ public_user_keys)
             ∧ jget "password_hash" user = None)
  ∧ (status (Auth.verify vreq d) = 200 →
     ∃ user, jget "user" (body (Auth.verify vreq d)) = Some user
             ∧ (keys user ⊆ public_user_keys)
             ∧ jget "password_hash" user = None).
Proof.
  split; [|split; [|split]].
  - unfold Auth.signup.
    destruct sreq as [[u|] [p|] [n|] [e|]]; simpl; try discriminate.
    destruct (truthy_str e) eqn:He; [|rewrite !orb_true_r; discriminate].
    destruct (negb (truthy_str u) || negb (truthy_str p) || negb (truthy_str n) || negb true);
      simpl; [discriminate|].
    destruct (Regex.test_anchored Auth.emailRegex e); simpl; [|discriminate].
    destruct (String.length u <? 3)%nat; simpl; [discriminate|].
    destruct (Regex.test_anchored Auth.usernameRegex u); simpl; [|discriminate].
    destruct (String.length p <? 8)%nat; simpl; [discriminate|].
    destruct (Regex.test (Regex.Class Regex.is_lower) p); simpl; [|discriminate].
    destruct (Regex.test (Regex.Class Regex.is_upper) p); simpl; [|discriminate].
    destruct (Regex.test (Regex.Class Regex.is_digit) p); simpl; [|discriminate].
    destruct (select_user_by_username u d); [discriminate|].
    destruct (select_user_by_email e d); [discriminate|].
    destruct (insert_user _ d); simpl; [discriminate|].
    intros _. eexists. split; [reflexivity|].
    split; [by apply user_response_keys_email|apply user_response_keys].
  - intros Hall Hu He Hid.
    pose proof (Forall_inv Hall) as Hpresent.
    pose proof (signup_passed now draws sreq d Hpresent (failed_check_none sreq Hall)) as Hout.
    cbv zeta in Hout. rewrite Hu, He in Hout.
    destruct Hout as [Hfail|[Hok _]]; [|done].
    exfalso. revert Hfail. unfold Auth.signup, failed_check.
    pose proof (failed_check_none sreq Hall) as Hnone. revert Hnone. unfold failed_check.
    destruct Hpresent as (Hu' & Hp' & Hn' & He').
    destruct sreq as [[u|] [p|] [n|] [e|]]; simpl in *; try done.
    apply truthy_str_true in Hu', Hp', Hn', He'. rewrite Hu', Hp', Hn', He'. simpl.
    destruct (Regex.test_anchored Auth.emailRegex e); simpl; [|discriminate].
    destruct (String.length u <? 3)%nat; simpl; [discriminate|].
    destruct (Regex.test_anchored Auth.usernameRegex u); simpl; [|discriminate].
    destruct (String.length p <? 8)%nat; simpl; [discriminate|].
    destruct (Regex.test (Regex.Class Regex.is_lower) p); simpl; [|discriminate].
    destruct (Regex.test (Regex.Class Regex.is_upper) p); simpl; [|discriminate].
    destruct (Regex.test (Regex.Class Regex.is_digit) p); simpl; [|discriminate].
    intros _. rewrite Hu, He.
    match goal with
    | |- context [insert_user ?r d] =>
        destruct (insert_user_fresh r d e) as [d' ->]; simpl; try done
    end.
  - unfold Auth.login.
    destruct lreq as [[u|] [p|]]; simpl; try discriminate.
    destruct (negb (truthy_str u) || negb (truthy_str p)); [discriminate|].
    destruct (checkRateLimit now u (loginAttempts st)) as [[] la]; simpl; [|discriminate].
    destruct (select_user_by_username u (db st)) as [user|]; [|discriminate].
    destruct (bcrypt_compare p (Users.password_hash user)); simpl; [|discriminate].
    intros _. eexists. split; [reflexivity|].
    split; apply user_response_keys.
  - unfold Auth.verify.
    destruct vreq as [[uid|] hdr]; simpl; [|discriminate].
    destruct (truthy_str uid); simpl; [|discriminate].
    destruct (select_user_by_id uid d) as [user|]; [|discriminate].
    intros _. eexists. split; [reflexivity|].
    split; apply user_response_keys.
Qed.

End UserPayload.

(** [alice]'s signup on a new database succeeds; its user object has the
    four public properties. *)
Lemma user_payload_without_password_hash_witness :
  ∃ user,
    jget "user"
      (body (Auth.signup (H := Reference.runtime) 0 sample_draws alice_signup
               initializeDatabase).1) = Some user
    ∧ keys user = public_user_keys
    ∧ jget "password_hash" user = None.
Proof.
  apply (proj1 (user_payload_without_password_hash (H := Reference.runtime) 0 sample_draws
                  alice_signup
                  {| Auth.li_username := None; Auth.li_password := None |}
                  {| Auth.vr_userId := None; Auth.vr_authorization := None |}
                  initializeDatabase alice_server)).
  vm_compute. reflexivity.
Defined.

Section Verify.

(** In a table with a primary key, the row of a key is the one [find]
    meets first. *)
Lemma find_unique {A} (key : A → string) (l : list A) (x : A) :
  NoDup (map key l) → x ∈ l →
  find (λ y, String.eqb (key y) (key x)) l = Some x.
Proof.
  induction l as [|a l IH]; intros Hnd Hx; [by apply elem_of_nil in Hx|].
  simpl in *. apply NoDup_cons in Hnd as [Ha Hnd].
  apply elem_of_cons in Hx as [->|Hx]; [by rewrite String.eqb_refl|].
  destruct (String.eqb_spec (key a) (key x)) as [Heq|_]; [|auto].
  exfalso. apply Ha. rewrite Heq. apply list_elem_of_In, in_map, list_elem_of_In. done.
Qed.

Lemma find_forget_token uid (l : list Users.row) :
  find (λ u, String.eqb (Users.id u) uid) (map forget_token l)
  = forget_token <$> find (λ u, String.eqb (Users.id u) uid) l.
Proof.
  induction l as [|a l IH]; simpl; [done|].
  by destruct (String.eqb (Users.id a) uid).
Qed.

(** The [UserResponse] literal built from a row is the projection of the
    row. *)
Lemma user_response_projection (u : Users.row) :
  Auth.user_response (Users.id u) (Users.username u) (Users.name u) (Users.email u)
  = public_projection u.
Proof.
  unfold Auth.user_response, public_projection.
  destruct (Users.email u) as [e|]; simpl; [|done]. by destruct (truthy_str e).
Qed.

(** The outcome of [/verify] for a present identifier is read off the
    matching row, whatever the header. *)
Lemma verify_present userId header d :
  truthy_str userId = true →
  Auth.verify {| Auth.vr_userId := Some userId; Auth.vr_authorization := header |} d
  = match select_user_by_id userId d with
    | Some u => {| status := 200; body := JObj [("user", public_projection u)] |}
    | None => {| status := 401; body := error_body "User not found" |}
    end.
Proof.
  intros Hu. unfold Auth.verify. simpl. rewrite Hu. simpl.
  destruct (select_user_by_id userId d) as [u|]; [|done].
  by rewrite user_response_projection.
Qed.

(** C7. For an identifier that passes the presence check, [/verify]
    answers 200 exactly when a user with that identifier exists, then with
    the public projection of that user, and 401 "User not found"
    otherwise; an absent or empty identifier is answered 400.  The answer
    is the same for every [Authorization] header and for every store that
    differs only in the users' tokens and token expiries.  The projection
    is the object of the row's [id], [username] and [name], with its
    [email] when that is not empty, and of nothing else: no password hash,
    no token and no expiry can be read out of it. *)
Theorem verify_by_identifier_only (userId : string) (header header' : option string)
    (d d' : Db) :
  truthy_str userId = true →
  let req := {| Auth.vr_userId := Some userId; Auth.vr_authorization := header |} in
  let req' := {| Auth.vr_userId := Some userId; Auth.vr_authorization := header' |} in
  (status (Auth.verify req d) = 200 ↔ ∃ u, u ∈ users d ∧ Users.id u = userId)
  ∧ (∀ u, NoDup (map Users.id (users d)) → u ∈ users d → Users.id u = userId →
       Auth.verify req d
       = {| status := 200; body := JObj [("user", public_projection u)] |})
  ∧ ((¬ ∃ u, u ∈ users d ∧ Users.id u = userId) →
     Auth.verify req d = {| status := 401; body := error_body "User not found" |})
  ∧ (map forget_token (users d') = map forget_token (users d) →
     Auth.verify req' d' = Auth.verify req d)
  ∧ Auth.verify {| Auth.vr_userId := None; Auth.vr_authorization := header |} d
    = {| status := 400; body := error_body "Missing userId" |}
  ∧ Auth.verify {| Auth.vr_userId := Some ""; Auth.vr_authorization := header |} d
    = {| status := 400; body := error_body "Missing userId" |}
  ∧ (∀ u, NoDup (map Users.id (users d)) → u ∈ users d → Users.id u = userId →
       Auth.verify req d
       = {| status := 200;
            body := JObj [("user",
                           JObj ([("id", JStr (Users.id u));
                                  ("username", JStr (Users.username u));
                                  ("name", JStr (Users.name u))]
                                 ++ match Users.email u with
                                    | Some e => if truthy_str e then [("email", JStr e)] else []
                                    | None => []
                                    end))] |}
       ∧ (jget "user" (body (Auth.verify req d)) ≫= jget "id") = Some (JStr (Users.id u))
       ∧ (jget "user" (body (Auth.verify req d)) ≫= jget "username")
         = Some (JStr (Users.username u))
       ∧ (jget "user" (body (Auth.verify req d)) ≫= jget "name")
         = Some (JStr (Users.name u))
       ∧ (jget "user" (body (Auth.verify req d)) ≫= jget "email")
         = match Users.email u with
           | Some e => if truthy_str e then Some (JStr e) else None
           | None => None
           end
       ∧ (jget "user" (body (Auth.verify req d)) ≫= jget "password_hash") = None
       ∧ (jget "user" (body (Auth.verify req d)) ≫= jget "auth_token") = None
       ∧ (jget "user" (body (Auth.verify req d)) ≫= jget "token_expiry") = None).
Proof.
  intros Hu. cbv zeta. rewrite !verify_present by done.
  assert (Hsome : is_Some (select_user_by_id userId d)
                  ↔ ∃ u, u ∈ users d ∧ Users.id u = userId).
  { unfold select_user_by_id. rewrite find_is_Some. by setoid_rewrite String.eqb_eq. }
  assert (Hreads : ∀ u, NoDup (map Users.id (users d)) → u ∈ users d → Users.id u = userId →
            select_user_by_id userId d = Some u).
  { intros u Hnd Hin <-. unfold select_user_by_id.
    by rewrite (find_unique Users.id (users d) u Hnd Hin). }
  refine (conj _ (conj _ (conj _ (conj _ (conj _ (conj _ _)))))).
  - split.
    + intros Hst. apply Hsome. by destruct (select_user_by_id userId d).
    + intros Hex. apply Hsome in Hex as [u ->]. done.
  - intros u Hnd Hin Hid. by rewrite (Hreads u Hnd Hin Hid).
  - intros Hno. destruct (select_user_by_id userId d) as [u|] eqn:Hsel; [|done].
    exfalso. apply Hno, Hsome. eauto.
  - intros Heq.
    assert (Hsel : forget_token <$> select_user_by_id userId d'
                   = forget_token <$> select_user_by_id userId d).
    { unfold select_user_by_id. by rewrite <- !find_forget_token, Heq. }
    destruct (select_user_by_id userId d') as [u'|], (select_user_by_id userId d) as [u|];
      simpl in Hsel; try done.
    injection Hsel as Hid Hname Hhash Hnm Hmail _ _ _.
    unfold public_projection. by rewrite Hid, Hname, Hnm, Hmail.
  - reflexivity.
  - reflexivity.
  - intros u Hnd Hin Hid. rewrite (Hreads u Hnd Hin Hid). unfold public_projection.
    cbn [body jget]. split; [done|].
    destruct (Users.email u) as [e|]; [destruct (truthy_str e)|]; repeat split.
Qed.

End Verify.

(** [alice] verifies the same after a logout has cleared her token, and
    with or without a header. *)
Lemma verify_by_identifier_only_witness :
  Auth.verify {| Auth.vr_userId := Some alice_id; Auth.vr_authorization := Some "Bearer 00" |}
    (update_user_logout alice_id (db alice_server))
  = Auth.verify {| Auth.vr_userId := Some alice_id; Auth.vr_authorization := None |}
      (db alice_server).
Proof.
  refine (proj1 (proj2 (proj2 (proj2
            (verify_by_identifier_only alice_id None (Some "Bearer 00") (db alice_server)
               (update_user_logout alice_id (db alice_server)) _)))) _).
  - reflexivity.
  - vm_compute. reflexivity.
Defined.

(* ================================================================== *)
(** * Properties of the message store *)
(* ================================================================== *)

Section MessageStore.
Context `{Runtime}.
Implicit Types (d : Db) (r : Messages.row) (req : History.MessageBody).

Lemma truthy_ostr_field (x : option string) :
  truthy_ostr x = true → x = Some (field x) ∧ truthy_str (field x) = true.
Proof. destruct x as [s|]; simpl; [done|discriminate]. Qed.

(** The only error of the model's [INSERT] is the constraint violation. *)
Lemma insert_message_inl r d c : insert_message r d = inl c → c = SQLITE_CONSTRAINT.
Proof. unfold insert_message. destruct (_ || _); [by intros [= <-]|discriminate]. Qed.

(** [/message] with the required fields: the write, the bump of the
    session, and the 201 response. *)
Lemma saveMessage_valid now seed req d :
  valid_message req →
  let values := saved_values now seed req in
  let d1 := match insert_message values d with
            | inr d1 => d1
            | inl _ => update_message values d
            end in
  History.saveMessage now seed req d
  = ({| status := 201;
        body := JObj [("message",
          JObj ([("id", JStr (Messages.id values));
                 ("session_id", JStr (Messages.session_id values));
                 ("role", JStr (Messages.role values));
                 ("content", JStr (Messages.content values))]
                ++ prop "image_url" (JStr <$> History.mb_imageUrl req)
                ++ prop "extracted_symptoms" (JStr <$> Messages.extracted_symptoms values)
                ++ prop "grounding_sources" (JStr <$> Messages.grounding_sources values)
                ++ prop "analysis_results" (JStr <$> Messages.analysis_results values)
                ++ [("timestamp", JStr (Messages.timestamp values))]))] |},
     update_session_updated_at (toISOString now) (Messages.session_id values) d1).
Proof.
  intros (Hs & Hr & Hc). cbv zeta.
  apply truthy_ostr_field in Hs as [Hs Hs'], Hr as [Hr Hr'], Hc as [Hc Hc'].
  unfold History.saveMessage. rewrite Hs, Hr, Hc. cbn [field default].
  rewrite Hs', Hr', Hc'. cbn [negb orb].
  fold (saved_id seed req).
  change {| Messages.id := saved_id seed req;
            Messages.session_id := field (History.mb_sessionId req);
            Messages.role := field (History.mb_role req);
            Messages.content := field (History.mb_content req);
            Messages.image_url := or_null (History.mb_imageUrl req);
            Messages.extracted_symptoms :=
              History.stringify_field (History.mb_extractedSymptoms req);
            Messages.grounding_sources :=
              History.stringify_field (History.mb_groundingSources req);
            Messages.analysis_results :=
              History.stringify_field (History.mb_analysisResults req);
            Messages.timestamp := toISOString now |}
    with (saved_values now seed req).
  destruct (insert_message (saved_values now seed req) d) as [c|d1] eqn:Hins; [|done].
  apply insert_message_inl in Hins as ->. done.
Qed.

Lemma update_message_messages r d :
  messages (update_message r d)
  = map (λ m, if String.eqb (Messages.id m) (Messages.id r) then overwritten m r else m)
      (messages d).
Proof. reflexivity. Qed.

Lemma update_message_ids r d :
  map Messages.id (messages (update_message r d)) = map Messages.id (messages d).
Proof.
  rewrite update_message_messages, map_map. apply map_ext.
  intros m. by destruct (String.eqb _ _).
Qed.

Lemma existsb_id_in r (l : list Messages.row) :
  existsb (λ m, String.eqb (Messages.id m) (Messages.id r)) l = true
  ↔ Messages.id r ∈ map Messages.id l.
Proof.
  rewrite existsb_exists, list_elem_of_In, in_map_iff.
  split; intros (m & H1 & H2); exists m.
  - apply String.eqb_eq in H2. done.
  - split; [done|]. apply String.eqb_eq. tauto.
Qed.

(** The write of [/message] keeps the identifiers of [messages] distinct. *)
Lemma written_ids_NoDup r d :
  NoDup (map Messages.id (messages d)) →
  NoDup (map Messages.id
           (messages match insert_message r d with
                     | inr d1 => d1
                     | inl _ => update_message r d
                     end)).
Proof.
  intros Hnd. destruct (insert_message r d) as [c|d1] eqn:Hins.
  - by rewrite update_message_ids.
  - unfold insert_message in Hins.
    destruct (existsb _ (messages d)) eqn:Hex; [discriminate|].
    destruct (foreign_keys d && _); [discriminate|].
    cbn [orb] in Hins. injection Hins as <-. cbn [messages].
    rewrite map_app. apply NoDup_app. split; [done|].
    split; [|apply NoDup_singleton].
    intros x Hx Hx'. apply list_elem_of_singleton in Hx'. subst x.
    apply existsb_id_in in Hx. congruence.
Qed.

(** In a table with a primary key, the rows of one key are one row. *)
Lemma filter_unique {A} (key : A → string) (l : list A) (x : A) :
  NoDup (map key l) → x ∈ l → filter (λ y, key y = key x) l = [x].
Proof.
  induction l as [|a l IH]; intros Hnd Hx; [by apply elem_of_nil in Hx|].
  simpl in Hnd. apply NoDup_cons in Hnd as [Ha Hnd].
  assert (Hnone : ∀ y, y ∈ l → key y = key a → False).
  { intros y Hy Heq. apply Ha. rewrite <- Heq.
    apply list_elem_of_In, in_map, list_elem_of_In. done. }
  apply elem_of_cons in Hx as [->|Hx].
  - rewrite filter_cons_True by done. f_equal.
    destruct (filter (λ y, key y = key a) l) as [|y ys] eqn:Hf; [done|].
    exfalso. assert (Hy : y ∈ filter (λ y, key y = key a) l) by (rewrite Hf; left).
    apply list_elem_of_filter in Hy as [Hk Hy]. eauto.
  - rewrite filter_cons_False; [by apply IH|].
    intros Heq. eapply Hnone; [exact Hx|done].
Qed.

(** Writing under an identifier that is taken overwrites that row and no
    other. *)
Lemma written_existing r d old :
  NoDup (map Messages.id (messages d)) →
  old ∈ messages d → Messages.id old = Messages.id r →
  let d1 := match insert_message r d with
            | inr d1 => d1
            | inl _ => update_message r d
            end in
  d1 = update_message r d
  ∧ filter (λ m, Messages.id m = Messages.id r) (messages d1) = [overwritten old r]
  ∧ length (messages d1) = length (messages d)
  ∧ (∀ m, Messages.id m ≠ Messages.id r → m ∈ messages d1 ↔ m ∈ messages d).
Proof.
  intros Hnd Hold Hid. cbv zeta.
  assert (Hex : existsb (λ m, String.eqb (Messages.id m) (Messages.id r)) (messages d) = true).
  { apply existsb_id_in. rewrite <- Hid.
    apply list_elem_of_In, in_map, list_elem_of_In. done. }
  unfold insert_message. rewrite Hex. cbn [orb].
  split; [done|]. rewrite update_message_messages.
  split; [|split].
  - pose proof (filter_unique Messages.id (messages d) old Hnd Hold) as Hf.
    rewrite Hid in Hf.
    assert (Hmap : ∀ l,
      filter (λ m, Messages.id m = Messages.id r)
        (map (λ m, if String.eqb (Messages.id m) (Messages.id r)
                   then overwritten m r else m) l)
      = map (λ m, overwritten m r) (filter (λ m, Messages.id m = Messages.id r) l)).
    { induction l as [|a l IH]; [done|]. cbn [map].
      destruct (String.eqb_spec (Messages.id a) (Messages.id r)) as [Ha|Ha].
      - rewrite !filter_cons_True by done. cbn [map]. by rewrite IH.
      - rewrite !filter_cons_False by done. done. }
    by rewrite Hmap, Hf.
  - by rewrite length_map.
  - intros m Hm. rewrite !list_elem_of_In, in_map_iff. split.
    + intros (a & Ha & Hin). destruct (String.eqb_spec (Messages.id a) (Messages.id r)).
      * subst m. simpl in Hm. done.
      * by subst a.
    + intros Hin. exists m. split; [|done].
      destruct (String.eqb_spec (Messages.id m) (Messages.id r)); [done|done].
Qed.

End MessageStore.

(* ================================================================== *)
(** * Properties of the listings *)
(* ================================================================== *)

Section Listings.
Context `{Runtime}.
Implicit Types (d : Db) (r : Messages.row) (req : History.MessageBody).

Lemma select_messages_by_session_elem sid d r :
  r ∈ select_messages_by_session sid d ↔ r ∈ messages d ∧ Messages.session_id r = sid.
Proof.
  unfold select_messages_by_session.
  rewrite (merge_sort_Permutation timestamp_asc), list_elem_of_filter. tauto.
Qed.

Lemma select_sessions_by_user_elem uid d s :
  s ∈ select_sessions_by_user uid d ↔ s ∈ chat_sessions d ∧ ChatSessions.user_id s = uid.
Proof.
  unfold select_sessions_by_user.
  rewrite (merge_sort_Permutation updated_at_desc), list_elem_of_filter. tauto.
Qed.

(** What [parse_message] makes of a row. *)
Lemma parse_message_Some r msg :
  History.parse_message r = Some msg →
  ∃ es gs ar,
    History.parse_column (Messages.extracted_symptoms r) = Some es
    ∧ History.parse_column (Messages.grounding_sources r) = Some gs
    ∧ History.parse_column (Messages.analysis_results r) = Some ar
    ∧ msg = JObj (History.message_fields r es gs ar).
Proof.
  unfold History.parse_message. intros Hp.
  destruct (History.parse_column (Messages.extracted_symptoms r)) as [es|]; [|done].
  destruct (History.parse_column (Messages.grounding_sources r)) as [gs|]; [|done].
  destruct (History.parse_column (Messages.analysis_results r)) as [ar|]; [|done].
  simpl in Hp. injection Hp as <-. by exists es, gs, ar.
Qed.

(** Reading the properties of a message object. *)
Lemma message_fields_get r es gs ar :
  let msg := JObj (History.message_fields r es gs ar) in
  jget "id" msg = Some (JStr (Messages.id r))
  ∧ jget "session_id" msg = Some (JStr (Messages.session_id r))
  ∧ jget "extracted_symptoms" msg = es
  ∧ jget "grounding_sources" msg = gs
  ∧ jget "analysis_results" msg = ar.
Proof. destruct es, gs, ar; repeat split; reflexivity. Qed.

Lemma has_id_parse_message mid r msg :
  History.parse_message r = Some msg → has_id mid msg = true ↔ Messages.id r = mid.
Proof.
  intros (es & gs & ar & _ & _ & _ & ->)%parse_message_Some.
  unfold has_id. destruct (message_fields_get r es gs ar) as (-> & _).
  apply String.eqb_eq.
Qed.

(** A stored sub-field that was written by [stringify_field] parses back
    to the value kept. *)
Lemma parse_column_stringify_field (x : option json) :
  round_trips x →
  History.parse_column (History.stringify_field x) = Some (kept x).
Proof.
  unfold round_trips, kept, History.stringify_field, History.parse_column.
  destruct x as [v|]; [|done]. destruct (truthy v); [|done].
  intros [-> ->]. done.
Qed.

(** A row that was written with the values of [req] reads back as the
    values kept. *)
Lemma parse_message_written now seed req r :
  round_trips (History.mb_extractedSymptoms req) →
  round_trips (History.mb_groundingSources req) →
  round_trips (History.mb_analysisResults req) →
  r = overwritten r (saved_values now seed req) →
  History.parse_message r
  = Some (JObj (History.message_fields r
                  (kept (History.mb_extractedSymptoms req))
                  (kept (History.mb_groundingSources req))
                  (kept (History.mb_analysisResults req)))).
Proof.
  intros Hes Hgs Har Hr. unfold History.parse_message.
  rewrite Hr. cbn [overwritten saved_values Messages.extracted_symptoms
                   Messages.grounding_sources Messages.analysis_results].
  rewrite !parse_column_stringify_field by done. simpl. by rewrite <- Hr.
Qed.

(** A row of the written table that carries the written identifier has
    the written values. *)
Lemma written_row r0 d r :
  r ∈ messages match insert_message r0 d with
               | inr d1 => d1
               | inl _ => update_message r0 d
               end →
  Messages.id r = Messages.id r0 →
  r = overwritten r r0.
Proof.
  destruct (insert_message r0 d) as [c|d1] eqn:Hins.
  - rewrite update_message_messages. intros Hin Hid.
    apply list_elem_of_In, in_map_iff in Hin as (a & Ha & _).
    destruct (String.eqb_spec (Messages.id a) (Messages.id r0)) as [Heq|Hne].
    + subst r. reflexivity.
    + subst a. done.
  - unfold insert_message in Hins.
    destruct (existsb _ (messages d)) eqn:Hex; [discriminate|].
    destruct (foreign_keys d && _); [discriminate|].
    cbn [orb] in Hins. injection Hins as <-. cbn [messages].
    intros Hin Hid. apply elem_of_app in Hin as [Hin|Hin].
    + exfalso. assert (Messages.id r0 ∈ map Messages.id (messages d)) as Hmem.
      { rewrite <- Hid. apply list_elem_of_In, in_map, list_elem_of_In. done. }
      apply existsb_id_in in Hmem. congruence.
    + apply list_elem_of_singleton in Hin. subst r. by destruct r0.
Qed.

End Listings.

Section ListingRoutes.
Context `{Runtime}.
Implicit Types (d : Db) (r : Messages.row) (req : History.MessageBody).

Lemma getSession_200 sid d :
  status (History.getSession sid d) = 200 →
  ∃ session msgs,
    select_session_by_id sid d = Some session
    ∧ parsed_from (select_messages_by_session sid d) msgs
    ∧ body (History.getSession sid d)
      = JObj [("session", JObj (History.session_fields session)); ("messages", JArr msgs)].
Proof.
  unfold History.getSession.
  destruct (select_session_by_id sid d) as [session|]; [|discriminate].
  destruct (mapM _ _) as [msgs|] eqn:Hm; [|discriminate].
  intros _. exists session, msgs. split; [done|]. split; [|done].
  by apply mapM_Some.
Qed.

Lemma session_with_messages_Some d s sj :
  History.session_with_messages d s = Some sj →
  ∃ msgs, parsed_from (select_messages_by_session (ChatSessions.id s) d) msgs
          ∧ sj = JObj (History.session_fields s ++ [("messages", JArr msgs)])
          ∧ jget "messages" sj = Some (JArr msgs)
          ∧ jget "id" sj = Some (JStr (ChatSessions.id s)).
Proof.
  unfold History.session_with_messages.
  destruct (mapM _ _) as [msgs|] eqn:Hm; [|discriminate].
  simpl. intros [= <-]. exists msgs. split; [by apply mapM_Some|done].
Qed.

Lemma listSessions_200 uid d :
  status (History.listSessions uid d) = 200 →
  ∃ sessions,
    body (History.listSessions uid d) = JObj [("sessions", JArr sessions)]
    ∧ Forall2 (λ s sj, History.session_with_messages d s = Some sj)
        (select_sessions_by_user uid d) sessions.
Proof.
  unfold History.listSessions.
  destruct (negb (truthy_str uid)); [discriminate|].
  destruct (mapM _ _) as [sessions|] eqn:Hm; [|discriminate].
  intros _. exists sessions. split; [done|]. by apply mapM_Some.
Qed.

Lemma parsed_from_elem rows msgs msg :
  parsed_from rows msgs → msg ∈ msgs →
  ∃ r, r ∈ rows ∧ History.parse_message r = Some msg.
Proof.
  intros Hp Hin. apply list_elem_of_lookup in Hin as [i Hi].
  destruct (Forall2_lookup_r _ _ _ _ _ Hp Hi) as (r & Hr & Hpr).
  exists r. split; [|done]. apply list_elem_of_lookup. eauto.
Qed.

Lemma parsed_from_row rows msgs r :
  parsed_from rows msgs → r ∈ rows →
  ∃ msg, msg ∈ msgs ∧ History.parse_message r = Some msg.
Proof.
  intros Hp Hin. apply list_elem_of_lookup in Hin as [i Hi].
  destruct (Forall2_lookup_l _ _ _ _ _ Hp Hi) as (msg & Hm & Hpr).
  exists msg. split; [|done]. apply list_elem_of_lookup. eauto.
Qed.

(** The rows of the table after the write: the written identifier, or a
    row that was there. *)
Lemma written_elem r0 d r :
  r ∈ messages match insert_message r0 d with
               | inr d1 => d1
               | inl _ => update_message r0 d
               end →
  Messages.id r = Messages.id r0 ∨ r ∈ messages d.
Proof.
  destruct (insert_message r0 d) as [c|d1] eqn:Hins.
  - rewrite update_message_messages. intros Hin.
    apply list_elem_of_In, in_map_iff in Hin as (a & Ha & Hin).
    destruct (String.eqb_spec (Messages.id a) (Messages.id r0)) as [Heq|Hne].
    + left. by subst r.
    + right. subst a. by apply list_elem_of_In.
  - unfold insert_message in Hins.
    destruct (existsb _ (messages d)); [discriminate|].
    destruct (foreign_keys d && _); [discriminate|].
    cbn [orb] in Hins. injection Hins as <-. cbn [messages].
    intros Hin. apply elem_of_app in Hin as [Hin|Hin]; [by right|].
    apply list_elem_of_singleton in Hin. left. by subst r.
Qed.

(** The state [/message] leaves, for a body that passes the check. *)
Lemma saveMessage_store now seed req d :
  valid_message req →
  let out := History.saveMessage now seed req d in
  status out.1 = 201
  ∧ messages out.2
    = messages match insert_message (saved_values now seed req) d with
               | inr d1 => d1
               | inl _ => update_message (saved_values now seed req) d
               end
  ∧ chat_sessions out.2
    = map (λ s, if String.eqb (ChatSessions.id s) (field (History.mb_sessionId req))
                then bumped (toISOString now) s else s) (chat_sessions d)
  ∧ users out.2 = users d
  ∧ foreign_keys out.2 = foreign_keys d.
Proof.
  intros Hv. cbv zeta. rewrite (saveMessage_valid now seed req d Hv). cbn [fst snd status].
  split; [done|]. split; [done|].
  unfold update_session_updated_at. cbn [chat_sessions users foreign_keys].
  destruct (insert_message (saved_values now seed req) d) as [c|d1] eqn:Hins.
  - done.
  - unfold insert_message in Hins. destruct (_ || _); [discriminate|].
    injection Hins as <-. done.
Qed.

(** Rows written by [/message] read back, and so does the table. *)
Lemma saveMessage_readable now seed req d :
  valid_message req →
  round_trips (History.mb_extractedSymptoms req) →
  round_trips (History.mb_groundingSources req) →
  round_trips (History.mb_analysisResults req) →
  readable d →
  readable (History.saveMessage now seed req d).2.
Proof.
  intros Hv Hes Hgs Har Hd. unfold readable.
  destruct (saveMessage_store now seed req d Hv) as (_ & -> & _).
  apply Forall_forall. intros r Hr.
  destruct (decide (Messages.id r = Messages.id (saved_values now seed req))) as [Hid|Hid].
  - rewrite (parse_message_written now seed req r); [done..|].
    by eapply written_row.
  - apply written_elem in Hr as [Hr|Hr]; [done|].
    unfold readable in Hd. rewrite Forall_forall in Hd. auto.
Qed.

Lemma select_session_by_id_is_Some sid d :
  is_Some (select_session_by_id sid d) ↔ ∃ s, s ∈ chat_sessions d ∧ ChatSessions.id s = sid.
Proof.
  unfold select_session_by_id. rewrite find_is_Some. by setoid_rewrite String.eqb_eq.
Qed.

End ListingRoutes.

Section RoundTrip.
Context `{Runtime}.
Implicit Types (d : Db) (r : Messages.row) (req : History.MessageBody).

(** A listed message object with the saved identifier shows the saved
    sub-fields. *)
Lemma listed_message_shows now seed req d sid msgs msg :
  valid_message req →
  round_trips (History.mb_extractedSymptoms req) →
  round_trips (History.mb_groundingSources req) →
  round_trips (History.mb_analysisResults req) →
  parsed_from (select_messages_by_session sid (History.saveMessage now seed req d).2) msgs →
  msg ∈ msgs →
  has_id (saved_id seed req) msg = true →
  shows_fields_of req msg.
Proof.
  intros Hv Hes Hgs Har Hp Hin Hid.
  destruct (parsed_from_elem _ _ _ Hp Hin) as (r & Hr & Hpr).
  apply (has_id_parse_message _ _ _ Hpr) in Hid.
  apply select_messages_by_session_elem in Hr as [Hr _].
  destruct (saveMessage_store now seed req d Hv) as (_ & Hmsgs & _).
  rewrite Hmsgs in Hr. apply written_row in Hr; [|done].
  rewrite (parse_message_written now seed req r Hes Hgs Har Hr) in Hpr.
  injection Hpr as <-. unfold shows_fields_of.
  destruct (message_fields_get r (kept (History.mb_extractedSymptoms req))
              (kept (History.mb_groundingSources req))
              (kept (History.mb_analysisResults req))) as (_ & _ & -> & -> & ->).
  done.
Qed.

(** A stored message of an existing session is listed, when the table
    reads back. *)
Lemma stored_message_listed d r s :
  readable d →
  r ∈ messages d →
  s ∈ chat_sessions d → ChatSessions.id s = Messages.session_id r →
  (∃ msgs msg,
     status (History.getSession (Messages.session_id r) d) = 200
     ∧ jget "messages" (body (History.getSession (Messages.session_id r) d))
       = Some (JArr msgs)
     ∧ msg ∈ msgs ∧ has_id (Messages.id r) msg = true)
  ∧ (truthy_str (ChatSessions.user_id s) = true →
     ∃ sessions session msgs msg,
       status (History.listSessions (ChatSessions.user_id s) d) = 200
       ∧ jget "sessions" (body (History.listSessions (ChatSessions.user_id s) d))
         = Some (JArr sessions)
       ∧ session ∈ sessions
       ∧ jget "messages" session = Some (JArr msgs)
       ∧ msg ∈ msgs ∧ has_id (Messages.id r) msg = true).
Proof.
  intros Hread Hr Hs Hsid.
  assert (Hall : ∀ sid, ∃ msgs,
            mapM History.parse_message (select_messages_by_session sid d) = Some msgs).
  { intros sid. apply mapM_is_Some, Forall_forall. intros x Hx.
    apply select_messages_by_session_elem in Hx as [Hx _].
    unfold readable in Hread. rewrite Forall_forall in Hread. by apply Hread. }
  assert (Hrow : ∀ msgs,
            mapM History.parse_message (select_messages_by_session (Messages.session_id r) d)
            = Some msgs →
            ∃ msg, msg ∈ msgs ∧ has_id (Messages.id r) msg = true).
  { intros msgs Hm. apply mapM_Some in Hm.
    destruct (parsed_from_row _ _ r Hm) as (msg & Hin & Hpr).
    { by apply select_messages_by_session_elem. }
    exists msg. split; [done|]. by apply (has_id_parse_message _ _ _ Hpr). }
  split.
  - destruct (Hall (Messages.session_id r)) as [msgs Hm].
    destruct (Hrow msgs Hm) as (msg & Hin & Hid).
    exists msgs, msg. unfold History.getSession.
    destruct (select_session_by_id (Messages.session_id r) d) as [session|] eqn:Hsel.
    + rewrite Hm. done.
    + exfalso. assert (is_Some (select_session_by_id (Messages.session_id r) d)) as [? Hx];
        [|congruence].
      apply select_session_by_id_is_Some. eauto.
  - intros Huid. unfold History.listSessions. rewrite Huid. cbn [negb].
    assert (is_Some (mapM (History.session_with_messages d)
                       (select_sessions_by_user (ChatSessions.user_id s) d)))
      as [sessions Hss].
    { apply mapM_is_Some, Forall_forall. intros x _.
      unfold History.session_with_messages, compose.
      destruct (Hall (ChatSessions.id x)) as [msgs ->]. done. }
    rewrite Hss. apply mapM_Some in Hss.
    assert (Hsel : s ∈ select_sessions_by_user (ChatSessions.user_id s) d)
      by by apply select_sessions_by_user_elem.
    apply list_elem_of_lookup in Hsel as [i Hi].
    destruct (Forall2_lookup_l _ _ _ _ _ Hss Hi) as (sj & Hsj & Hswm).
    apply session_with_messages_Some in Hswm as (msgs & Hp & _ & Hget & _).
    rewrite Hsid in Hp.
    destruct (Hrow msgs) as (msg & Hin & Hid); [by apply mapM_Some|].
    exists sessions, sj, msgs, msg. repeat split; try done.
    apply list_elem_of_lookup. eauto.
Qed.

End RoundTrip.

Section RoundTripClaim.
Context `{Runtime}.

(** C6. A message saved through [/message] whose JSON sub-fields
    [JSON.parse] reads back from [JSON.stringify] is listed by [getSession]
    and by [listSessions] with those sub-fields as structured values: each
    listed message object with the saved identifier has, for each of the
    three sub-fields, the value that was supplied (every array and every
    object is kept) and nothing for a sub-field that was absent.  A new
    message of an existing session is listed by both routes. *)
Theorem saved_json_fields_round_trip (now seed : Z) (req : History.MessageBody) (d : Db) :
  valid_message req →
  round_trips (History.mb_extractedSymptoms req) →
  round_trips (History.mb_groundingSources req) →
  round_trips (History.mb_analysisResults req) →
  let out := History.saveMessage now seed req d in
  let mid := saved_id seed req in
  (∀ sid msgs msg,
     status (History.getSession sid out.2) = 200 →
     jget "messages" (body (History.getSession sid out.2)) = Some (JArr msgs) →
     msg ∈ msgs → has_id mid msg = true →
     shows_fields_of req msg)
  ∧ (∀ uid sessions session msgs msg,
       status (History.listSessions uid out.2) = 200 →
       jget "sessions" (body (History.listSessions uid out.2)) = Some (JArr sessions) →
       session ∈ sessions →
       jget "messages" session = Some (JArr msgs) →
       msg ∈ msgs → has_id mid msg = true →
       shows_fields_of req msg)
  ∧ (∀ s,
       readable d →
       s ∈ chat_sessions d →
       ChatSessions.id s = field (History.mb_sessionId req) →
       mid ∉ map Messages.id (messages d) →
       (∃ msgs msg,
          status (History.getSession (ChatSessions.id s) out.2) = 200
          ∧ jget "messages" (body (History.getSession (ChatSessions.id s) out.2))
            = Some (JArr msgs)
          ∧ msg ∈ msgs ∧ has_id mid msg = true)
       ∧ (truthy_str (ChatSessions.user_id s) = true →
          ∃ sessions session msgs msg,
            status (History.listSessions (ChatSessions.user_id s) out.2) = 200
            ∧ jget "sessions" (body (History.listSessions (ChatSessions.user_id s) out.2))
              = Some (JArr sessions)
            ∧ session ∈ sessions
            ∧ jget "messages" session = Some (JArr msgs)
            ∧ msg ∈ msgs ∧ has_id mid msg = true))
  ∧ (∀ items, kept (Some (JArr items)) = Some (JArr items))
  ∧ (∀ fields, kept (Some (JObj fields)) = Some (JObj fields))
  ∧ kept None = None.
Proof.
  intros Hv Hes Hgs Har. cbv zeta.
  split; [|split; [|split; [|done]]].
  - intros sid msgs msg Hst Hget Hin Hid.
    apply getSession_200 in Hst as (session & msgs' & _ & Hp & Hbody).
    rewrite Hbody in Hget. injection Hget as <-.
    by eapply listed_message_shows.
  - intros uid sessions session msgs msg Hst Hget Hsess Hmsgs Hin Hid.
    apply listSessions_200 in Hst as (sessions' & Hbody & Hall).
    rewrite Hbody in Hget. injection Hget as <-.
    apply list_elem_of_lookup in Hsess as [i Hi].
    destruct (Forall2_lookup_r _ _ _ _ _ Hall Hi) as (s & _ & Hswm).
    apply session_with_messages_Some in Hswm as (msgs' & Hp & _ & Hget' & _).
    rewrite Hget' in Hmsgs. injection Hmsgs as <-.
    by eapply listed_message_shows.
  - intros s Hread Hs Hsid Hfresh.
    destruct (saveMessage_store now seed req d Hv) as (_ & Hmsgs & Hsess & _).
    pose proof (saveMessage_readable now seed req d Hv Hes Hgs Har Hread) as Hread'.
    set (out := History.saveMessage now seed req d) in *.
    set (values := saved_values now seed req) in *.
    assert (Hrow : values ∈ messages out.2).
    { rewrite Hmsgs. unfold insert_message.
      assert (existsb (λ m, String.eqb (Messages.id m) (Messages.id values)) (messages d)
              = false) as ->.
      { apply not_true_is_false. intros Hex. apply existsb_id_in in Hex. done. }
      assert (existsb (λ x, String.eqb (ChatSessions.id x) (Messages.session_id values))
                (chat_sessions d) = true) as ->.
      { apply existsb_exists. exists s. split; [by apply list_elem_of_In|].
        apply String.eqb_eq. done. }
      rewrite andb_false_r. cbn [orb messages].
      apply elem_of_app. right. by apply list_elem_of_singleton. }
    assert (Hs' : bumped (toISOString now) s ∈ chat_sessions out.2).
    { rewrite Hsess. apply list_elem_of_In, in_map_iff. exists s.
      split; [|by apply list_elem_of_In]. rewrite Hsid. by rewrite String.eqb_refl. }
    destruct (stored_message_listed out.2 values (bumped (toISOString now) s)
                Hread' Hrow Hs' Hsid) as [Hget Hlist].
    change (Messages.session_id values) with (field (History.mb_sessionId req)) in Hget.
    rewrite <- Hsid in Hget. split; [exact Hget|exact Hlist].
Qed.

End RoundTripClaim.

(** [alice]'s message with the symptoms ["fever", "cough"] is listed in
    her consultation with that array. *)
Lemma saved_json_fields_round_trip_witness :
  ∃ msgs msg,
    jget "messages"
      (body (History.getSession (H := Reference.runtime) consultation_id
               (History.saveMessage (H := Reference.runtime) 200000 7 symptoms_message
                  consultation_db).2))
    = Some (JArr msgs)
    ∧ msg ∈ msgs
    ∧ has_id "m-1" msg = true
    ∧ jget "extracted_symptoms" msg = Some symptoms
    ∧ jget "grounding_sources" msg = None.
Proof.
  pose proof (saved_json_fields_round_trip (H := Reference.runtime) 200000 7
                symptoms_message consultation_db) as Hthm.
  destruct Hthm as (Hget & _ & Hlisted & _).
  - repeat split.
  - split; vm_compute; reflexivity.
  - exact I.
  - exact I.
  - destruct (Hlisted {| ChatSessions.id := consultation_id;
                         ChatSessions.user_id := alice_id;
                         ChatSessions.title := "New Consultation";
                         ChatSessions.created_at := Reference.iso 100000;
                         ChatSessions.updated_at := Reference.iso 100000 |})
      as [(msgs & msg & Hst & Hbody & Hin & Hid) _].
    + repeat constructor.
    + vm_compute. left.
    + reflexivity.
    + vm_compute. apply not_elem_of_nil.
    + exists msgs, msg. split; [exact Hbody|]. split; [exact Hin|]. split; [exact Hid|].
      destruct (Hget consultation_id msgs msg Hst Hbody Hin Hid) as (Hes & Hgs & _).
      split; [exact Hes|exact Hgs].
Defined.

(* ================================================================== *)
(** * Upsert by identifier *)
(* ================================================================== *)

Section Upsert.
Context `{Runtime}.
Implicit Types (d : Db) (r : Messages.row) (req : History.MessageBody).

(** A body that fails the presence check changes nothing. *)
Lemma saveMessage_invalid now seed req d :
  ¬ valid_message req →
  History.saveMessage now seed req d
  = ({| status := 400; body := error_body "Missing required fields" |}, d).
Proof.
  intros Hno. unfold History.saveMessage.
  destruct req as [[s|] [r|] [c|] ? ? ? ? ?]; cbn; try done.
  destruct (truthy_str s) eqn:Hs; [|done].
  destruct (truthy_str r) eqn:Hr; [|done].
  destruct (truthy_str c) eqn:Hc; [|done].
  exfalso. apply Hno. by repeat split.
Qed.

(** [/message] keeps the identifiers of [messages] distinct. *)
Lemma saveMessage_ids_NoDup now seed req d :
  NoDup (map Messages.id (messages d)) →
  NoDup (map Messages.id (messages (History.saveMessage now seed req d).2)).
Proof.
  intros Hnd. destruct (decide (valid_message req)) as [Hv|Hv].
  - destruct (saveMessage_store now seed req d Hv) as (_ & -> & _).
    by apply written_ids_NoDup.
  - by rewrite saveMessage_invalid.
Qed.

(** The message objects with an identifier are as many as the rows with
    it. *)
Lemma with_id_length mid rows msgs :
  parsed_from rows msgs →
  length (with_id mid msgs) = length (filter (λ r, Messages.id r = mid) rows).
Proof.
  unfold with_id. induction 1 as [|r msg rows msgs Hp _ IH]; [done|].
  pose proof (has_id_parse_message mid r msg Hp) as Hiff.
  destruct (decide (Messages.id r = mid)) as [Hid|Hid].
  - rewrite !filter_cons_True by tauto. simpl. by rewrite IH.
  - rewrite !filter_cons_False by tauto. done.
Qed.

(** The rows of an identifier in the listing of a session. *)
Lemma select_messages_with_id sid d mid row :
  filter (λ r, Messages.id r = mid) (messages d) = [row] →
  length (filter (λ r, Messages.id r = mid) (select_messages_by_session sid d))
  = if decide (Messages.session_id row = sid) then 1%nat else 0%nat.
Proof.
  intros Hrow. unfold select_messages_by_session.
  rewrite (merge_sort_Permutation timestamp_asc).
  rewrite list_filter_filter.
  rewrite (list_filter_iff _ (λ r, Messages.session_id r = sid ∧ Messages.id r = mid))
    by (intros r; tauto).
  rewrite <- list_filter_filter.
  rewrite Hrow. rewrite filter_cons, filter_nil. by case_decide.
Qed.

End Upsert.

Section UpsertClaims.
Context `{Runtime}.

(** C3. Message identifiers are unique and [/message] keeps them so.  When
    a message with the supplied [messageId] is stored, the route answers
    201, inserts nothing, and overwrites that row in place: role, content,
    image reference, the three JSON columns and the timestamp become those
    of the request.  Afterwards exactly one row has that identifier, every
    other row is as before, and a session listing shows exactly one
    message with it (in the session of the stored row, none elsewhere). *)
Theorem saveMessage_upsert_by_id (now seed : Z) (req : History.MessageBody) (d : Db)
    (old : Messages.row) (m : string) :
  valid_message req →
  History.mb_messageId req = Some m → truthy_str m = true →
  NoDup (map Messages.id (messages d)) →
  old ∈ messages d → Messages.id old = m →
  let out := History.saveMessage now seed req d in
  status out.1 = 201
  ∧ length (messages out.2) = length (messages d)
  ∧ filter (λ r, Messages.id r = m) (messages out.2)
    = [ {| Messages.id := m;
           Messages.session_id := Messages.session_id old;
           Messages.role := field (History.mb_role req);
           Messages.content := field (History.mb_content req);
           Messages.image_url := or_null (History.mb_imageUrl req);
           Messages.extracted_symptoms :=
             History.stringify_field (History.mb_extractedSymptoms req);
           Messages.grounding_sources :=
             History.stringify_field (History.mb_groundingSources req);
           Messages.analysis_results :=
             History.stringify_field (History.mb_analysisResults req);
           Messages.timestamp := toISOString now |} ]
  ∧ (∀ r, Messages.id r ≠ m → r ∈ messages out.2 ↔ r ∈ messages d)
  ∧ NoDup (map Messages.id (messages out.2))
  ∧ (∀ sid msgs,
       status (History.getSession sid out.2) = 200 →
       jget "messages" (body (History.getSession sid out.2)) = Some (JArr msgs) →
       length (with_id m msgs)
       = if decide (Messages.session_id old = sid) then 1%nat else 0%nat)
  ∧ (∀ now' seed' req',
       NoDup (map Messages.id (messages (History.saveMessage now' seed' req' d).2))).
Proof.
  intros Hv Hmid Hm Hnd Hold Hid. cbv zeta.
  destruct (saveMessage_store now seed req d Hv) as (Hst & Hmsgs & _).
  assert (Hsaved : Messages.id (saved_values now seed req) = m).
  { cbn [saved_values Messages.id]. unfold saved_id. rewrite Hmid. cbn. by rewrite Hm. }
  destruct (written_existing (saved_values now seed req) d old Hnd Hold)
    as (_ & Hone & Hlen & Hothers); [congruence|].
  rewrite <- Hmsgs, Hsaved in Hone, Hothers. rewrite <- Hmsgs in Hlen.
  assert (Hrow : filter (λ r, Messages.id r = m)
                   (messages (History.saveMessage now seed req d).2)
                 = [overwritten old (saved_values now seed req)]) by exact Hone.
  split; [done|]. split; [done|].
  split; [rewrite Hrow; unfold overwritten, saved_values; cbn; by rewrite Hid|].
  split; [done|].
  split; [by apply saveMessage_ids_NoDup|].
  split; [|intros; by apply saveMessage_ids_NoDup].
  intros sid msgs Hst200 Hget.
  apply getSession_200 in Hst200 as (session & msgs' & _ & Hp & Hbody).
  rewrite Hbody in Hget. injection Hget as <-.
  rewrite (with_id_length m _ _ Hp).
  by rewrite (select_messages_with_id sid _ m _ Hrow).
Qed.

(** C10. When [/message] is called with a [messageId] that is stored, the
    row keeps the session it had, while the [updated_at] bump goes to the
    sessions whose identifier is the [sessionId] of the request, and the
    message of the response carries that [sessionId].  So with a request
    that names another session, the message stays in its session, that
    session is not bumped, and the requested one is. *)
Theorem saveMessage_existing_id_keeps_session (now seed : Z) (req : History.MessageBody)
    (d : Db) (old : Messages.row) (m : string) :
  valid_message req →
  History.mb_messageId req = Some m → truthy_str m = true →
  NoDup (map Messages.id (messages d)) →
  old ∈ messages d → Messages.id old = m →
  let out := History.saveMessage now seed req d in
  let requested := field (History.mb_sessionId req) in
  (∀ r, r ∈ messages out.2 → Messages.id r = m →
        Messages.session_id r = Messages.session_id old)
  ∧ (∃ r, r ∈ messages out.2 ∧ Messages.id r = m)
  ∧ chat_sessions out.2
    = map (λ s, if String.eqb (ChatSessions.id s) requested
                then {| ChatSessions.id := ChatSessions.id s;
                        ChatSessions.user_id := ChatSessions.user_id s;
                        ChatSessions.title := ChatSessions.title s;
                        ChatSessions.created_at := ChatSessions.created_at s;
                        ChatSessions.updated_at := toISOString now |}
                else s) (chat_sessions d)
  ∧ (∀ s, s ∈ chat_sessions d → ChatSessions.id s = requested →
          ∃ s', s' ∈ chat_sessions out.2
                ∧ ChatSessions.id s' = requested
                ∧ ChatSessions.updated_at s' = toISOString now)
  ∧ (∀ s, ChatSessions.id s ≠ requested → s ∈ chat_sessions out.2 ↔ s ∈ chat_sessions d)
  ∧ (jget "message" (body out.1) ≫= jget "session_id") = Some (JStr requested)
  ∧ (jget "message" (body out.1) ≫= jget "id") = Some (JStr m).
Proof.
  intros Hv Hmid Hm Hnd Hold Hid. cbv zeta.
  destruct (saveMessage_store now seed req d Hv) as (Hst & Hmsgs & Hsess & _).
  assert (Hsaved : Messages.id (saved_values now seed req) = m).
  { cbn [saved_values Messages.id]. unfold saved_id. rewrite Hmid. cbn. by rewrite Hm. }
  destruct (written_existing (saved_values now seed req) d old Hnd Hold)
    as (_ & Hone & _ & _); [congruence|].
  rewrite <- Hmsgs, Hsaved in Hone.
  split; [|split; [|split; [exact Hsess|split; [|split]]]].
  - intros r Hr Hrid.
    assert (Hin : r ∈ filter (λ r, Messages.id r = m)
                        (messages (History.saveMessage now seed req d).2))
      by by apply list_elem_of_filter.
    rewrite Hone in Hin. apply list_elem_of_singleton in Hin. by subst r.
  - exists (overwritten old (saved_values now seed req)).
    assert (Hin : overwritten old (saved_values now seed req)
                  ∈ filter (λ r, Messages.id r = m)
                      (messages (History.saveMessage now seed req d).2))
      by (rewrite Hone; by apply list_elem_of_singleton).
    apply list_elem_of_filter in Hin. tauto.
  - intros s Hs Hsid. exists (bumped (toISOString now) s).
    split; [|done]. rewrite Hsess. apply list_elem_of_In, in_map_iff.
    exists s. split; [|by apply list_elem_of_In].
    rewrite Hsid. by rewrite String.eqb_refl.
  - intros s Hne. rewrite Hsess, !list_elem_of_In, in_map_iff. split.
    + intros (a & Ha & Hin).
      destruct (String.eqb_spec (ChatSessions.id a) (field (History.mb_sessionId req))).
      * subst s. done.
      * by subst a.
    + intros Hin. exists s. split; [|done].
      by destruct (String.eqb_spec (ChatSessions.id s) (field (History.mb_sessionId req))).
  - rewrite (saveMessage_valid now seed req d Hv). cbn [fst body].
    split; [reflexivity|]. rewrite <- Hsaved. reflexivity.
Qed.

End UpsertClaims.

(** ["m-1"] is sent again on the store that holds it: one row carries the
    identifier afterwards and no row was added. *)
Lemma saveMessage_upsert_by_id_witness :
  length (filter (λ r, Messages.id r = "m-1")
            (messages (History.saveMessage (H := Reference.runtime) 400000 9
                         resent_message second_db).2)) = 1%nat
  ∧ length (messages (History.saveMessage (H := Reference.runtime) 400000 9
                        resent_message second_db).2)
    = length (messages second_db).
Proof.
  destruct (saveMessage_upsert_by_id (H := Reference.runtime) 400000 9 resent_message
              second_db stored_message "m-1") as (_ & Hlen & Hone & _).
  - repeat split.
  - reflexivity.
  - reflexivity.
  - vm_compute. apply NoDup_singleton.
  - vm_compute. left.
  - reflexivity.
  - rewrite Hone. split; [reflexivity|exact Hlen].
Defined.

(** ["m-1"], stored in the first consultation, is sent again naming the
    second: the row stays in the first, the second is bumped, and the
    response names the second. *)
Lemma saveMessage_existing_id_keeps_session_witness :
  (∃ r, r ∈ messages (History.saveMessage (H := Reference.runtime) 400000 9
                        resent_message second_db).2
        ∧ Messages.id r = "m-1" ∧ Messages.session_id r = consultation_id)
  ∧ map (λ s, (ChatSessions.id s, ChatSessions.updated_at s))
      (chat_sessions (History.saveMessage (H := Reference.runtime) 400000 9
                        resent_message second_db).2)
    = [(consultation_id, Reference.iso 200000); (second_id, Reference.iso 400000)]
  ∧ (jget "message" (body (History.saveMessage (H := Reference.runtime) 400000 9
                             resent_message second_db).1) ≫= jget "session_id")
    = Some (JStr second_id).
Proof.
  destruct (saveMessage_existing_id_keeps_session (H := Reference.runtime) 400000 9
              resent_message second_db stored_message "m-1")
    as (Hstay & (r & Hr & Hid) & Hsess & _ & _ & Hresp & _).
  - repeat split.
  - reflexivity.
  - reflexivity.
  - vm_compute. apply NoDup_singleton.
  - vm_compute. left.
  - reflexivity.
  - split; [|split].
    + exists r. split; [exact Hr|]. split; [exact Hid|]. exact (Hstay r Hr Hid).
    + rewrite Hsess. vm_compute. reflexivity.
    + exact Hresp.
Defined.

(* ================================================================== *)
(** * Deleting sessions *)
(* ================================================================== *)

Section Cascade.
Implicit Types (d : Db).

(** A delete leaves the connection's foreign-key switch as it was. *)
Lemma delete_sessions_foreign_keys doomed d :
  foreign_keys (delete_sessions doomed d) = foreign_keys d.
Proof. reflexivity. Qed.

(** Without enforcement a delete of sessions leaves [messages] as it was. *)
Lemma delete_sessions_unenforced doomed d :
  foreign_keys d = false →
  messages (delete_sessions doomed d) = messages d.
Proof. intros Hoff. unfold delete_sessions. cbn [messages]. by rewrite Hoff. Qed.

(** Under enforcement no message of a deleted session remains. *)
Lemma delete_sessions_enforced doomed d m s :
  foreign_keys d = true →
  m ∈ messages (delete_sessions doomed d) →
  s ∈ chat_sessions d → doomed s = true →
  Messages.session_id m ≠ ChatSessions.id s.
Proof.
  intros Hon Hm Hs Hdoomed Heq. unfold delete_sessions in Hm. cbn [messages] in Hm.
  rewrite Hon in Hm. apply list_elem_of_filter in Hm as [Hnone _].
  apply not_true_iff_false in Hnone. apply Hnone.
  apply existsb_exists. exists (ChatSessions.id s).
  split; [|by apply String.eqb_eq].
  apply in_map, list_elem_of_In, list_elem_of_filter. done.
Qed.

(** The deleted sessions are gone either way. *)
Lemma delete_sessions_gone doomed d s :
  s ∈ chat_sessions (delete_sessions doomed d) → doomed s = false.
Proof.
  unfold delete_sessions. cbn [chat_sessions]. intros Hs.
  by apply list_elem_of_filter in Hs as [? _].
Qed.

End Cascade.

(** C1, on the store as the sources open it.  [alice]'s consultation
    holds the message ["m-1"].  After [deleteSession] of the consultation,
    and likewise after [clearUserData] of [alice], no session is left and
    the message is still stored, with the identifier of the deleted
    session in [session_id]: the connection never had [PRAGMA
    foreign_keys = ON], so the schema's [ON DELETE CASCADE] does not act. *)
Theorem deleteSession_leaves_messages :
  foreign_keys saved_db = false
  ∧ map ChatSessions.id (chat_sessions saved_db) = [consultation_id]
  ∧ map Messages.session_id (messages saved_db) = [consultation_id]
  ∧ status (History.deleteSession consultation_id saved_db).1 = 200
  ∧ chat_sessions (History.deleteSession consultation_id saved_db).2 = []
  ∧ map Messages.session_id (messages (History.deleteSession consultation_id saved_db).2)
    = [consultation_id]
  ∧ chat_sessions (History.clearUserData alice_id saved_db).2 = []
  ∧ map Messages.session_id (messages (History.clearUserData alice_id saved_db).2)
    = [consultation_id]
  ∧ messages (History.deleteSession consultation_id (pragma_foreign_keys_on saved_db)).2 = []
  ∧ messages (History.clearUserData alice_id (pragma_foreign_keys_on saved_db)).2 = [].
Proof. repeat split; vm_compute; reflexivity. Qed.

(* ================================================================== *)
(** * Invariants of the store *)
(* ================================================================== *)

Section Invariants.
Context `{Runtime}.
Implicit Types (d : Db) (st : Server).

Lemma NoDup_map_filter {A} (key : A → string) (P : A → Prop) `{!∀ x, Decision (P x)}
    (l : list A) :
  NoDup (map key l) → NoDup (map key (filter P l)).
Proof.
  induction l as [|a l IH]; [done|]. simpl. intros [Ha Hnd]%NoDup_cons.
  destruct (decide (P a)).
  - rewrite filter_cons_True by done. simpl. apply NoDup_cons. split; [|auto].
    intros Hin. apply Ha. apply list_elem_of_In, in_map_iff in Hin as (x & Hx & Hin).
    apply list_elem_of_In, list_elem_of_filter in Hin as [_ Hin].
    rewrite <- Hx. apply list_elem_of_In, in_map, list_elem_of_In. done.
  - rewrite filter_cons_False by done. auto.
Qed.

Lemma NoDup_map_snoc {A} (key : A → string) (l : list A) (x : A) :
  NoDup (map key l) →
  existsb (λ y, String.eqb (key y) (key x)) l = false →
  NoDup (map key (l ++ [x])).
Proof.
  intros Hnd Hex. rewrite map_app. apply NoDup_app. split; [done|].
  split; [|apply NoDup_singleton].
  intros k Hk Hk'. apply list_elem_of_singleton in Hk'. subst k.
  apply list_elem_of_In, in_map_iff in Hk as (y & Hy & Hin).
  apply not_true_iff_false in Hex. apply Hex, existsb_exists.
  exists y. split; [done|]. by apply String.eqb_eq.
Qed.

Lemma insert_user_invariant r d d' :
  insert_user r d = inr d' → store_invariant d → store_invariant d'.
Proof.
  unfold insert_user. destruct (existsb _ (users d)) eqn:Hex; [discriminate|].
  intros [= <-] (Hfk & Hu & Hs & Hm). repeat split; try done. cbn [users].
  apply NoDup_map_snoc; [done|].
  apply not_true_iff_false. intros Hex'. apply not_true_iff_false in Hex. apply Hex.
  apply existsb_exists in Hex' as (u & Hin & Heq). apply existsb_exists.
  exists u. split; [done|]. by rewrite Heq.
Qed.

Lemma insert_session_invariant r d d' :
  insert_session r d = inr d' → store_invariant d → store_invariant d'.
Proof.
  unfold insert_session. destruct (existsb _ (chat_sessions d)) eqn:Hex; [discriminate|].
  destruct (foreign_keys d && _); [discriminate|]. cbn [orb].
  intros [= <-] (Hfk & Hu & Hs & Hm). repeat split; try done. cbn [chat_sessions].
  by apply NoDup_map_snoc.
Qed.

Lemma signup_invariant now draws req d :
  store_invariant d → store_invariant (Auth.signup now draws req d).2.
Proof.
  intros Hinv. unfold Auth.signup.
  repeat (case_match; try done).
  cbn [snd]. by eapply insert_user_invariant.
Qed.

Lemma update_users_invariant (f : Users.row → Users.row) d :
  (∀ u, Users.id (f u) = Users.id u) →
  store_invariant d →
  store_invariant {| foreign_keys := foreign_keys d; users := map f (users d);
                     chat_sessions := chat_sessions d; messages := messages d |}.
Proof.
  intros Hf (Hfk & Hu & Hs & Hm). repeat split; try done. cbn [users].
  rewrite map_map. by rewrite (map_ext _ Users.id Hf).
Qed.

Lemma update_sessions_invariant (f : ChatSessions.row → ChatSessions.row) d :
  (∀ s, ChatSessions.id (f s) = ChatSessions.id s) →
  store_invariant d →
  store_invariant {| foreign_keys := foreign_keys d; users := users d;
                     chat_sessions := map f (chat_sessions d); messages := messages d |}.
Proof.
  intros Hf (Hfk & Hu & Hs & Hm). repeat split; try done. cbn [chat_sessions].
  rewrite map_map. by rewrite (map_ext _ ChatSessions.id Hf).
Qed.

Lemma login_invariant now draws req st :
  store_invariant (db st) → store_invariant (db (Auth.login now draws req st).2).
Proof.
  intros Hinv. unfold Auth.login.
  repeat (case_match; try done).
  cbn [snd db]. apply update_users_invariant; [|done].
  intros u. by destruct (String.eqb _ _).
Qed.

Lemma logout_invariant userId d :
  store_invariant d → store_invariant (Auth.logout userId d).2.
Proof.
  intros Hinv. unfold Auth.logout.
  repeat (case_match; try done).
  cbn [snd]. apply update_users_invariant; [|done].
  intros u. by destruct (String.eqb _ _).
Qed.

Lemma createSession_invariant now seed req d :
  store_invariant d → store_invariant (History.createSession now seed req d).2.
Proof.
  intros Hinv. unfold History.createSession.
  repeat (case_match; try done).
  cbn [snd]. by eapply insert_session_invariant.
Qed.

Lemma saveMessage_invariant now seed req d :
  store_invariant d → store_invariant (History.saveMessage now seed req d).2.
Proof.
  intros (Hfk & Hu & Hs & Hm).
  pose proof (saveMessage_ids_NoDup now seed req d Hm) as Hm'.
  destruct (decide (valid_message req)) as [Hv|Hv].
  - destruct (saveMessage_store now seed req d Hv) as (_ & _ & Hsess & Husers & Hfk').
    repeat split; [congruence|congruence| |done].
    rewrite Hsess, map_map.
    rewrite (map_ext _ ChatSessions.id); [done|].
    intros s. by destruct (String.eqb _ _).
  - rewrite saveMessage_invalid by done. by repeat split.
Qed.

Lemma updateSessionTitle_invariant now sid title d :
  store_invariant d → store_invariant (History.updateSessionTitle now sid title d).2.
Proof.
  intros Hinv. unfold History.updateSessionTitle.
  repeat (case_match; try done).
  cbn [snd]. apply update_sessions_invariant; [|done].
  intros row. by destruct (String.eqb _ _).
Qed.

Lemma delete_sessions_invariant doomed d :
  store_invariant d → store_invariant (delete_sessions doomed d).
Proof.
  intros (Hfk & Hu & Hs & Hm). unfold delete_sessions.
  repeat split; cbn [foreign_keys users chat_sessions messages]; try done.
  - by apply NoDup_map_filter.
  - by rewrite Hfk.
Qed.

(** In every state of the process the primary keys are unique and the
    connection does not enforce foreign keys. *)
Lemma reachable_invariant st : reachable st → store_invariant (db st).
Proof.
  induction 1 as [|st now draws rq _ IH].
  - repeat split; cbn; constructor.
  - destruct rq; cbn [handle fst snd db]; try done.
    + by apply signup_invariant.
    + by apply login_invariant.
    + by apply logout_invariant.
    + by apply createSession_invariant.
    + by apply saveMessage_invariant.
    + by apply updateSessionTitle_invariant.
    + by apply delete_sessions_invariant.
    + by apply delete_sessions_invariant.
Qed.

(** So in no state of the process does a delete of sessions remove a
    message. *)
Lemma reachable_delete_keeps_messages st sid uid :
  reachable st →
  messages (History.deleteSession sid (db st)).2 = messages (db st)
  ∧ messages (History.clearUserData uid (db st)).2 = messages (db st).
Proof.
  intros [Hoff _]%reachable_invariant.
  split; by apply delete_sessions_unenforced.
Qed.

End Invariants.

(* ================================================================== *)
(** * The reference codec round-trips *)
(* ================================================================== *)

Section Codec.
Import Reference.

Lemma length_append (a b : string) :
  String.length (a +:+ b) = (String.length a + String.length b)%nat.
Proof. induction a as [|c a IH]; [done|]. rewrite append_cons. simpl. by rewrite IH. Qed.

(** ** String literals *)

Lemma unescape_quote x :
  unescape (String backslash (String quote x))
  = match unescape x with Some (str, r) => Some (String quote str, r) | None => None end.
Proof. reflexivity. Qed.

Lemma unescape_backslash x :
  unescape (String backslash (String backslash x))
  = match unescape x with Some (str, r) => Some (String backslash str, r) | None => None end.
Proof. reflexivity. Qed.

Lemma unescape_control c x :
  (N_of_ascii c <? 32)%N = true →
  unescape (String backslash (String "u" (hex4 (N_of_ascii c) +:+ x)))
  = match unescape x with Some (str, r) => Some (String c str, r) | None => None end.
Proof.
  destruct c as [[] [] [] [] [] [] [] []]; intros Hc;
    first [discriminate Hc | reflexivity].
Qed.

Lemma unescape_plain c x :
  Ascii.eqb c quote = false → Ascii.eqb c backslash = false →
  (N_of_ascii c <? 32)%N = false →
  unescape (String c x)
  = match unescape x with Some (str, r) => Some (String c str, r) | None => None end.
Proof. intros H1 H2 H3. simpl. by rewrite H1, H2, H3. Qed.

Lemma unescape_escape s rest :
  unescape (escape s +:+ String quote rest) = Some (s, rest).
Proof.
  induction s as [|c s IH].
  - reflexivity.
  - cbn [escape].
    destruct (Ascii.eqb c quote) eqn:Hq.
    { apply Ascii.eqb_eq in Hq. subst c.
      rewrite !append_cons, unescape_quote, IH. done. }
    destruct (Ascii.eqb c backslash) eqn:Hb.
    { apply Ascii.eqb_eq in Hb. subst c.
      rewrite !append_cons, unescape_backslash, IH. done. }
    destruct (N_of_ascii c <? 32)%N eqn:Hc.
    { rewrite !append_cons, append_assoc, unescape_control, IH by done. done. }
    rewrite append_cons, unescape_plain, IH by done. done.
Qed.


(** ** Numbers *)

Lemma digits_of_uint d : every Regex.is_digit (NilEmpty.string_of_uint d) = true.
Proof. induction d; simpl; auto. Qed.

Lemma span_digits_append ds rest :
  every Regex.is_digit ds = true → delimited rest →
  span_digits (ds +:+ rest) = (ds, rest).
Proof.
  intros Hds Hrest. induction ds as [|c ds IH].
  - rewrite append_nil_l. destruct rest as [|c r]; [done|].
    simpl in *. by rewrite Hrest.
  - simpl in Hds. apply andb_true_iff in Hds as [Hc Hds].
    rewrite append_cons. simpl. by rewrite Hc, IH.
Qed.

Lemma digit_not_minus c : Regex.is_digit c = true → Ascii.eqb c "-" = false.
Proof. destruct c as [[] [] [] [] [] [] [] []]; intros Hc; first [discriminate Hc | reflexivity]. Qed.

Lemma parse_number_uint d rest :
  d ≠ Decimal.Nil → delimited rest →
  parse_number (NilEmpty.string_of_uint d +:+ rest)
  = Some (JNum (Z.of_int (Decimal.Pos d)), rest).
Proof.
  intros Hd Hrest. unfold parse_number.
  pose proof (digits_of_uint d) as Hds.
  destruct (NilEmpty.string_of_uint d) as [|c ds] eqn:Hstr; [by destruct d|].
  rewrite append_cons.
  assert (Hc : Regex.is_digit c = true) by (simpl in Hds; by apply andb_true_iff in Hds as []).
  rewrite (digit_not_minus c Hc).
  rewrite <- append_cons, span_digits_append by done.
  rewrite append_nil_l, <- Hstr.
  replace (NilEmpty.string_of_uint d) with (NilZero.string_of_int (Decimal.Pos d))
    by (by destruct d).
  rewrite NilZero.isi by (intros [=]; done).
  by destruct d.
Qed.


Lemma parse_number_neg d rest :
  d ≠ Decimal.Nil → delimited rest →
  parse_number (String "-" (NilEmpty.string_of_uint d) +:+ rest)
  = Some (JNum (Z.of_int (Decimal.Neg d)), rest).
Proof.
  intros Hd Hrest. unfold parse_number. rewrite append_cons.
  change (Ascii.eqb "-" "-") with true. cbv iota.
  rewrite span_digits_append by (done || apply digits_of_uint).
  replace (String "-" "" +:+ NilEmpty.string_of_uint d)
    with (NilZero.string_of_int (Decimal.Neg d)) by (by destruct d).
  rewrite NilZero.isi by (intros [=]; done).
  by destruct d.
Qed.

Lemma parse_number_number n rest :
  delimited rest → parse_number (number n +:+ rest) = Some (JNum n, rest).
Proof.
  intros Hrest. unfold number. rewrite <- (DecimalZ.of_to n) at 2.
  destruct n as [|p|p]; cbn [Z.to_int NilZero.string_of_int].
  - apply (parse_number_uint (Decimal.D0 Decimal.Nil)); done.
  - pose proof (Unsigned.to_uint_nonnil p) as Hp.
    replace (NilZero.string_of_uint (Pos.to_uint p))
      with (NilEmpty.string_of_uint (Pos.to_uint p)) by (by destruct (Pos.to_uint p)).
    by apply parse_number_uint.
  - pose proof (Unsigned.to_uint_nonnil p) as Hp.
    replace (NilZero.string_of_uint (Pos.to_uint p))
      with (NilEmpty.string_of_uint (Pos.to_uint p)) by (by destruct (Pos.to_uint p)).
    by apply parse_number_neg.
Qed.

(** The first character of a number. *)
Lemma number_head n :
  ∃ c s, number n = String c s ∧ (Regex.is_digit c || Ascii.eqb c "-") = true.
Proof.
  unfold number. destruct n as [|p|p]; cbn [Z.to_int NilZero.string_of_int].
  - by exists "0"%char, "".
  - pose proof (Unsigned.to_uint_nonnil p) as Hp.
    pose proof (digits_of_uint (Pos.to_uint p)) as Hds.
    destruct (Pos.to_uint p) eqn:Hu; try done; simpl in *; eauto.
  - by eexists "-"%char, _.
Qed.


(** ** Values *)

Lemma join_cons_cons a b l : join (a :: b :: l) = a +:+ "," +:+ join (b :: l).
Proof. reflexivity. Qed.

Lemma stringify_arr items :
  stringify (JArr items) = "[" +:+ join (map stringify items) +:+ "]".
Proof.
  cbn [stringify]. do 2 f_equal.
  induction items as [|x items IH]; [done|].
  destruct items as [|y items]; [done|].
  rewrite !map_cons, join_cons_cons, <- map_cons, <- IH. reflexivity.
Qed.

Lemma stringify_obj fields :
  stringify (JObj fields) = "{" +:+ join (map member fields) +:+ "}".
Proof.
  cbn [stringify]. do 2 f_equal.
  induction fields as [|[k x] fields IH]; [done|].
  destruct fields as [|[k' y] fields]; [done|].
  rewrite !map_cons, join_cons_cons, <- map_cons, <- IH.
  unfold member. cbn [fst snd]. rewrite !append_assoc. reflexivity.
Qed.

Lemma size_arr items : size (JArr items) = S (sizes items).
Proof. reflexivity. Qed.

Lemma size_obj fields : size (JObj fields) = S (sizes (map snd fields)).
Proof.
  cbn [size]. f_equal.
  induction fields as [|[k x] fields IH]; [done|]. cbn [map snd sizes]. by rewrite <- IH.
Qed.

(** Induction on values, through the lists they nest. *)
Lemma json_induction (P : json → Prop) :
  P JNull → (∀ b, P (JBool b)) → (∀ n, P (JNum n)) → (∀ s, P (JStr s)) →
  (∀ items, Forall P items → P (JArr items)) →
  (∀ fields, Forall (λ kv, P kv.2) fields → P (JObj fields)) →
  ∀ v, P v.
Proof.
  intros Hnull Hbool Hnum Hstr Harr Hobj.
  fix IH 1. intros v. destruct v as [|b|n|s|items|fields].
  - exact Hnull.
  - apply Hbool.
  - apply Hnum.
  - apply Hstr.
  - apply Harr. induction items as [|x items IHl]; constructor; [apply IH|exact IHl].
  - apply Hobj. induction fields as [|[k x] fields IHl]; constructor; [apply IH|exact IHl].
Qed.

(** One step of each parser. *)
Lemma parse_value_quote f x :
  parse_value (S f) (String quote x) = '(str, r) ← unescape x; Some (JStr str, r).
Proof. reflexivity. Qed.

Lemma parse_value_bracket f x :
  parse_value (S f) (String "[" x)
  = match skip_ws x with
    | EmptyString => None
    | String c r =>
        if Ascii.eqb c "]" then Some (JArr [], r)
        else '(items, r') ← parse_items f x; Some (JArr items, r')
    end.
Proof. reflexivity. Qed.

Lemma parse_value_brace f x :
  parse_value (S f) (String "{" x)
  = match skip_ws x with
    | EmptyString => None
    | String c r =>
        if Ascii.eqb c "}" then Some (JObj [], r)
        else '(fields, r') ← parse_members f x; Some (JObj fields, r')
    end.
Proof. reflexivity. Qed.

Lemma parse_value_number f c x :
  (Regex.is_digit c || Ascii.eqb c "-") = true →
  parse_value (S f) (String c x) = parse_number (String c x).
Proof.
  destruct c as [[] [] [] [] [] [] [] []]; intros Hc;
    first [discriminate Hc | reflexivity].
Qed.

Lemma parse_items_step f s :
  parse_items (S f) s
  = '(v, r) ← parse_value f s;
    match skip_ws r with
    | EmptyString => None
    | String c r' =>
        if Ascii.eqb c "," then '(vs, r'') ← parse_items f r'; Some (v :: vs, r'')
        else if Ascii.eqb c "]" then Some ([v], r')
        else None
    end.
Proof. reflexivity. Qed.

Lemma parse_members_quote f x :
  parse_members (S f) (String quote x)
  = '(k, r) ← unescape x;
    match skip_ws r with
    | EmptyString => None
    | String c1 r1 =>
        if Ascii.eqb c1 ":" then
          '(v, r2) ← parse_value f r1;
          match skip_ws r2 with
          | EmptyString => None
          | String c3 r3 =>
              if Ascii.eqb c3 "," then
                '(kvs, r4) ← parse_members f r3; Some ((k, v) :: kvs, r4)
              else if Ascii.eqb c3 "}" then Some ([(k, v)], r3)
              else None
          end
        else None
    end.
Proof. reflexivity. Qed.

Lemma number_opens c :
  (Regex.is_digit c || Ascii.eqb c "-") = true → opens_value c.
Proof.
  destruct c as [[] [] [] [] [] [] [] []]; intros Hc;
    first [discriminate Hc | by repeat split].
Qed.

Lemma stringify_head v : ∃ c s, stringify v = String c s ∧ opens_value c.
Proof.
  destruct v as [|[]|n|s|items|fields].
  - by exists "n"%char, "ull".
  - by exists "t"%char, "rue".
  - by exists "f"%char, "alse".
  - destruct (number_head n) as (c & s & Hn & Hc). exists c, s.
    split; [done|]. by apply number_opens.
  - eexists quote, _. split; [reflexivity|done].
  - rewrite stringify_arr. eexists "["%char, _. split; [reflexivity|done].
  - rewrite stringify_obj. eexists "{"%char, _. split; [reflexivity|done].
Qed.

Lemma skip_ws_head c s : is_ws c = false → skip_ws (String c s) = String c s.
Proof. intros Hc. simpl. by rewrite Hc. Qed.


Lemma parse_items_join items :
  Forall parses_back items → items ≠ [] →
  ∀ fuel rest, (sizes items ≤ fuel)%nat →
    parse_items fuel (join (map stringify items) +:+ String "]" rest) = Some (items, rest).
Proof.
  induction 1 as [|x items Hx Hitems IH]; [done|]. intros _ fuel rest Hfuel.
  cbn [sizes] in Hfuel. destruct fuel as [|f]; [lia|]. rewrite parse_items_step.
  destruct items as [|y items'].
  - cbn [map join]. rewrite Hx by (done || lia). reflexivity.
  - rewrite !map_cons, join_cons_cons, <- map_cons, !append_assoc.
    rewrite Hx by (done || lia). cbn [mbind option_bind].
    change (skip_ws ("," +:+ join (map stringify (y :: items')) +:+ String "]" rest))
      with (String "," (join (map stringify (y :: items')) +:+ String "]" rest)).
    cbv iota. change (Ascii.eqb "," ",") with true. cbv iota.
    rewrite IH by (done || lia). reflexivity.
Qed.

Lemma member_cons k v tail :
  member (k, v) +:+ tail
  = String quote (escape k +:+ String quote (String ":" (stringify v +:+ tail))).
Proof.
  unfold member, literal. cbn [fst snd].
  rewrite !append_cons, !append_assoc. by rewrite !append_cons, !append_nil_l.
Qed.

Lemma parse_members_join fields :
  Forall (λ kv, parses_back kv.2) fields → fields ≠ [] →
  ∀ fuel rest, (sizes (map snd fields) ≤ fuel)%nat →
    parse_members fuel (join (map member fields) +:+ String "}" rest) = Some (fields, rest).
Proof.
  induction 1 as [|[k x] fields Hx Hfields IH]; [done|]. intros _ fuel rest Hfuel.
  cbn [map snd sizes] in Hfuel. cbn [snd] in Hx.
  destruct fuel as [|f]; [lia|].
  destruct fields as [|kv fields'].
  - cbn [map join]. rewrite member_cons, parse_members_quote, unescape_escape.
    cbn [mbind option_bind].
    change (skip_ws (String ":" (stringify x +:+ String "}" rest)))
      with (String ":" (stringify x +:+ String "}" rest)).
    cbv iota. change (Ascii.eqb ":" ":") with true. cbv iota.
    rewrite Hx by (done || lia). reflexivity.
  - rewrite !map_cons, join_cons_cons, <- map_cons, !append_assoc.
    rewrite member_cons, parse_members_quote, unescape_escape.
    cbn [mbind option_bind].
    match goal with
    | |- context [skip_ws (String ":" ?t)] =>
        change (skip_ws (String ":" t)) with (String ":" t)
    end.
    cbv iota. change (Ascii.eqb ":" ":") with true. cbv iota.
    rewrite Hx by (done || lia). cbn [mbind option_bind].
    match goal with
    | |- context [skip_ws ("," +:+ ?t)] =>
        change (skip_ws ("," +:+ t)) with (String "," t)
    end.
    cbv iota. change (Ascii.eqb "," ",") with true. cbv iota.
    rewrite IH by (done || lia). reflexivity.
Qed.

Lemma join_head items tail :
  items ≠ [] →
  ∃ c s, join (map stringify items) +:+ tail = String c s ∧ opens_value c.
Proof.
  destruct items as [|x items]; [done|]. intros _.
  destruct (stringify_head x) as (c & s & Hx & Hc).
  destruct items as [|y items].
  - cbn [map join]. rewrite Hx, append_cons. eauto.
  - rewrite !map_cons, join_cons_cons, Hx, !append_cons. eauto.
Qed.

Lemma stringify_parses_back v : parses_back v.
Proof.
  induction v as [|b|n|s|items IH|fields IH] using json_induction;
    intros fuel rest Hfuel Hrest.
  - destruct fuel as [|f]; [simpl in Hfuel; lia|]. reflexivity.
  - destruct fuel as [|f]; [simpl in Hfuel; lia|]. by destruct b.
  - destruct fuel as [|f]; [simpl in Hfuel; lia|].
    cbn [stringify]. destruct (number_head n) as (c & s & Hn & Hc).
    rewrite Hn, append_cons, parse_value_number by done.
    rewrite <- append_cons, <- Hn. by apply parse_number_number.
  - destruct fuel as [|f]; [simpl in Hfuel; lia|].
    cbn [stringify]. unfold literal.
    rewrite append_cons, append_assoc, append_cons, append_nil_l.
    by rewrite parse_value_quote, unescape_escape.
  - rewrite size_arr in Hfuel. destruct fuel as [|f]; [lia|].
    rewrite stringify_arr.
    change ("[" +:+ join (map stringify items) +:+ "]")
      with (String "[" (join (map stringify items) +:+ "]")).
    rewrite append_cons, append_assoc.
    change ("]" +:+ rest) with (String "]" rest).
    rewrite parse_value_bracket.
    destruct (decide (items = [])) as [->|Hne]; [reflexivity|].
    destruct (join_head items (String "]" rest) Hne) as (c & s & Hhead & Hws & Hb & _).
    rewrite Hhead at 1. rewrite skip_ws_head by done. rewrite Hb.
    rewrite parse_items_join by (done || lia). reflexivity.
  - rewrite size_obj in Hfuel. destruct fuel as [|f]; [lia|].
    rewrite stringify_obj.
    change ("{" +:+ join (map member fields) +:+ "}")
      with (String "{" (join (map member fields) +:+ "}")).
    rewrite append_cons, append_assoc.
    change ("}" +:+ rest) with (String "}" rest).
    rewrite parse_value_brace.
    destruct fields as [|[k x] fields'] eqn:Hfields; [reflexivity|].
    rewrite <- Hfields in *.
    assert (Hne : fields ≠ []) by (rewrite Hfields; done).
    assert (Hhead : ∃ s, join (map member fields) +:+ String "}" rest = String quote s).
    { rewrite Hfields. destruct fields' as [|kv fields''].
      - cbn [map join]. rewrite member_cons. eauto.
      - rewrite !map_cons, join_cons_cons, !append_assoc, member_cons. eauto. }
    destruct Hhead as [s Hhead]. rewrite Hhead at 1.
    change (skip_ws (String quote s)) with (String quote s). cbv iota.
    change (Ascii.eqb quote "}") with false. cbv iota.
    rewrite parse_members_join by (done || lia). reflexivity.
Qed.


(** ** Enough fuel *)

Lemma sizes_le_join items :
  Forall (λ v, (size v ≤ 2 * String.length (stringify v))%nat) items →
  (sizes items ≤ 2 * String.length (join (map stringify items)) + 2)%nat.
Proof.
  induction 1 as [|x items Hx _ IH]; [simpl; lia|].
  destruct items as [|y items].
  - cbn [map join sizes]. lia.
  - rewrite !map_cons, join_cons_cons, <- map_cons, !length_append.
    cbn [sizes] in *. change (String.length ",") with 1%nat. lia.
Qed.

Lemma sizes_le_members fields :
  Forall (λ kv, (size kv.2 ≤ 2 * String.length (stringify kv.2))%nat) fields →
  (sizes (map snd fields) ≤ 2 * String.length (join (map member fields)) + 2)%nat.
Proof.
  induction 1 as [|[k x] fields Hx _ IH]; [simpl; lia|]. cbn [snd] in Hx.
  destruct fields as [|kv fields].
  - cbn [map join sizes snd]. unfold member. cbn [fst snd]. rewrite !length_append.
    change (String.length ":") with 1%nat. lia.
  - rewrite !(map_cons member), join_cons_cons, <- (map_cons member), !length_append.
    unfold member at 1. cbn [fst snd]. rewrite !length_append.
    change (String.length ":") with 1%nat. change (String.length ",") with 1%nat.
    cbn [map sizes snd] in *. lia.
Qed.

Lemma size_le_length v : (size v ≤ 2 * String.length (stringify v))%nat.
Proof.
  induction v as [|b|n|s|items IH|fields IH] using json_induction.
  - simpl. lia.
  - destruct b; simpl; lia.
  - destruct (stringify_head (JNum n)) as (c & s & -> & _). simpl. lia.
  - destruct (stringify_head (JStr s)) as (c & s' & -> & _). simpl. lia.
  - rewrite size_arr, stringify_arr, !length_append.
    pose proof (sizes_le_join items IH). simpl. lia.
  - rewrite size_obj, stringify_obj, !length_append.
    pose proof (sizes_le_members fields IH). simpl. lia.
Qed.

(** The reference parser reads back what the reference printer writes. *)
Lemma parse_stringify v : parse (stringify v) = Some v.
Proof.
  unfold parse.
  pose proof (stringify_parses_back v (2 * String.length (stringify v) + 2)%nat "") as Hback.
  rewrite append_nil_r in Hback. rewrite Hback; [done| |done].
  pose proof (size_le_length v). lia.
Qed.

Lemma stringify_not_empty v : truthy_str (stringify v) = true.
Proof. by destruct (stringify_head v) as (c & s & -> & _). Qed.

(** So on the reference runtime every sub-field round-trips. *)
Lemma reference_round_trips (x : option json) : round_trips (H := runtime) x.
Proof.
  unfold round_trips. destruct (kept x) as [v|]; [|done].
  split; [apply parse_stringify|apply stringify_not_empty].
Qed.

End Codec.

(* ================================================================== *)
(** * Every stored message reads back *)
(* ================================================================== *)

Section Readable.
Context `{Runtime}.
Implicit Types (d : Db) (st : Server).

Lemma signup_messages now draws req d :
  messages (Auth.signup now draws req d).2 = messages d.
Proof.
  unfold Auth.signup. repeat (case_match; try done).
  unfold insert_user in *. case_match; simplify_eq. done.
Qed.

Lemma login_messages now draws req st :
  messages (db (Auth.login now draws req st).2) = messages (db st).
Proof. unfold Auth.login. repeat (case_match; try done). Qed.

Lemma logout_messages userId d :
  messages (Auth.logout userId d).2 = messages d.
Proof. unfold Auth.logout. repeat (case_match; try done). Qed.

Lemma createSession_messages now seed req d :
  messages (History.createSession now seed req d).2 = messages d.
Proof.
  unfold History.createSession. repeat (case_match; try done).
  unfold insert_session in *. case_match; simplify_eq. done.
Qed.

Lemma updateSessionTitle_messages now sid title d :
  messages (History.updateSessionTitle now sid title d).2 = messages d.
Proof. unfold History.updateSessionTitle. repeat (case_match; try done). Qed.

Lemma delete_sessions_readable doomed d :
  readable d → readable (delete_sessions doomed d).
Proof.
  unfold readable, delete_sessions. cbn [messages]. intros Hd.
  destruct (foreign_keys d); [|done].
  apply Forall_forall. intros r Hr. apply list_elem_of_filter in Hr as [_ Hr].
  rewrite Forall_forall in Hd. auto.
Qed.

(** With a codec that round-trips, the JSON columns of every state of the
    process parse, so no listing fails on them. *)
Lemma reachable_readable st :
  (∀ x : option json, round_trips x) →
  reachable st → readable (db st).
Proof.
  intros Hcodec. induction 1 as [|st now draws rq _ IH].
  - constructor.
  - destruct rq as [body|body|req|uid|uid|sid|body|body|sid title|sid|uid];
      cbn [handle fst snd db]; try done; unfold readable in *.
    + by rewrite signup_messages.
    + by rewrite login_messages.
    + by rewrite logout_messages.
    + by rewrite createSession_messages.
    + destruct (decide (valid_message body)) as [Hv|Hv].
      * by apply saveMessage_readable.
      * by rewrite saveMessage_invalid.
    + by rewrite updateSessionTitle_messages.
    + by apply delete_sessions_readable.
    + by apply delete_sessions_readable.
Qed.

End Readable.

(** On the reference runtime that is every state. *)
Lemma reference_reachable_readable st :
  reachable (H := Reference.runtime) st → readable (H := Reference.runtime) (db st).
Proof. apply reachable_readable. apply reference_round_trips. Qed.

(* ================================================================== *)
(** * Identifiers and tokens *)
(* ================================================================== *)

Section Identifiers.

Lemma randomBytes_length n seed : length (randomBytes n seed) = n.
Proof. revert seed. induction n as [|n IH]; intros seed; simpl; [done|by rewrite IH]. Qed.

Lemma randomBytes_range n seed : Forall (λ b, 0 ≤ b < 256) (randomBytes n seed).
Proof.
  revert seed. induction n as [|n IH]; intros seed; simpl; constructor; [|apply IH].
  apply Z.mod_pos_bound. lia.
Qed.

Lemma toHex_length bytes : String.length (toHex bytes) = (2 * length bytes)%nat.
Proof. induction bytes as [|b bytes IH]; simpl; [done|]. rewrite IH. lia. Qed.

Lemma nibble_cases d : 0 ≤ d < 16 →
  d = 0 ∨ d = 1 ∨ d = 2 ∨ d = 3 ∨ d = 4 ∨ d = 5 ∨ d = 6 ∨ d = 7
  ∨ d = 8 ∨ d = 9 ∨ d = 10 ∨ d = 11 ∨ d = 12 ∨ d = 13 ∨ d = 14 ∨ d = 15.
Proof. lia. Qed.

Lemma hex_digit_is_hex d : 0 ≤ d < 16 → is_hex (hex_digit d) = true.
Proof.
  intros Hd. apply nibble_cases in Hd.
  repeat (destruct Hd as [->|Hd]; [vm_compute; reflexivity|]). subst d. vm_compute. reflexivity.
Qed.

Lemma hex_digit_inj d e : 0 ≤ d < 16 → 0 ≤ e < 16 → hex_digit d = hex_digit e → d = e.
Proof.
  intros Hd He. apply nibble_cases in Hd, He.
  repeat (destruct Hd as [->|Hd]);
    repeat (destruct He as [->|He]); subst; vm_compute; intros Heq;
    first [reflexivity|discriminate Heq].
Qed.

Lemma toHex_is_hex bytes :
  Forall (λ b, 0 ≤ b < 256) bytes → every is_hex (toHex bytes) = true.
Proof.
  induction 1 as [|b bytes Hb _ IH]; simpl; [done|].
  rewrite IH, !hex_digit_is_hex; [done| |].
  - apply Z.mod_pos_bound. lia.
  - split; [apply Z.div_pos; lia|apply Z.div_lt_upper_bound; lia].
Qed.

Lemma toHex_inj (bs cs : list Z) :
  Forall (λ b, 0 ≤ b < 256) bs → Forall (λ b, 0 ≤ b < 256) cs →
  length bs = length cs →
  toHex bs = toHex cs → bs = cs.
Proof.
  intros Hbs. revert cs. induction Hbs as [|b bs Hb _ IH]; intros cs Hcs Hlen Heq.
  - by destruct cs.
  - destruct Hcs as [|c cs Hc Hcs]; [done|]. simpl in Hlen, Heq.
    injection Heq as Hhi Hlo Hrest.
    apply hex_digit_inj in Hhi, Hlo;
      try (apply Z.mod_pos_bound; lia);
      try (split; [apply Z.div_pos; lia|apply Z.div_lt_upper_bound; lia]).
    f_equal; [|apply IH; [done|lia|done]].
    rewrite (Z.div_mod b 16), (Z.div_mod c 16) by lia. congruence.
Qed.

Lemma slice0_all n s : (String.length s ≤ n)%nat → slice0 n s = s.
Proof.
  unfold slice0. revert n. induction s as [|c s IH]; intros n Hn.
  - by destruct n.
  - destruct n as [|n]; simpl in *; [lia|]. rewrite IH; [done|lia].
Qed.

Lemma generateUUID_toHex seed : generateUUID seed = toHex (randomBytes 16 seed).
Proof.
  unfold generateUUID. apply slice0_all.
  rewrite toHex_length, randomBytes_length. lia.
Qed.

Lemma generateUUID_length seed : String.length (generateUUID seed) = 32%nat.
Proof. by rewrite generateUUID_toHex, toHex_length, randomBytes_length. Qed.

Lemma generateUUID_filled seed : generateUUID seed ≠ "".
Proof. rewrite generateUUID_toHex. discriminate. Qed.

(** X1. [generateUUID] returns the 16 random bytes in hexadecimal: 32
    characters, each in [[0-9a-f]]; the [slice(0, 36)] cuts nothing off, and
    the result is never the empty string. *)
Theorem generateUUID_hex32 (seed : Z) :
  generateUUID seed = toHex (randomBytes 16 seed)
  ∧ String.length (generateUUID seed) = 32%nat
  ∧ every is_hex (generateUUID seed) = true
  ∧ generateUUID seed ≠ "".
Proof.
  split; [apply generateUUID_toHex|]. split; [apply generateUUID_length|].
  split; [|apply generateUUID_filled].
  rewrite generateUUID_toHex. apply toHex_is_hex, randomBytes_range.
Qed.

(** X2. Two calls of [generateUUID] return the same identifier exactly
    when they drew the same 16 bytes: the hexadecimal rendering loses
    nothing, so identifiers collide only when the random bytes do. *)
Theorem generateUUID_collision (seed1 seed2 : Z) :
  generateUUID seed1 = generateUUID seed2 ↔ randomBytes 16 seed1 = randomBytes 16 seed2.
Proof.
  rewrite !generateUUID_toHex. split; [|by intros ->].
  apply toHex_inj; try apply randomBytes_range. by rewrite !randomBytes_length.
Qed.

(** X3. [generateToken] returns 32 random bytes in hexadecimal: 64
    characters, each in [[0-9a-f]], and two tokens are equal exactly when
    the 32 bytes drawn are. *)
Theorem generateToken_hex64 (seed : Z) :
  String.length (generateToken seed) = 64%nat
  ∧ every is_hex (generateToken seed) = true
  ∧ ∀ seed', generateToken seed = generateToken seed'
             ↔ randomBytes 32 seed = randomBytes 32 seed'.
Proof.
  unfold generateToken. split; [|split].
  - by rewrite toHex_length, randomBytes_length.
  - apply toHex_is_hex, randomBytes_range.
  - intros seed'. split; [|by intros ->].
    apply toHex_inj; try apply randomBytes_range. by rewrite !randomBytes_length.
Qed.

End Identifiers.

(* ================================================================== *)
(** * The limiter and [/login], further *)
(* ================================================================== *)

Section LimiterIsolation.

(** The verdict for an identifier and its entry afterwards depend on the
    map through the entry of that identifier only. *)
Lemma checkRateLimit_lookup now identifier (m1 m2 : gmap string Attempt) :
  m1 !! identifier = m2 !! identifier →
  (checkRateLimit now identifier m1).1 = (checkRateLimit now identifier m2).1
  ∧ (checkRateLimit now identifier m1).2 !! identifier
    = (checkRateLimit now identifier m2).2 !! identifier.
Proof.
  intros Heq. unfold checkRateLimit. rewrite Heq.
  destruct (m2 !! identifier) as [a|] eqn:Hm; simpl.
  - destruct (_ >? _); simpl; [by rewrite !lookup_insert_eq|].
    destruct (_ >=? _); simpl; [by rewrite Heq|by rewrite !lookup_insert_eq].
  - by rewrite !lookup_insert_eq.
Qed.

(** X4. The limiter keeps one counter per identifier, compared as the
    exact string: a call for one identifier leaves the entry of every other
    identifier, and so the verdict of its next call, as they were.  A call
    that is denied changes nothing at all. *)
Theorem checkRateLimit_other_identifier (identifier other : string) (now later : Z)
    (m : gmap string Attempt) :
  other ≠ identifier →
  (checkRateLimit now identifier m).2 !! other = m !! other
  ∧ (checkRateLimit later other (checkRateLimit now identifier m).2).1
    = (checkRateLimit later other m).1
  ∧ (checkRateLimit later other (checkRateLimit now identifier m).2).2 !! other
    = (checkRateLimit later other m).2 !! other
  ∧ ((checkRateLimit now identifier m).1 = false → (checkRateLimit now identifier m).2 = m).
Proof.
  intros Hne.
  pose proof (checkRateLimit_frame identifier other now m Hne) as Hframe.
  split; [done|].
  destruct (checkRateLimit_lookup later other _ _ Hframe) as [Hverdict Hentry].
  split; [done|]. split; [done|].
  unfold checkRateLimit. destruct (m !! identifier) as [a|]; simpl; [|done].
  destruct (_ >? _); simpl; [done|]. by destruct (_ >=? _).
Qed.

End LimiterIsolation.

(** A call for "alice" leaves no entry for "Alice". *)
Lemma checkRateLimit_other_identifier_witness :
  (checkRateLimit 2000 "alice" ∅).2 !! "Alice" = (∅ : gmap string Attempt) !! "Alice".
Proof.
  apply (proj1 (checkRateLimit_other_identifier "alice" "Alice" 2000 3000 ∅ ltac:(discriminate))).
Defined.

Section LoginEffects.
Context `{Runtime}.

Lemma LOWER_select_user_by_username u u' d :
  LOWER u' = LOWER u → select_user_by_username u' d = select_user_by_username u d.
Proof. intros Heq. unfold select_user_by_username. by rewrite Heq. Qed.

(** X5. The limiter counts per spelling of the username while the user is
    looked up case-insensitively: when the calls under one spelling are
    denied with 429, a call under another spelling of the same username,
    with a free window of its own, is answered on its credentials, 200 with
    the user's projection when the password matches. *)
Theorem login_throttle_per_spelling (now : Z) (draws : Auth.Draws)
    (username spelling password : string) (st : Server) (user : Users.row) :
  truthy_str username = true → truthy_str spelling = true → truthy_str password = true →
  LOWER spelling = LOWER username →
  (checkRateLimit now username (loginAttempts st)).1 = false →
  window_free spelling now (loginAttempts st) →
  select_user_by_username username (db st) = Some user →
  bcrypt_compare password (Users.password_hash user) = true →
  (Auth.login now draws
     {| Auth.li_username := Some username; Auth.li_password := Some password |} st).1
  = too_many_attempts
  ∧ status (Auth.login now draws
              {| Auth.li_username := Some spelling; Auth.li_password := Some password |} st).1
    = 200
  ∧ jget "user" (body (Auth.login now draws
                         {| Auth.li_username := Some spelling;
                            Auth.li_password := Some password |} st).1)
    = Some (public_projection user).
Proof.
  intros Hu Hs Hp Hlow Hdenied Hfree Huser Hpw.
  rewrite !login_present by done.
  rewrite (LOWER_select_user_by_username username spelling) by done.
  rewrite (checkRateLimit_free spelling) by done.
  destruct (checkRateLimit now username (loginAttempts st)) as [ok la].
  simpl in Hdenied. subst ok. rewrite Huser, Hpw.
  split; [done|]. split; [done|]. cbn [fst body jget assoc String.eqb Ascii.eqb Bool.eqb].
  by rewrite user_response_projection.
Qed.

Lemma map_if_id {A} (test : A → bool) (f : A → A) (l : list A) :
  (∀ x, x ∈ l → test x = false) → map (λ x, if test x then f x else x) l = l.
Proof.
  induction l as [|a l IH]; intros Hall; simpl; [done|].
  rewrite (Hall a) by left. f_equal. apply IH. intros x Hx. apply Hall. by right.
Qed.

(** X6. What one [/login] call changes.  Answered 400 or 429 it changes
    nothing, not even the limiter; answered 401 it changes the limiter
    only.  Answered 200 it returns a fresh token and stores that token, its
    expiry thirty days on and the instant of the login in the rows of the
    matching user's identifier; every other column and every other table
    stay as they were. *)
Theorem login_effects (now : Z) (draws : Auth.Draws) (req : Auth.LoginBody) (st : Server) :
  let out := Auth.login now draws req st in
  (status out.1 = 200 ∨ status out.1 = 400 ∨ status out.1 = 401 ∨ status out.1 = 429)
  ∧ (status out.1 = 400 ∨ status out.1 = 429 → out.2 = st)
  ∧ (status out.1 = 401 → db out.2 = db st)
  ∧ (status out.1 = 200 →
     ∃ user,
       select_user_by_username (field (Auth.li_username req)) (db st) = Some user
       ∧ bcrypt_compare (field (Auth.li_password req)) (Users.password_hash user) = true
       ∧ jget "token" (body out.1) = Some (JStr (generateToken (Auth.token_seed draws)))
       ∧ jget "expiresIn" (body out.1) = Some (JNum 2592000000)
       ∧ (∀ u, u ∈ users (db out.2) → Users.id u = Users.id user →
            Users.auth_token u = Some (generateToken (Auth.token_seed draws))
            ∧ Users.token_expiry u = Some (toISOString (now + 2592000000))
            ∧ Users.last_login u = Some (CURRENT_TIMESTAMP now))
       ∧ (∀ u, Users.id u ≠ Users.id user → u ∈ users (db out.2) ↔ u ∈ users (db st))
       ∧ map forget_login (users (db out.2)) = map forget_login (users (db st))
       ∧ chat_sessions (db out.2) = chat_sessions (db st)
       ∧ messages (db out.2) = messages (db st)
       ∧ foreign_keys (db out.2) = foreign_keys (db st)).
Proof.
  cbv zeta. unfold Auth.login.
  destruct req as [[u|] [p|]]; cbn [Auth.li_username Auth.li_password field default];
    try (simpl; split; [tauto|]; split; [done|]; split; [done|]; discriminate).
  destruct (negb (truthy_str u) || negb (truthy_str p));
    [simpl; split; [tauto|]; split; [done|]; split; [done|]; discriminate|].
  assert (Hdeny : (checkRateLimit now u (loginAttempts st)).1 = false →
                  (checkRateLimit now u (loginAttempts st)).2 = loginAttempts st).
  { unfold checkRateLimit. destruct (loginAttempts st !! u) as [a|]; simpl; [|done].
    destruct (_ >? _); simpl; [done|]. by destruct (_ >=? _). }
  destruct (checkRateLimit now u (loginAttempts st)) as [[] la]; cbn [negb fst snd] in *.
  - destruct (select_user_by_username u (db st)) as [user|] eqn:Huser;
      [|simpl; split; [tauto|]; split; [intros [|]; discriminate|]; split; [done|]; discriminate].
    destruct (bcrypt_compare p (Users.password_hash user)) eqn:Hpw; cbn [negb];
      [|simpl; split; [tauto|]; split; [intros [|]; discriminate|]; split; [done|]; discriminate].
    cbn [fst snd status body db]. split; [tauto|]. split; [intros [|]; discriminate|].
    split; [discriminate|]. intros _. exists user.
    split; [done|]. split; [done|]. split; [done|]. split; [done|].
    unfold update_user_login. cbn [users chat_sessions messages foreign_keys].
    split; [|split; [|split; [|done]]].
    + intros u0 Hin Hid. apply list_elem_of_In, in_map_iff in Hin as (u1 & Heq & Hin).
      destruct (String.eqb_spec (Users.id u1) (Users.id user)) as [_|Hne].
      * by subst u0.
      * subst u0. done.
    + intros u0 Hne. rewrite !list_elem_of_In, in_map_iff. split.
      * intros (u1 & Heq & Hin).
        destruct (String.eqb_spec (Users.id u1) (Users.id user)) as [Hid|_].
        -- subst u0. simpl in Hne. done.
        -- by subst u0.
      * intros Hin. exists u0. split; [|done].
        by destruct (String.eqb_spec (Users.id u0) (Users.id user)).
    + rewrite map_map. apply map_ext. intros u0.
      by destruct (String.eqb (Users.id u0) (Users.id user)).
  - simpl. split; [tauto|]. split; [|split; [done|discriminate]].
    intros _. rewrite Hdeny by done. by destruct st.
Qed.

End LoginEffects.

(** After the six logins of "alice" the seventh is answered 429, and one as
    "ALICE" is answered 200. *)
Lemma login_throttle_per_spelling_witness :
  (Auth.login (H := Reference.runtime) 420000 sample_draws
     {| Auth.li_username := Some "alice"; Auth.li_password := Some "Valid123" |}
     throttled_server).1
  = too_many_attempts
  ∧ status (Auth.login (H := Reference.runtime) 420000 sample_draws
              {| Auth.li_username := Some "ALICE"; Auth.li_password := Some "Valid123" |}
              throttled_server).1
    = 200.
Proof.
  destruct (select_user_by_username "alice" (db throttled_server)) as [user|] eqn:Huser;
    [|vm_compute in Huser; discriminate Huser].
  destruct (login_throttle_per_spelling (H := Reference.runtime) 420000 sample_draws
              "alice" "ALICE" "Valid123" throttled_server user) as (H1 & H2 & _).
  - reflexivity.
  - reflexivity.
  - reflexivity.
  - reflexivity.
  - vm_compute. reflexivity.
  - vm_compute. exact I.
  - exact Huser.
  - vm_compute in Huser. injection Huser as <-. vm_compute. reflexivity.
  - split; [exact H1|exact H2].
Defined.

(* ================================================================== *)
(** * What [/signup] stores *)
(* ================================================================== *)

Section SignupEffects.
Context `{Runtime}.

(** What a 201 of [/signup] tells. *)
Lemma signup_201 now draws req d :
  status (Auth.signup now draws req d).1 = 201 →
  let u := field (Auth.su_username req) in
  let p := field (Auth.su_password req) in
  let n := field (Auth.su_name req) in
  let e := field (Auth.su_email req) in
  req = {| Auth.su_username := Some u; Auth.su_password := Some p;
           Auth.su_name := Some n; Auth.su_email := Some e |}
  ∧ (u ≠ "" ∧ p ≠ "" ∧ n ≠ "" ∧ e ≠ "")
  ∧ failed_check u p e = None
  ∧ select_user_by_username u d = None
  ∧ select_user_by_email e d = None
  ∧ insert_user (signup_row now draws u p n e) d = inr (Auth.signup now draws req d).2
  ∧ (Auth.signup now draws req d).1
    = {| status := 201;
         body := JObj [("user", Auth.user_response (generateUUID (Auth.uuid_seed draws))
                                  u n (Some e));
                       ("token", JStr (generateToken (Auth.token_seed draws)));
                       ("expiresIn", JNum 2592000000)] |}.
Proof.
  unfold Auth.signup, failed_check, signup_row.
  destruct req as [[u|] [p|] [n|] [e|]]; simpl; try discriminate.
  destruct (truthy_str u) eqn:Hu; simpl; [|discriminate].
  destruct (truthy_str p) eqn:Hp; simpl; [|discriminate].
  destruct (truthy_str n) eqn:Hn; simpl; [|discriminate].
  destruct (truthy_str e) eqn:He; simpl; [|discriminate].
  destruct (Regex.test_anchored Auth.emailRegex e); simpl; [|discriminate].
  destruct (String.length u <? 3)%nat; simpl; [discriminate|].
  destruct (Regex.test_anchored Auth.usernameRegex u); simpl; [|discriminate].
  destruct (String.length p <? 8)%nat; simpl; [discriminate|].
  destruct (Regex.test (Regex.Class Regex.is_lower) p); simpl; [|discriminate].
  destruct (Regex.test (Regex.Class Regex.is_upper) p); simpl; [|discriminate].
  destruct (Regex.test (Regex.Class Regex.is_digit) p); simpl; [|discriminate].
  destruct (select_user_by_username u d); [discriminate|].
  destruct (select_user_by_email e d); [discriminate|].
  change (Auth.THIRTY_DAYS) with 2592000000.
  destruct (insert_user _ d) as [c|d'] eqn:Hins; simpl; [discriminate|].
  intros _. apply truthy_str_true in Hu, Hp, Hn, He.
  repeat split; done.
Qed.

(** Every answer of [/signup] other than 201 leaves the store as it was. *)
Lemma signup_not_201 now draws req d :
  status (Auth.signup now draws req d).1 ≠ 201 → (Auth.signup now draws req d).2 = d.
Proof.
  unfold Auth.signup.
  repeat (case_match; try done).
Qed.

Lemma insert_user_inr r d d' :
  insert_user r d = inr d' →
  users d' = users d ++ [r] ∧ chat_sessions d' = chat_sessions d
  ∧ messages d' = messages d ∧ foreign_keys d' = foreign_keys d.
Proof. unfold insert_user. case_match; [done|]. intros [= <-]. done. Qed.

(** X7. What one [/signup] call changes.  Every answer other than 201
    leaves the store as it was.  A 201 appends one row to [users] and
    touches nothing else: the row holds the fields of the request, the
    bcrypt hash of the password at cost 12 and the token the response
    returns, with an expiry thirty days on (2592000000 ms, the
    [expiresIn] of the response) and no last login. *)
Theorem signup_effects (now : Z) (draws : Auth.Draws) (req : Auth.SignupBody) (d : Db) :
  let out := Auth.signup now draws req d in
  (status out.1 ≠ 201 → out.2 = d)
  ∧ (status out.1 = 201 →
     ∃ row,
       users out.2 = users d ++ [row]
       ∧ chat_sessions out.2 = chat_sessions d
       ∧ messages out.2 = messages d
       ∧ foreign_keys out.2 = foreign_keys d
       ∧ Users.id row = generateUUID (Auth.uuid_seed draws)
       ∧ Some (Users.username row) = Auth.su_username req
       ∧ Some (Users.name row) = Auth.su_name req
       ∧ Users.email row = Auth.su_email req
       ∧ Users.password_hash row
         = bcrypt_hash (field (Auth.su_password req)) 12 (Auth.salt_seed draws)
       ∧ Users.auth_token row = Some (generateToken (Auth.token_seed draws))
       ∧ jget "token" (body out.1) = Some (JStr (generateToken (Auth.token_seed draws)))
       ∧ Users.token_expiry row = Some (toISOString (now + 2592000000))
       ∧ jget "expiresIn" (body out.1) = Some (JNum 2592000000)
       ∧ Users.last_login row = None).
Proof.
  cbv zeta. split; [apply signup_not_201|].
  intros Hst.
  destruct (signup_201 now draws req d Hst) as (Hreq & _ & _ & _ & _ & Hins & Hout).
  apply insert_user_inr in Hins as (Hu & Hs & Hm & Hf).
  pose proof (f_equal Auth.su_username Hreq) as Hname.
  pose proof (f_equal Auth.su_name Hreq) as Hnm.
  pose proof (f_equal Auth.su_email Hreq) as Hmail. simpl in Hname, Hnm, Hmail.
  eexists. split; [exact Hu|]. rewrite Hout. simpl.
  repeat split; done.
Qed.

Lemma find_snoc_None {A} (f : A → bool) (l : list A) (x : A) :
  find f l = None → find f (l ++ [x]) = if f x then Some x else None.
Proof.
  induction l as [|a l IH]; simpl; [done|].
  destruct (f a); [done|auto].
Qed.


End SignupEffects.


(* ================================================================== *)
(** * Accounts *)
(* ================================================================== *)

Section Frames.
Context `{Runtime}.
Implicit Types (d : Db) (st : Server).

Lemma login_users now draws req st :
  map account (users (db (Auth.login now draws req st).2)) = map account (users (db st)).
Proof.
  unfold Auth.login. repeat (case_match; try done).
  cbn [snd db update_user_login users]. rewrite map_map. apply map_ext.
  intros u. by case_match.
Qed.

Lemma logout_users userId d :
  map account (users (Auth.logout userId d).2) = map account (users d).
Proof.
  unfold Auth.logout. repeat (case_match; try done).
  cbn [snd update_user_logout users]. rewrite map_map. apply map_ext.
  intros u. by case_match.
Qed.

Lemma createSession_users now seed req d :
  users (History.createSession now seed req d).2 = users d.
Proof.
  unfold History.createSession. repeat (case_match; try done).
  unfold insert_session in *. case_match; simplify_eq. done.
Qed.

Lemma saveMessage_users now seed req d :
  users (History.saveMessage now seed req d).2 = users d.
Proof.
  destruct (decide (valid_message req)) as [Hv|Hv].
  - by destruct (saveMessage_store now seed req d Hv) as (_ & _ & _ & ? & _).
  - by rewrite saveMessage_invalid.
Qed.

Lemma updateSessionTitle_users now sid title d :
  users (History.updateSessionTitle now sid title d).2 = users d.
Proof. unfold History.updateSessionTitle. repeat (case_match; try done). Qed.

(** Only a [/signup] answered 201 adds a row to [users]; every other
    request leaves the accounts as they are. *)
Lemma handle_users now draws rq st :
  map account (users (db (handle now draws rq st).2)) = map account (users (db st))
  ∨ ∃ body,
      rq = PostSignup body
      ∧ status (Auth.signup now draws body (db st)).1 = 201
      ∧ db (handle now draws rq st).2 = (Auth.signup now draws body (db st)).2.
Proof.
  destruct rq as [body|body|req|uid|uid|sid|body|body|sid title|sid|uid];
    cbn [handle fst snd db]; try (left; done).
  - destruct (decide (status (Auth.signup now draws body (db st)).1 = 201)) as [Hst|Hst].
    + right. by exists body.
    + left. by rewrite signup_not_201.
  - left. apply login_users.
  - left. apply logout_users.
  - left. by rewrite createSession_users.
  - left. by rewrite saveMessage_users.
  - left. by rewrite updateSessionTitle_users.
Qed.

(** X9. No request removes an account or changes its identifier,
    username, password hash, name, email or creation instant: after any
    request the accounts are those before, in the same order, followed by
    at most one new account, and a new one appears only at a [/signup]
    answered 201. *)
Theorem handle_keeps_accounts (now : Z) (draws : Auth.Draws) (rq : Request) (st : Server) :
  ∃ extra,
    map account (users (db (handle now draws rq st).2))
    = map account (users (db st)) ++ extra
    ∧ (length extra ≤ 1)%nat
    ∧ (extra = [] ∨ ∃ body, rq = PostSignup body
                           ∧ status (Auth.signup now draws body (db st)).1 = 201).
Proof.
  destruct (handle_users now draws rq st) as [Heq|(body & -> & Hst & Hdb)].
  - exists []. rewrite app_nil_r. split; [done|]. split; [simpl; lia|by left].
  - destruct (signup_201 now draws body (db st) Hst) as (_ & _ & _ & _ & _ & Hins & _).
    apply insert_user_inr in Hins as (Husers & _).
    eexists [_]. rewrite Hdb, Husers, map_app. split; [done|].
    split; [simpl; lia|]. right. by exists body.
Qed.

End Frames.

(* ================================================================== *)
(** * Rows of the history tables *)
(* ================================================================== *)

Section HistoryFrames.
Context `{Runtime}.
Implicit Types (d : Db) (st : Server).

Lemma signup_chat_sessions now draws req d :
  chat_sessions (Auth.signup now draws req d).2 = chat_sessions d.
Proof.
  unfold Auth.signup. repeat (case_match; try done).
  unfold insert_user in *. case_match; simplify_eq. done.
Qed.

Lemma login_chat_sessions now draws req st :
  chat_sessions (db (Auth.login now draws req st).2) = chat_sessions (db st).
Proof. unfold Auth.login. repeat (case_match; try done). Qed.

Lemma logout_chat_sessions userId d :
  chat_sessions (Auth.logout userId d).2 = chat_sessions d.
Proof. unfold Auth.logout. repeat (case_match; try done). Qed.

(** The two ways [/message] writes its row. *)
Lemma written_messages r d :
  let d1 := match insert_message r d with
            | inr d1 => d1
            | inl _ => update_message r d
            end in
  ((Messages.id r ∉ map Messages.id (messages d)) ∧ foreign_keys d = false →
   messages d1 = messages d ++ [r])
  ∧ (messages d1 = messages d ++ [r]
     ∨ messages d1
       = map (λ m, if String.eqb (Messages.id m) (Messages.id r) then overwritten m r else m)
           (messages d)).
Proof.
  cbv zeta. unfold insert_message.
  destruct (existsb _ (messages d)) eqn:Hex; simpl.
  - split; [|right; apply update_message_messages].
    intros [Hid _]. exfalso. apply Hid. by apply existsb_id_in.
  - destruct (foreign_keys d); simpl.
    + destruct (negb _); simpl.
      * split; [intros [_ [=]]|right; apply update_message_messages].
      * split; [done|by left].
    + split; [done|by left].
Qed.

Lemma saved_values_filled now seed req :
  valid_message req →
  Messages.id (saved_values now seed req) ≠ ""
  ∧ Messages.session_id (saved_values now seed req) ≠ ""
  ∧ Messages.role (saved_values now seed req) ≠ ""
  ∧ Messages.content (saved_values now seed req) ≠ "".
Proof.
  intros (Hs & Hr & Hc).
  apply truthy_ostr_field in Hs as [_ Hs], Hr as [_ Hr], Hc as [_ Hc].
  apply truthy_str_true in Hs, Hr, Hc.
  split; [|done]. unfold saved_values, saved_id, or_else. cbn [Messages.id].
  destruct (History.mb_messageId req) as [m|]; [|apply generateUUID_filled].
  destruct (truthy_str m) eqn:Hm; [by apply truthy_str_true|apply generateUUID_filled].
Qed.

Lemma createSession_chat_sessions now seed req d :
  let out := History.createSession now seed req d in
  (status out.1 ≠ 201 ∧ out.2 = d)
  ∨ (status out.1 = 201
     ∧ ∃ uid, History.cs_userId req = Some uid ∧ uid ≠ ""
       ∧ chat_sessions out.2
         = chat_sessions d
           ++ [ {| ChatSessions.id := generateUUID seed;
                   ChatSessions.user_id := uid;
                   ChatSessions.title := or_else (History.cs_title req) "New Consultation";
                   ChatSessions.created_at := toISOString now;
                   ChatSessions.updated_at := toISOString now |} ]).
Proof.
  cbv zeta. unfold History.createSession.
  destruct (History.cs_userId req) as [uid|]; [|by left].
  destruct (truthy_str uid) eqn:Hu; simpl; [|by left].
  unfold insert_session. destruct (_ || _); simpl; [by left|right].
  split; [done|]. exists uid. apply truthy_str_true in Hu. done.
Qed.

Lemma or_else_filled x dflt : dflt ≠ "" → or_else x dflt ≠ "".
Proof.
  intros Hd. unfold or_else. destruct x as [s|]; [|done].
  destruct (truthy_str s) eqn:Hs; [by apply truthy_str_true|done].
Qed.

Lemma createSession_filled now seed req d :
  rows_filled d → rows_filled (History.createSession now seed req d).2.
Proof.
  intros [Hs Hm].
  destruct (createSession_chat_sessions now seed req d)
    as [[_ ->]|(_ & uid & _ & Hu & Heq)]; [done|].
  split; [|by rewrite createSession_messages].
  rewrite Heq. apply Forall_app. split; [done|]. constructor; [|done].
  cbn [ChatSessions.id ChatSessions.user_id ChatSessions.title].
  split; [apply generateUUID_length|]. split; [done|]. by apply or_else_filled.
Qed.

Lemma saveMessage_filled now seed req d :
  rows_filled d → rows_filled (History.saveMessage now seed req d).2.
Proof.
  intros [Hs Hm].
  destruct (decide (valid_message req)) as [Hv|Hv]; [|by rewrite saveMessage_invalid].
  destruct (saveMessage_store now seed req d Hv) as (_ & Hmsgs & Hsess & _).
  split.
  - rewrite Hsess. rewrite Forall_forall in Hs |- *. intros s Hin.
    apply list_elem_of_In, in_map_iff in Hin as (s0 & <- & Hin). apply list_elem_of_In in Hin.
    specialize (Hs s0 Hin). destruct (String.eqb _ _); exact Hs.
  - rewrite Hmsgs.
    pose proof (saved_values_filled now seed req Hv) as (Hi & Hss & Hr & Hc).
    destruct (written_messages (saved_values now seed req) d) as [_ [->| ->]].
    + apply Forall_app. split; [done|]. by constructor.
    + rewrite Forall_forall in Hm |- *. intros m Hin.
      apply list_elem_of_In, in_map_iff in Hin as (m0 & <- & Hin). apply list_elem_of_In in Hin.
      specialize (Hm m0 Hin). destruct (String.eqb _ _); [|done]. simpl. tauto.
Qed.

Lemma updateSessionTitle_filled now sid title d :
  rows_filled d → rows_filled (History.updateSessionTitle now sid title d).2.
Proof.
  intros [Hs Hm]. unfold History.updateSessionTitle.
  destruct title as [ttl|]; [|done].
  destruct (truthy_str ttl) eqn:Ht; simpl; [|done]. apply truthy_str_true in Ht.
  split; [|done]. simpl. rewrite Forall_forall in Hs |- *. intros s Hin.
  apply list_elem_of_In, in_map_iff in Hin as (s0 & <- & Hin). apply list_elem_of_In in Hin.
  specialize (Hs s0 Hin). destruct (String.eqb _ _); [|done]. simpl. tauto.
Qed.

Lemma Forall_filter_keep {A} (P Q : A → Prop) `{!∀ x, Decision (Q x)} (l : list A) :
  Forall P l → Forall P (filter Q l).
Proof.
  rewrite !Forall_forall. intros Hl x Hx. apply list_elem_of_filter in Hx as [_ Hx]. auto.
Qed.

Lemma delete_sessions_filled doomed d :
  rows_filled d → rows_filled (delete_sessions doomed d).
Proof.
  intros [Hs Hm]. unfold delete_sessions. split; simpl.
  - by apply Forall_filter_keep.
  - destruct (foreign_keys d); [by apply Forall_filter_keep|done].
Qed.

(** X11. In every state of the process each stored session has a
    32-character identifier, a user identifier and a title that are not
    empty, and each stored message has an identifier, a session
    identifier, a role and a content that are not empty. *)
Theorem reachable_rows_filled (st : Server) :
  reachable st → rows_filled (db st).
Proof.
  induction 1 as [|st now draws rq _ IH].
  - split; constructor.
  - destruct rq as [body|body|req|uid|uid|sid|body|body|sid title|sid|uid];
      cbn [handle fst snd db]; try done.
    + destruct IH. split; [by rewrite signup_chat_sessions|by rewrite signup_messages].
    + destruct IH. split; [by rewrite login_chat_sessions|by rewrite login_messages].
    + destruct IH. split; [by rewrite logout_chat_sessions|by rewrite logout_messages].
    + by apply createSession_filled.
    + by apply saveMessage_filled.
    + by apply updateSessionTitle_filled.
    + by apply delete_sessions_filled.
    + by apply delete_sessions_filled.
Qed.

(** X12. In every state of the process no request removes a stored
    message or moves it to another session: after any request the
    identifiers and session identifiers of the stored messages are those
    before, in the same order, followed by at most one new message. *)
Theorem reachable_keeps_messages (now : Z) (draws : Auth.Draws) (rq : Request) (st : Server) :
  reachable st →
  ∃ extra,
    map placement (messages (db (handle now draws rq st).2))
    = map placement (messages (db st)) ++ extra
    ∧ (length extra ≤ 1)%nat.
Proof.
  intros Hreach. apply reachable_invariant in Hreach as [Hfk _].
  assert (Hsame : ∀ d', messages d' = messages (db st) →
            ∃ extra, map placement (messages d') = map placement (messages (db st)) ++ extra
                     ∧ (length extra ≤ 1)%nat).
  { intros d' ->. exists []. rewrite app_nil_r. split; [done|simpl; lia]. }
  destruct rq as [body|body|req|uid|uid|sid|body|body|sid title|sid|uid];
    cbn [handle fst snd db]; try (by apply Hsame).
  - apply Hsame, signup_messages.
  - apply Hsame, login_messages.
  - apply Hsame, logout_messages.
  - apply Hsame, createSession_messages.
  - destruct (decide (valid_message body)) as [Hv|Hv];
      [|rewrite saveMessage_invalid by done; by apply Hsame].
    destruct (saveMessage_store now (Auth.uuid_seed draws) body (db st) Hv) as (_ & -> & _).
    destruct (written_messages (saved_values now (Auth.uuid_seed draws) body) (db st))
      as [_ [->| ->]].
    + eexists [_]. rewrite map_app. split; [done|simpl; lia].
    + exists []. rewrite app_nil_r. split; [|simpl; lia].
      rewrite map_map. apply map_ext. intros m. by destruct (String.eqb _ _).
  - apply Hsame, updateSessionTitle_messages.
  - apply Hsame. by apply delete_sessions_unenforced.
  - apply Hsame. by apply delete_sessions_unenforced.
Qed.

Lemma mapM_parse_message rows d :
  readable d → (∀ r, r ∈ rows → r ∈ messages d) →
  is_Some (mapM History.parse_message rows).
Proof.
  intros Hread Hsub. apply mapM_is_Some. apply Forall_forall. intros r Hr.
  unfold readable in Hread. rewrite Forall_forall in Hread. auto.
Qed.

Lemma getSession_readable sid d :
  readable d →
  status (History.getSession sid d) = 200 ∨ status (History.getSession sid d) = 404.
Proof.
  intros Hread. unfold History.getSession.
  destruct (select_session_by_id sid d); [|by right].
  assert (is_Some (mapM History.parse_message (select_messages_by_session sid d)))
    as [msgs ->]; [|by left].
  apply mapM_parse_message with d; [done|].
  intros row Hrow. by apply select_messages_by_session_elem in Hrow as [? _].
Qed.

Lemma listSessions_readable uid d :
  readable d →
  status (History.listSessions uid d) = 200 ∨ status (History.listSessions uid d) = 400.
Proof.
  intros Hread. unfold History.listSessions.
  destruct (truthy_str uid); simpl; [|by right].
  assert (is_Some (mapM (History.session_with_messages d) (select_sessions_by_user uid d)))
    as [sessions ->]; [|by left].
  apply mapM_is_Some, Forall_forall. intros s _.
  unfold compose, History.session_with_messages. cbv beta.
  assert (is_Some (mapM History.parse_message
                     (select_messages_by_session (ChatSessions.id s) d)))
    as [msgs ->]; [|done].
  apply mapM_parse_message with d; [done|].
  intros row Hrow. by apply select_messages_by_session_elem in Hrow as [? _].
Qed.

(** X13. When [JSON.parse] reads back what [JSON.stringify] writes, no
    listing fails on stored data: in every state of the process
    [GET /session/:sessionId] answers 200 or 404 and
    [GET /sessions/:userId] answers 200 or 400, never 500. *)
Theorem reachable_listings_succeed (st : Server) (sessionId userId : string) :
  (∀ x : option json, round_trips x) →
  reachable st →
  (status (History.getSession sessionId (db st)) = 200
   ∨ status (History.getSession sessionId (db st)) = 404)
  ∧ (status (History.listSessions userId (db st)) = 200
     ∨ status (History.listSessions userId (db st)) = 400).
Proof.
  intros Hcodec Hreach. pose proof (reachable_readable st Hcodec Hreach) as Hread.
  split; [by apply getSession_readable|by apply listSessions_readable].
Qed.

End HistoryFrames.

(** The state after one consultation was created on a new database. *)
Lemma reachable_rows_filled_witness :
  rows_filled
    (db (handle (H := Reference.runtime) 100000 sample_draws (PostSession consultation)
           {| db := initializeDatabase; loginAttempts := ∅ |}).2).
Proof.
  apply (reachable_rows_filled (H := Reference.runtime)).
  apply reachable_step, reachable_start.
Defined.

(** A message is saved on a new database and its session is then deleted:
    the message stays. *)
Lemma reachable_keeps_messages_witness :
  ∃ extra,
    map placement
      (messages (db (handle (H := Reference.runtime) 500000 sample_draws
                       (DeleteSession consultation_id)
                       (handle (H := Reference.runtime) 200000 sample_draws
                          (PostMessage symptoms_message)
                          {| db := initializeDatabase; loginAttempts := ∅ |}).2).2))
    = map placement
        (messages (db (handle (H := Reference.runtime) 200000 sample_draws
                         (PostMessage symptoms_message)
                         {| db := initializeDatabase; loginAttempts := ∅ |}).2))
      ++ extra
    ∧ (length extra ≤ 1)%nat.
Proof.
  apply (reachable_keeps_messages (H := Reference.runtime)).
  apply reachable_step, reachable_start.
Defined.

(** The listings after one message was saved on a new database. *)
Lemma reachable_listings_succeed_witness :
  (status (History.getSession (H := Reference.runtime) consultation_id
             (db (handle (H := Reference.runtime) 200000 sample_draws
                    (PostMessage symptoms_message)
                    {| db := initializeDatabase; loginAttempts := ∅ |}).2)) = 200
   ∨ status (History.getSession (H := Reference.runtime) consultation_id
               (db (handle (H := Reference.runtime) 200000 sample_draws
                      (PostMessage symptoms_message)
                      {| db := initializeDatabase; loginAttempts := ∅ |}).2)) = 404)
  ∧ (status (History.listSessions (H := Reference.runtime) alice_id
               (db (handle (H := Reference.runtime) 200000 sample_draws
                      (PostMessage symptoms_message)
                      {| db := initializeDatabase; loginAttempts := ∅ |}).2)) = 200
     ∨ status (History.listSessions (H := Reference.runtime) alice_id
                 (db (handle (H := Reference.runtime) 200000 sample_draws
                        (PostMessage symptoms_message)
                        {| db := initializeDatabase; loginAttempts := ∅ |}).2)) = 400).
Proof.
  apply (reachable_listings_succeed (H := Reference.runtime)).
  - apply reference_round_trips.
  - apply reachable_step, reachable_start.
Defined.

(* ================================================================== *)
(** * [/logout] *)
(* ================================================================== *)

Section Logout.

Lemma update_user_logout_users uid d :
  users (update_user_logout uid d)
  = map (λ u, if String.eqb (Users.id u) uid then forget_token u else u) (users d).
Proof. reflexivity. Qed.

Lemma map_if_elem {A} (test : A → bool) (f : A → A) (l : list A) (x : A) :
  test x = false → (∀ y, test y = true → test (f y) = true) →
  x ∈ map (λ y, if test y then f y else y) l ↔ x ∈ l.
Proof.
  intros Hx Hf. rewrite !list_elem_of_In, in_map_iff. split.
  - intros (y & Hy & Hin). destruct (test y) eqn:Ht; [|by subst].
    apply Hf in Ht. congruence.
  - intros Hin. exists x. by rewrite Hx.
Qed.

(** X14. [/logout] with an identifier that is not empty answers 200 and
    clears the token and its expiry in the rows of that identifier; every
    other column, every other user and the history tables stay as they
    were.  It is idempotent, and for an identifier no user has it changes
    nothing and still answers 200.  Without an identifier it answers 400
    and changes nothing. *)
Theorem logout_clears_token (userId : string) (d : Db) :
  userId ≠ "" →
  let out := Auth.logout (Some userId) d in
  out.1 = {| status := 200; body := JObj [("success", JBool true)] |}
  ∧ (∀ u, u ∈ users out.2 → Users.id u = userId →
       Users.auth_token u = None ∧ Users.token_expiry u = None)
  ∧ map forget_token (users out.2) = map forget_token (users d)
  ∧ (∀ u, Users.id u ≠ userId → u ∈ users out.2 ↔ u ∈ users d)
  ∧ chat_sessions out.2 = chat_sessions d
  ∧ messages out.2 = messages d
  ∧ ((¬ ∃ u, u ∈ users d ∧ Users.id u = userId) → out.2 = d)
  ∧ Auth.logout (Some userId) out.2 = out
  ∧ Auth.logout None d
    = ({| status := 400; body := JObj [("error", JStr "Missing userId")] |}, d)
  ∧ Auth.logout (Some "") d
    = ({| status := 400; body := JObj [("error", JStr "Missing userId")] |}, d).
Proof.
  intros Hu. apply truthy_str_true in Hu. cbv zeta. unfold Auth.logout. rewrite Hu.
  cbn [negb fst snd]. split; [done|].
  rewrite update_user_logout_users.
  split; [|split; [|split; [|split; [done|split; [done|split; [|split; [|done]]]]]]].
  - intros u Hin Hid. apply list_elem_of_In, in_map_iff in Hin as (u0 & Hu0 & _).
    destruct (String.eqb_spec (Users.id u0) userId) as [_|Hne]; [by subst u|].
    subst u0. done.
  - rewrite map_map. apply map_ext. intros u. by destruct (String.eqb _ _).
  - intros u Hne. apply map_if_elem; [by apply String.eqb_neq|done].
  - intros Hno. destruct d as [fk us ss ms]. unfold update_user_logout. cbn. f_equal.
    apply map_if_id. intros u Hin. apply String.eqb_neq. intros Hid. apply Hno. eauto.
  - f_equal. unfold update_user_logout. cbn. f_equal.
    rewrite map_map. apply map_ext. intros u.
    destruct (String.eqb (Users.id u) userId) eqn:Hid; cbn; by rewrite Hid.
Qed.

End Logout.

(** After [alice]'s logout no token is stored. *)
Lemma logout_clears_token_witness :
  map Users.auth_token (users (Auth.logout (Some alice_id) (db alice_server)).2) = [None].
Proof.
  pose proof (logout_clears_token alice_id (db alice_server) ltac:(discriminate)) as Hthm.
  destruct Hthm as (_ & Hclear & _).
  destruct (users (Auth.logout (Some alice_id) (db alice_server)).2) as [|u [|u' l]] eqn:Hus;
    try (vm_compute in Hus; discriminate Hus).
  assert (Hin : u ∈ [u]) by left.
  assert (Hid : Users.id u = alice_id)
    by (vm_compute in Hus; injection Hus as <-; reflexivity).
  destruct (Hclear u Hin Hid) as [Htok _]. simpl. rewrite Htok. reflexivity.
Defined.

(* ================================================================== *)
(** * Creating and renaming a session *)
(* ================================================================== *)

Section Sessions.
Context `{Runtime}.
Implicit Types (d : Db) (req : History.SessionBody).

Lemma existsb_session_id sid (l : list ChatSessions.row) :
  existsb (λ s, String.eqb (ChatSessions.id s) sid) l = true
  ↔ sid ∈ map ChatSessions.id l.
Proof.
  rewrite existsb_exists, list_elem_of_In, in_map_iff. split.
  - intros (s & Hin & Heq). apply String.eqb_eq in Heq. eauto.
  - intros (s & Heq & Hin). exists s. split; [done|]. by apply String.eqb_eq.
Qed.

Lemma existsb_user_id uid (l : list Users.row) :
  existsb (λ u, String.eqb (Users.id u) uid) l = true ↔ uid ∈ map Users.id l.
Proof.
  rewrite existsb_exists, list_elem_of_In, in_map_iff. split.
  - intros (s & Hin & Heq). apply String.eqb_eq in Heq. eauto.
  - intros (s & Heq & Hin). exists s. split; [done|]. by apply String.eqb_eq.
Qed.

Lemma createSession_present now seed req d :
  truthy_ostr (History.cs_userId req) = true →
  History.createSession now seed req d
  = match insert_session (session_row now seed req) d with
    | inl _ => ({| status := 500; body := error_body "Failed to create session" |}, d)
    | inr d' =>
        ({| status := 201;
            body := JObj [("session",
                           JObj (History.session_fields (session_row now seed req)
                                 ++ [("messages", JArr [])]))] |}, d')
    end.
Proof.
  intros Hu. unfold History.createSession, session_row.
  destruct (History.cs_userId req) as [uid|]; [|done]. simpl in Hu. rewrite Hu. done.
Qed.

(** X15. [POST /session].  Without a user identifier it answers 400 and
    changes nothing.  With one, it draws a fresh identifier and inserts
    the session, with the title of the request or, when that is absent or
    empty, "New Consultation", and with [created_at] equal to
    [updated_at]; it answers 201 with that session and an empty message
    list.  When the identifier drawn is taken, or foreign keys are enforced
    and no user has the user identifier, it answers 500 and changes
    nothing.  Without enforcement the session is created whether or not
    the user exists. *)
Theorem createSession_outcome (now seed : Z) (req : History.SessionBody) (d : Db) :
  let out := History.createSession now seed req d in
  let row := session_row now seed req in
  (truthy_ostr (History.cs_userId req) = false →
   out = ({| status := 400; body := JObj [("error", JStr "Missing userId")] |}, d))
  ∧ (truthy_ostr (History.cs_userId req) = true →
     generateUUID seed ∈ map ChatSessions.id (chat_sessions d)
     ∨ (foreign_keys d = true ∧ field (History.cs_userId req) ∉ map Users.id (users d)) →
     out = ({| status := 500; body := JObj [("error", JStr "Failed to create session")] |}, d))
  ∧ (truthy_ostr (History.cs_userId req) = true →
     generateUUID seed ∉ map ChatSessions.id (chat_sessions d) →
     foreign_keys d = false ∨ field (History.cs_userId req) ∈ map Users.id (users d) →
     out.1 = {| status := 201;
                body := JObj [("session",
                               JObj (History.session_fields row ++ [("messages", JArr [])]))] |}
     ∧ chat_sessions out.2 = chat_sessions d ++ [row]
     ∧ users out.2 = users d
     ∧ messages out.2 = messages d
     ∧ foreign_keys out.2 = foreign_keys d)
  ∧ ChatSessions.created_at row = ChatSessions.updated_at row
  ∧ (History.cs_title req = None ∨ History.cs_title req = Some "" →
     ChatSessions.title row = "New Consultation")
  ∧ (∀ ttl, History.cs_title req = Some ttl → ttl ≠ "" → ChatSessions.title row = ttl).
Proof.
  cbv zeta. split; [|split; [|split; [|split; [done|split]]]].
  - unfold History.createSession. destruct (History.cs_userId req) as [uid|]; [|done].
    simpl. by intros ->.
  - intros Hu Hfail. rewrite createSession_present by done.
    unfold insert_session.
    change (ChatSessions.id (session_row now seed req)) with (generateUUID seed).
    change (ChatSessions.user_id (session_row now seed req))
      with (field (History.cs_userId req)).
    destruct (existsb _ (chat_sessions d)) eqn:Hex; [done|].
    destruct Hfail as [Htaken|[Hfk Huser]].
    + apply existsb_session_id in Htaken. congruence.
    + rewrite Hfk.
      destruct (existsb _ (users d)) eqn:Hex'; [|done].
      apply existsb_user_id in Hex'. done.
  - intros Hu Hfresh Hok. rewrite createSession_present by done.
    unfold insert_session.
    change (ChatSessions.id (session_row now seed req)) with (generateUUID seed).
    change (ChatSessions.user_id (session_row now seed req))
      with (field (History.cs_userId req)).
    destruct (existsb _ (chat_sessions d)) eqn:Hex;
      [by apply existsb_session_id in Hex|].
    destruct Hok as [Hfk|Huser].
    + rewrite Hfk. done.
    + apply existsb_user_id in Huser. rewrite Huser, andb_false_r. done.
  - unfold session_row. cbn [ChatSessions.title]. by intros [-> | ->].
  - intros ttl Httl Ht. apply truthy_str_true in Ht. unfold session_row, or_else.
    cbn [ChatSessions.title]. by rewrite Httl, Ht.
Qed.

Lemma find_snoc_fresh {A} (key : A → string) (l : list A) (x : A) (k : string) :
  key x = k → k ∉ map key l →
  find (λ y, String.eqb (key y) k) (l ++ [x]) = Some x.
Proof.
  intros <- Hfresh. rewrite find_snoc_None; [by rewrite String.eqb_refl|].
  destruct (find _ l) as [y|] eqn:Hy; [|done].
  apply find_some in Hy as [Hin Heq]. apply String.eqb_eq in Heq.
  exfalso. apply Hfresh. rewrite <- Heq. by apply list_elem_of_In, in_map.
Qed.

Lemma filter_none {A} (P : A → Prop) `{!∀ x, Decision (P x)} (l : list A) :
  (∀ x, x ∈ l → ¬ P x) → filter P l = [].
Proof.
  induction l as [|a l IH]; intros Hall; [done|].
  rewrite filter_cons_False by (apply Hall; left).
  apply IH. intros x Hx. apply Hall. by right.
Qed.

Lemma filter_all {A} (P : A → Prop) `{!∀ x, Decision (P x)} (l : list A) :
  (∀ x, x ∈ l → P x) → filter P l = l.
Proof.
  induction l as [|a l IH]; intros Hall; [done|].
  rewrite filter_cons_True by (apply Hall; left).
  f_equal. apply IH. intros x Hx. apply Hall. by right.
Qed.

Lemma select_messages_by_session_none sid d :
  (∀ m, m ∈ messages d → Messages.session_id m ≠ sid) →
  select_messages_by_session sid d = [].
Proof.
  intros Hno. unfold select_messages_by_session. by rewrite filter_none.
Qed.

(** X16. A session that [POST /session] has created is the one
    [GET /session/:sessionId] then shows: under the identifier of the 201
    response it answers 200 with the same session columns and, as long as
    no stored message carries that identifier, an empty message list. *)
Theorem createSession_then_getSession (now seed : Z) (req : History.SessionBody) (d : Db) :
  truthy_ostr (History.cs_userId req) = true →
  foreign_keys d = false →
  generateUUID seed ∉ map ChatSessions.id (chat_sessions d) →
  (∀ m, m ∈ messages d → Messages.session_id m ≠ generateUUID seed) →
  let out := History.createSession now seed req d in
  let row := session_row now seed req in
  (jget "session" (body out.1) ≫= jget "id") = Some (JStr (generateUUID seed))
  ∧ History.getSession (generateUUID seed) out.2
    = {| status := 200;
         body := JObj [("session", JObj (History.session_fields row));
                       ("messages", JArr [])] |}.
Proof.
  intros Hu Hfk Hfresh Hnomsg. cbv zeta.
  rewrite createSession_present by done.
  unfold insert_session.
  change (ChatSessions.id (session_row now seed req)) with (generateUUID seed).
  destruct (existsb _ (chat_sessions d)) eqn:Hex;
    [by apply existsb_session_id in Hex|].
  rewrite Hfk. cbn [orb andb fst snd body]. split; [done|].
  unfold History.getSession, select_session_by_id. cbn [chat_sessions].
  rewrite (find_snoc_fresh ChatSessions.id (chat_sessions d) (session_row now seed req))
    by done.
  rewrite select_messages_by_session_none by done. done.
Qed.

Lemma update_session_title_chat_sessions ttl stamp sid d :
  chat_sessions (update_session_title ttl stamp sid d)
  = map (λ s, if String.eqb (ChatSessions.id s) sid then retitled ttl stamp s else s)
      (chat_sessions d).
Proof. reflexivity. Qed.

(** X17. [PUT /session/:sessionId].  Without a title, or with an empty
    one, it answers 400 and changes nothing.  Otherwise it answers 200 and
    sets the title and [updated_at] of the rows of that identifier and
    nothing else: no row is added or removed, the identifier, the user and
    the creation instant of the session stay, and the users and messages
    are untouched.  For an identifier no session has it changes nothing
    and still answers 200. *)
Theorem updateSessionTitle_outcome (now : Z) (sessionId : string) (title : option string)
    (d : Db) :
  let out := History.updateSessionTitle now sessionId title d in
  (truthy_ostr title = false →
   out = ({| status := 400; body := JObj [("error", JStr "Missing title")] |}, d))
  ∧ (truthy_ostr title = true →
     out.1 = {| status := 200; body := JObj [("success", JBool true)] |}
     ∧ chat_sessions out.2
       = map (λ s, if String.eqb (ChatSessions.id s) sessionId
                   then retitled (field title) (toISOString now) s else s) (chat_sessions d)
     ∧ map ChatSessions.id (chat_sessions out.2) = map ChatSessions.id (chat_sessions d)
     ∧ (∀ s, s ∈ chat_sessions out.2 → ChatSessions.id s = sessionId →
          ChatSessions.title s = field title ∧ ChatSessions.updated_at s = toISOString now)
     ∧ (∀ s, s ∈ chat_sessions d → ChatSessions.id s = sessionId →
          retitled (field title) (toISOString now) s ∈ chat_sessions out.2)
     ∧ (∀ s, ChatSessions.id s ≠ sessionId → s ∈ chat_sessions out.2 ↔ s ∈ chat_sessions d)
     ∧ users out.2 = users d
     ∧ messages out.2 = messages d
     ∧ ((¬ ∃ s, s ∈ chat_sessions d ∧ ChatSessions.id s = sessionId) → out.2 = d)).
Proof.
  cbv zeta. unfold History.updateSessionTitle. split.
  - destruct title as [ttl|]; [|done]. simpl. by intros ->.
  - destruct title as [ttl|]; [|done]. simpl. intros ->. cbn [negb fst snd].
    rewrite update_session_title_chat_sessions.
    split; [done|]. split; [done|].
    split; [|split; [|split; [|split; [|split; [done|split; [done|]]]]]].
    + rewrite map_map. apply map_ext. intros s. by destruct (String.eqb _ _).
    + intros s Hin Hid. apply list_elem_of_In, in_map_iff in Hin as (s0 & Hs0 & _).
      destruct (String.eqb_spec (ChatSessions.id s0) sessionId) as [_|Hne]; [by subst s|].
      subst s0. done.
    + intros s Hin Hid. apply list_elem_of_In, in_map_iff. exists s.
      split; [|by apply list_elem_of_In]. apply String.eqb_eq in Hid. by rewrite Hid.
    + intros s Hne. apply map_if_elem; [by apply String.eqb_neq|done].
    + intros Hno. destruct d as [fk us ss ms]. unfold update_session_title. cbn. f_equal.
      apply map_if_id. intros s Hin. apply String.eqb_neq. intros Hid. apply Hno. eauto.
Qed.

End Sessions.

(** [alice]'s consultation is found under the identifier drawn for it. *)
Lemma createSession_then_getSession_witness :
  status (History.getSession (H := Reference.runtime) consultation_id
            (History.createSession (H := Reference.runtime) 100000 consultation_seed
               consultation (db alice_server)).2) = 200.
Proof.
  destruct (createSession_then_getSession (H := Reference.runtime) 100000 consultation_seed
              consultation (db alice_server)) as [_ Hget].
  - reflexivity.
  - reflexivity.
  - vm_compute. apply not_elem_of_nil.
  - intros m Hm. vm_compute in Hm. by apply elem_of_nil in Hm.
  - unfold consultation_id. rewrite Hget. reflexivity.
Defined.

(* ================================================================== *)
(** * Deleting and listing *)
(* ================================================================== *)

Section Deletes.
Context `{Runtime}.
Implicit Types (d : Db).

Lemma delete_sessions_nothing doomed d :
  (∀ s, s ∈ chat_sessions d → doomed s = false) → delete_sessions doomed d = d.
Proof.
  intros Hno. destruct d as [fk us ss ms]. unfold delete_sessions. cbn in *.
  rewrite (filter_all (λ s, doomed s = false)) by done.
  rewrite (filter_none (λ s, doomed s = true))
    by (intros s Hs; rewrite (Hno s Hs); discriminate).
  f_equal. destruct fk; [|done]. by apply filter_all.
Qed.

Lemma delete_sessions_chat_sessions doomed d s :
  s ∈ chat_sessions (delete_sessions doomed d) ↔ s ∈ chat_sessions d ∧ doomed s = false.
Proof. unfold delete_sessions. cbn. rewrite list_elem_of_filter. tauto. Qed.

Lemma delete_sessions_twice doomed d :
  delete_sessions doomed (delete_sessions doomed d) = delete_sessions doomed d.
Proof.
  apply delete_sessions_nothing. intros s Hs.
  by apply delete_sessions_chat_sessions in Hs as [_ ?].
Qed.

Lemma find_none_iff {A} (f : A → bool) (l : list A) :
  find f l = None ↔ ∀ x, x ∈ l → f x = false.
Proof.
  split.
  - intros Hnone x Hx. apply list_elem_of_In in Hx. by apply (find_none f l).
  - intros Hall. destruct (find f l) as [x|] eqn:Hx; [|done].
    apply find_some in Hx as [Hin Hfx]. apply list_elem_of_In in Hin.
    rewrite (Hall x Hin) in Hfx. done.
Qed.

(** X18. [DELETE /session/:sessionId] always answers 200.  Afterwards no
    session has that identifier, so [GET /session/:sessionId] answers 404
    for it; every other session and every user stay as they were.  For an
    identifier no session has it changes nothing, and repeating the
    request changes nothing more. *)
Theorem deleteSession_removes_session (sessionId : string) (d : Db) :
  let out := History.deleteSession sessionId d in
  out.1 = {| status := 200; body := JObj [("success", JBool true)] |}
  ∧ History.getSession sessionId out.2
    = {| status := 404; body := JObj [("error", JStr "Session not found")] |}
  ∧ (∀ s, s ∈ chat_sessions out.2 ↔ s ∈ chat_sessions d ∧ ChatSessions.id s ≠ sessionId)
  ∧ users out.2 = users d
  ∧ ((¬ ∃ s, s ∈ chat_sessions d ∧ ChatSessions.id s = sessionId) → out.2 = d)
  ∧ History.deleteSession sessionId out.2 = out.
Proof.
  cbv zeta. unfold History.deleteSession, delete_session_by_id. cbn [fst snd].
  split; [done|].
  assert (Hmem : ∀ s, s ∈ chat_sessions
                        (delete_sessions (λ s, String.eqb (ChatSessions.id s) sessionId) d)
                      ↔ s ∈ chat_sessions d ∧ ChatSessions.id s ≠ sessionId).
  { intros s. rewrite delete_sessions_chat_sessions. by rewrite String.eqb_neq. }
  split; [|split; [done|split; [done|split]]].
  - unfold History.getSession, select_session_by_id.
    rewrite (proj2 (find_none_iff _ _)); [done|].
    intros s Hs. apply Hmem in Hs as [_ Hne]. by apply String.eqb_neq.
  - intros Hno. apply delete_sessions_nothing. intros s Hs.
    apply String.eqb_neq. intros Hid. apply Hno. eauto.
  - by rewrite delete_sessions_twice.
Qed.

(** X19. [DELETE /user/:userId] always answers 200 and removes the
    sessions of that user, so that [GET /sessions/:userId] then answers an
    empty list; the sessions of other users stay.  The [users] table is
    not touched: the account itself remains and [/verify] answers as
    before. *)
Theorem clearUserData_keeps_account (userId : string) (d : Db) :
  let out := History.clearUserData userId d in
  out.1 = {| status := 200; body := JObj [("success", JBool true)] |}
  ∧ (∀ s, s ∈ chat_sessions out.2 ↔ s ∈ chat_sessions d ∧ ChatSessions.user_id s ≠ userId)
  ∧ (userId ≠ "" →
     History.listSessions userId out.2
     = {| status := 200; body := JObj [("sessions", JArr [])] |})
  ∧ users out.2 = users d
  ∧ (∀ req, Auth.verify req out.2 = Auth.verify req d)
  ∧ History.clearUserData userId out.2 = out.
Proof.
  cbv zeta. unfold History.clearUserData, delete_sessions_by_user. cbn [fst snd].
  split; [done|].
  assert (Hmem : ∀ s, s ∈ chat_sessions
                        (delete_sessions (λ s, String.eqb (ChatSessions.user_id s) userId) d)
                      ↔ s ∈ chat_sessions d ∧ ChatSessions.user_id s ≠ userId).
  { intros s. rewrite delete_sessions_chat_sessions. by rewrite String.eqb_neq. }
  split; [done|]. split; [|split; [done|split; [done|]]].
  - intros Hu. apply truthy_str_true in Hu. unfold History.listSessions. rewrite Hu.
    cbn [negb]. unfold select_sessions_by_user.
    rewrite filter_none; [done|]. intros s Hs. by apply Hmem in Hs as [_ Hne].
  - by rewrite delete_sessions_twice.
Qed.

End Deletes.

Section SortedListings.
Context `{Runtime}.
Implicit Types (d : Db).

Lemma timestamp_asc_total : Total timestamp_asc.
Proof. intros a b. unfold timestamp_asc. apply String.leb_total. Qed.

Lemma updated_at_desc_total : Total updated_at_desc.
Proof. intros a b. unfold updated_at_desc. apply String.leb_total. Qed.

Lemma select_messages_by_session_sorted sid d :
  Sorted timestamp_asc (select_messages_by_session sid d)
  ∧ select_messages_by_session sid d ≡ₚ filter (λ m, Messages.session_id m = sid) (messages d).
Proof.
  unfold select_messages_by_session. split.
  - apply (Sorted_merge_sort timestamp_asc (Total0 := timestamp_asc_total)).
  - apply merge_sort_Permutation.
Qed.

Lemma select_sessions_by_user_sorted uid d :
  Sorted updated_at_desc (select_sessions_by_user uid d)
  ∧ select_sessions_by_user uid d
    ≡ₚ filter (λ s, ChatSessions.user_id s = uid) (chat_sessions d).
Proof.
  unfold select_sessions_by_user. split.
  - apply (Sorted_merge_sort updated_at_desc (Total0 := updated_at_desc_total)).
  - apply merge_sort_Permutation.
Qed.

Lemma message_fields_timestamp r es gs ar :
  jget "timestamp" (JObj (History.message_fields r es gs ar))
  = Some (JStr (Messages.timestamp r)).
Proof. by destruct es, gs, ar. Qed.

Lemma parsed_from_columns sid rows msgs :
  parsed_from rows msgs →
  (∀ r, r ∈ rows → Messages.session_id r = sid) →
  Forall2 (λ r msg, jget "id" msg = Some (JStr (Messages.id r))
                    ∧ jget "session_id" msg = Some (JStr sid)
                    ∧ jget "role" msg = Some (JStr (Messages.role r))
                    ∧ jget "content" msg = Some (JStr (Messages.content r))
                    ∧ jget "timestamp" msg = Some (JStr (Messages.timestamp r))) rows msgs.
Proof.
  unfold parsed_from. induction 1 as [|r msg rows msgs Hr _ IH]; intros Hsid; constructor.
  - apply parse_message_Some in Hr as (es & gs & ar & _ & _ & _ & ->).
    rewrite message_fields_timestamp, <- (Hsid r) by left. done.
  - apply IH. intros r0 Hr0. apply Hsid. by right.
Qed.

(** X20. [GET /session/:sessionId] answers 404 exactly when no session
    has the identifier.  A 200 carries the columns of that session and
    its messages: exactly the stored messages whose [session_id] is the
    identifier, none of another session, in ascending order of
    [timestamp], each with its own columns. *)
Theorem getSession_outcome (sessionId : string) (d : Db) :
  (status (History.getSession sessionId d) = 404
   ↔ ¬ ∃ s, s ∈ chat_sessions d ∧ ChatSessions.id s = sessionId)
  ∧ ((¬ ∃ s, s ∈ chat_sessions d ∧ ChatSessions.id s = sessionId) →
     History.getSession sessionId d
     = {| status := 404; body := JObj [("error", JStr "Session not found")] |})
  ∧ (status (History.getSession sessionId d) = 200 →
     ∃ session rows msgs,
       body (History.getSession sessionId d)
       = JObj [("session", JObj (History.session_fields session)); ("messages", JArr msgs)]
       ∧ session ∈ chat_sessions d ∧ ChatSessions.id session = sessionId
       ∧ rows ≡ₚ filter (λ m, Messages.session_id m = sessionId) (messages d)
       ∧ Sorted timestamp_asc rows
       ∧ Forall2 (λ r msg, jget "id" msg = Some (JStr (Messages.id r))
                           ∧ jget "session_id" msg = Some (JStr sessionId)
                           ∧ jget "role" msg = Some (JStr (Messages.role r))
                           ∧ jget "content" msg = Some (JStr (Messages.content r))
                           ∧ jget "timestamp" msg = Some (JStr (Messages.timestamp r)))
           rows msgs).
Proof.
  assert (Hnone : select_session_by_id sessionId d = None
                  ↔ ¬ ∃ s, s ∈ chat_sessions d ∧ ChatSessions.id s = sessionId).
  { rewrite <- select_session_by_id_is_Some, eq_None_not_Some. done. }
  split; [|split].
  - rewrite <- Hnone. unfold History.getSession.
    destruct (select_session_by_id sessionId d); [|done].
    split; [|done]. by destruct (mapM _ _).
  - intros Hno. apply Hnone in Hno. unfold History.getSession. by rewrite Hno.
  - intros Hst. destruct (getSession_200 sessionId d Hst) as (session & msgs & Hsel & Hp & Hb).
    exists session, (select_messages_by_session sessionId d), msgs.
    split; [done|].
    unfold select_session_by_id in Hsel. apply find_some in Hsel as [Hin Hid].
    apply list_elem_of_In in Hin. apply String.eqb_eq in Hid.
    destruct (select_messages_by_session_sorted sessionId d) as [Hsorted Hperm].
    split; [done|]. split; [done|]. split; [done|]. split; [done|].
    apply parsed_from_columns; [done|].
    intros r Hr. by apply select_messages_by_session_elem in Hr as [_ ?].
Qed.

(** X21. [GET /sessions/:userId] answers 400 for an empty identifier.  A
    200 carries exactly the sessions whose [user_id] is the identifier, in
    descending order of [updated_at], each with its columns and with the
    messages stored under its own identifier; a user without sessions,
    known or not, gets 200 with an empty list. *)
Theorem listSessions_outcome (userId : string) (d : Db) :
  History.listSessions "" d
  = {| status := 400; body := JObj [("error", JStr "Missing userId")] |}
  ∧ (status (History.listSessions userId d) = 200 →
     ∃ rows sessions,
       body (History.listSessions userId d) = JObj [("sessions", JArr sessions)]
       ∧ rows ≡ₚ filter (λ s, ChatSessions.user_id s = userId) (chat_sessions d)
       ∧ Sorted updated_at_desc rows
       ∧ Forall2 (λ s sj,
                    ∃ msgs,
                      sj = JObj (History.session_fields s ++ [("messages", JArr msgs)])
                      ∧ parsed_from (select_messages_by_session (ChatSessions.id s) d) msgs)
           rows sessions)
  ∧ (userId ≠ "" →
     (∀ s, s ∈ chat_sessions d → ChatSessions.user_id s ≠ userId) →
     History.listSessions userId d
     = {| status := 200; body := JObj [("sessions", JArr [])] |}).
Proof.
  split; [done|]. split.
  - intros Hst. destruct (listSessions_200 userId d Hst) as (sessions & Hb & Hall).
    exists (select_sessions_by_user userId d), sessions.
    destruct (select_sessions_by_user_sorted userId d) as [Hsorted Hperm].
    split; [done|]. split; [done|]. split; [done|].
    eapply Forall2_impl; [exact Hall|]. intros s sj Hs. cbv beta in Hs.
    apply session_with_messages_Some in Hs as (msgs & Hp & -> & _). eauto.
  - intros Hu Hno. apply truthy_str_true in Hu. unfold History.listSessions. rewrite Hu.
    cbn [negb]. unfold select_sessions_by_user. rewrite filter_none; [done|]. done.
Qed.

End SortedListings.

(* ================================================================== *)
(** * New messages and the shape of an email *)
(* ================================================================== *)

Section NewMessage.
Context `{Runtime}.
Implicit Types (d : Db) (req : History.MessageBody).

(** X22. A message whose identifier is not stored yet is appended as one
    new row holding the values of the request, and no other message
    changes.  The route never looks the session up: without foreign-key
    enforcement the message is stored and answered 201 also when no
    session has its [sessionId]; then no session is created or changed,
    and [GET /session/:sessionId] answers 404 for it. *)
Theorem saveMessage_new_id (now seed : Z) (req : History.MessageBody) (d : Db) :
  valid_message req →
  foreign_keys d = false →
  saved_id seed req ∉ map Messages.id (messages d) →
  let out := History.saveMessage now seed req d in
  status out.1 = 201
  ∧ (jget "message" (body out.1) ≫= jget "id") = Some (JStr (saved_id seed req))
  ∧ messages out.2 = messages d ++ [saved_values now seed req]
  ∧ map ChatSessions.id (chat_sessions out.2) = map ChatSessions.id (chat_sessions d)
  ∧ users out.2 = users d
  ∧ ((¬ ∃ s, s ∈ chat_sessions d ∧ ChatSessions.id s = field (History.mb_sessionId req)) →
     chat_sessions out.2 = chat_sessions d
     ∧ History.getSession (field (History.mb_sessionId req)) out.2
       = {| status := 404; body := JObj [("error", JStr "Session not found")] |}).
Proof.
  intros Hv Hfk Hfresh. cbv zeta.
  destruct (saveMessage_store now seed req d Hv) as (Hst & Hmsgs & Hsess & Husers & _).
  split; [done|]. split.
  { rewrite saveMessage_valid by done. reflexivity. }
  split.
  { rewrite Hmsgs.
    by apply (proj1 (written_messages (saved_values now seed req) d)). }
  split.
  { rewrite Hsess, map_map. apply map_ext. intros s. by destruct (String.eqb _ _). }
  split; [done|].
  intros Hno.
  assert (Hsame : chat_sessions (History.saveMessage now seed req d).2 = chat_sessions d).
  { rewrite Hsess. apply map_if_id. intros s Hs. apply String.eqb_neq.
    intros Hid. apply Hno. eauto. }
  split; [done|].
  unfold History.getSession, select_session_by_id. rewrite Hsame.
  rewrite (proj2 (find_none_iff _ _)); [done|].
  intros s Hs. apply String.eqb_neq. intros Hid. apply Hno. eauto.
Qed.

(** X23. The 201 of [/message] repeats the request rather than the stored
    row: [image_url] is the [imageUrl] as sent, also when it is empty and
    the column is stored as NULL, and each JSON sub-field is the text
    [JSON.stringify] made of it, not the value, and is left out when the
    value is falsy. *)
Theorem saveMessage_response_echo (now seed : Z) (req : History.MessageBody) (d : Db) :
  valid_message req →
  let msg := jget "message" (body (History.saveMessage now seed req d).1) in
  (msg ≫= jget "id") = Some (JStr (saved_id seed req))
  ∧ (msg ≫= jget "session_id") = JStr <$> History.mb_sessionId req
  ∧ (msg ≫= jget "role") = JStr <$> History.mb_role req
  ∧ (msg ≫= jget "content") = JStr <$> History.mb_content req
  ∧ (msg ≫= jget "image_url") = JStr <$> History.mb_imageUrl req
  ∧ (msg ≫= jget "extracted_symptoms")
    = (λ v, JStr (JSON_stringify v)) <$> kept (History.mb_extractedSymptoms req)
  ∧ (msg ≫= jget "grounding_sources")
    = (λ v, JStr (JSON_stringify v)) <$> kept (History.mb_groundingSources req)
  ∧ (msg ≫= jget "analysis_results")
    = (λ v, JStr (JSON_stringify v)) <$> kept (History.mb_analysisResults req)
  ∧ (msg ≫= jget "timestamp") = Some (JStr (toISOString now))
  ∧ (History.mb_imageUrl req = Some "" →
     Messages.image_url (saved_values now seed req) = None).
Proof.
  intros Hv. cbv zeta. rewrite saveMessage_valid by done.
  destruct Hv as (Hs & Hr & Hc).
  apply truthy_ostr_field in Hs as [Hs _], Hr as [Hr _], Hc as [Hc _].
  rewrite Hs, Hr, Hc at 1.
  unfold saved_values. cbn [fst body jget assoc Messages.id Messages.session_id
    Messages.role Messages.content Messages.extracted_symptoms Messages.grounding_sources
    Messages.analysis_results Messages.timestamp Messages.image_url].
  assert (Hfield : ∀ x, JStr <$> History.stringify_field x
                        = (λ v, JStr (JSON_stringify v)) <$> kept x).
  { intros [v|]; [|done]. simpl. by destruct (truthy v). }
  rewrite !Hfield.
  destruct (History.mb_imageUrl req) as [img|],
           (kept (History.mb_extractedSymptoms req)),
           (kept (History.mb_groundingSources req)),
           (kept (History.mb_analysisResults req)); cbn;
    repeat split; try done; by intros [= ->].
Qed.

End NewMessage.

(** A message for a session that does not exist is answered 201, and the
    session is still not found. *)
Lemma saveMessage_new_id_witness :
  status (History.saveMessage (H := Reference.runtime) 200000 7 stray_message
            (db alice_server)).1 = 201
  ∧ History.getSession (H := Reference.runtime) "no-such-session"
      (History.saveMessage (H := Reference.runtime) 200000 7 stray_message
         (db alice_server)).2
    = {| status := 404; body := JObj [("error", JStr "Session not found")] |}.
Proof.
  destruct (saveMessage_new_id (H := Reference.runtime) 200000 7 stray_message
              (db alice_server)) as (Hst & _ & _ & _ & _ & Hget).
  - repeat split.
  - reflexivity.
  - vm_compute. apply not_elem_of_nil.
  - split; [exact Hst|]. apply Hget.
    intros (s & Hs & _). vm_compute in Hs. by apply elem_of_nil in Hs.
Defined.

(** The response to the message with symptoms carries them as text. *)
Lemma saveMessage_response_echo_witness :
  (jget "message" (body (History.saveMessage (H := Reference.runtime) 200000 7
                           symptoms_message consultation_db).1)
   ≫= jget "extracted_symptoms")
  = Some (JStr (Reference.stringify symptoms)).
Proof.
  destruct (saveMessage_response_echo (H := Reference.runtime) 200000 7 symptoms_message
              consultation_db) as (_ & _ & _ & _ & _ & Hes & _).
  - repeat split.
  - exact Hes.
Defined.

Section EmailShape.

Lemma occurrences_append c (a b : string) :
  occurrences c (a +:+ b) = (occurrences c a + occurrences c b)%nat.
Proof.
  induction a as [|x a IH]; [by rewrite append_nil_l|].
  rewrite append_cons. simpl. rewrite IH. lia.
Qed.

Lemma every_append p (a b : string) :
  every p (a +:+ b) = every p a && every p b.
Proof.
  induction a as [|x a IH]; [by rewrite append_nil_l|].
  rewrite append_cons. simpl. rewrite IH. by rewrite andb_assoc.
Qed.

Lemma address_part_facts s :
  address_part s →
  occurrences "@" s = 0%nat
  ∧ every (λ c, negb (Regex.is_space c)) s = true
  ∧ (1 ≤ String.length s)%nat.
Proof.
  intros [Hne Hall]. split; [|split].
  - clear Hne. induction s as [|c s IH]; [done|]. simpl in *.
    apply andb_true_iff in Hall as [Hc Hall]. rewrite IH by done.
    unfold Regex.not_space_at in Hc. apply andb_true_iff in Hc as [_ Hc].
    by destruct (Ascii.eqb c "@").
  - clear Hne. induction s as [|c s IH]; [done|]. simpl in *.
    apply andb_true_iff in Hall as [Hc Hall]. rewrite IH by done.
    unfold Regex.not_space_at in Hc. apply andb_true_iff in Hc as [Hc _].
    by rewrite Hc.
  - destruct s; [done|simpl; lia].
Qed.

(** X24. An email that [/signup] accepts holds exactly one [@] and no
    white space, and has at least five characters: one or more before the
    [@], and after it a dot with one or more characters on each side. *)
Theorem emailRegex_accepts (email : string) :
  Regex.test_anchored Auth.emailRegex email = true →
  occurrences "@" email = 1%nat
  ∧ every (λ c, negb (Regex.is_space c)) email = true
  ∧ (5 ≤ String.length email)%nat
  ∧ (1 ≤ occurrences "." email)%nat.
Proof.
  intros Hok. apply test_emailRegex in Hok as (loc & domain & tld & -> & Hl & Hd & Ht).
  apply address_part_facts in Hl as (Hl1 & Hl2 & Hl3), Hd as (Hd1 & Hd2 & Hd3),
    Ht as (Ht1 & Ht2 & Ht3).
  rewrite !occurrences_append, !every_append, !length_append.
  rewrite Hl1, Hd1, Ht1, Hl2, Hd2, Ht2. simpl.
  repeat split; lia.
Qed.

End EmailShape.

(** [alice]'s address has one [@]. *)
Lemma emailRegex_accepts_witness :
  occurrences "@" "alice@example.com" = 1%nat.
Proof.
  apply (emailRegex_accepts "alice@example.com"). vm_compute. reflexivity.
Defined.

(* ================================================================== *)
(** * The limiter map *)
(* ================================================================== *)

Section LimiterInvariant.
Context `{Runtime}.

Lemma checkRateLimit_bounded now identifier (m : gmap string Attempt) :
  identifier ≠ "" → attempts_bounded m →
  attempts_bounded (checkRateLimit now identifier m).2.
Proof.
  intros Hid Hm other a. unfold checkRateLimit, RATE_LIMIT_ATTEMPTS.
  destruct (m !! identifier) as [a0|] eqn:Ha0; cbn [snd].
  - destruct (_ >? _); cbn [snd].
    + destruct (decide (other = identifier)) as [->|Hne].
      * rewrite lookup_insert_eq. intros [= <-]. simpl. split; [done|lia].
      * rewrite lookup_insert_ne by done. apply Hm.
    + destruct (Z.geb_spec (count a0) 5) as [Hge|Hlt]; cbn [snd]; [apply Hm|].
      destruct (decide (other = identifier)) as [->|Hne].
      * rewrite lookup_insert_eq. intros [= <-]. simpl. split; [done|].
        destruct (Hm identifier a0 Ha0) as [_ ?]. lia.
      * rewrite lookup_insert_ne by done. apply Hm.
  - destruct (decide (other = identifier)) as [->|Hne].
    + rewrite lookup_insert_eq. intros [= <-]. simpl. split; [done|lia].
    + rewrite lookup_insert_ne by done. apply Hm.
Qed.

Lemma checkRateLimit_keeps now identifier (m : gmap string Attempt) other :
  is_Some (m !! other) → is_Some ((checkRateLimit now identifier m).2 !! other).
Proof.
  intros Hsome. destruct (decide (other = identifier)) as [->|Hne].
  - unfold checkRateLimit. destruct (m !! identifier) as [a0|] eqn:Ha0; cbn [snd].
    + destruct (_ >? _); cbn [snd]; [by rewrite lookup_insert_eq|].
      destruct (_ >=? _); cbn [snd]; [by rewrite Ha0|by rewrite lookup_insert_eq].
    + by rewrite lookup_insert_eq.
  - by rewrite checkRateLimit_frame.
Qed.

Lemma checkRateLimit_entry now identifier (m : gmap string Attempt) :
  is_Some ((checkRateLimit now identifier m).2 !! identifier).
Proof.
  unfold checkRateLimit. destruct (m !! identifier) as [a0|] eqn:Ha0; cbn [snd].
  - destruct (_ >? _); cbn [snd]; [by rewrite lookup_insert_eq|].
    destruct (_ >=? _); cbn [snd]; [by rewrite Ha0|by rewrite lookup_insert_eq].
  - by rewrite lookup_insert_eq.
Qed.

(** The limiter's map after one [/login]. *)
Lemma login_loginAttempts now draws req st :
  loginAttempts (Auth.login now draws req st).2 = loginAttempts st
  ∨ ∃ username, username ≠ ""
      ∧ loginAttempts (Auth.login now draws req st).2
        = (checkRateLimit now username (loginAttempts st)).2.
Proof.
  unfold Auth.login. destruct req as [[u|] [p|]]; simpl; try (by left).
  destruct (truthy_str u) eqn:Hu; simpl; [|by left].
  destruct (truthy_str p) eqn:Hp; simpl; [|by left].
  right. exists u. split; [by apply truthy_str_true|].
  destruct (checkRateLimit now u (loginAttempts st)) as [[] la]; simpl; [|done].
  destruct (select_user_by_username u (db st)) as [user|]; [|done].
  by destruct (bcrypt_compare p (Users.password_hash user)).
Qed.

Lemma handle_loginAttempts now draws rq st :
  loginAttempts (handle now draws rq st).2 = loginAttempts st
  ∨ ∃ username, username ≠ ""
      ∧ loginAttempts (handle now draws rq st).2
        = (checkRateLimit now username (loginAttempts st)).2.
Proof.
  destruct rq; cbn [handle fst snd loginAttempts]; try (by left).
  apply login_loginAttempts.
Qed.

(** X25. The limiter's map in every state of the process: each entry
    belongs to a username that is not empty and its count is between 1
    and 5.  No request removes an entry, and every [/login] call with
    both fields present leaves one for the username as it was spelled,
    whether or not a user has it: the map only grows. *)
Theorem reachable_attempts_bounded (st : Server) :
  (reachable st → attempts_bounded (loginAttempts st))
  ∧ (∀ now draws rq identifier,
       is_Some (loginAttempts st !! identifier) →
       is_Some (loginAttempts (handle now draws rq st).2 !! identifier))
  ∧ (∀ now draws username password,
       username ≠ "" → password ≠ "" →
       is_Some (loginAttempts
                  (Auth.login now draws
                     {| Auth.li_username := Some username;
                        Auth.li_password := Some password |} st).2 !! username)).
Proof.
  split; [|split].
  - induction 1 as [|st now draws rq _ IH].
    + intros identifier a. cbn [loginAttempts]. by rewrite lookup_empty.
    + destruct (handle_loginAttempts now draws rq st) as [->|(u & Hu & ->)]; [done|].
      by apply checkRateLimit_bounded.
  - intros now draws rq identifier Hsome.
    destruct (handle_loginAttempts now draws rq st) as [->|(u & Hu & ->)]; [done|].
    by apply checkRateLimit_keeps.
  - intros now draws username password Hu Hp. apply truthy_str_true in Hu, Hp.
    rewrite login_counts by done. apply checkRateLimit_entry.
Qed.

End LimiterInvariant.

(* ================================================================== *)
(** * The order of the listing *)
(* ================================================================== *)

Section Bump.
Context `{Runtime}.
Implicit Types (d : Db) (req : History.MessageBody).

(** In a sorted list with a key, an element that no element of another
    key may precede is the first. *)
Lemma Sorted_first {A} (key : A → string) (R : relation A) (l : list A) (x : A) :
  Sorted R l → NoDup (map key l) → x ∈ l →
  (∀ y, y ∈ l → key y ≠ key x → ¬ R y x) →
  ∃ rest, l = x :: rest.
Proof.
  induction 1 as [|h t Hsorted IH Hhd]; intros Hnd Hin Hmax; [by apply elem_of_nil in Hin|].
  apply elem_of_cons in Hin as [->|Hin]; [eauto|].
  simpl in Hnd. apply NoDup_cons in Hnd as [Hh Hnd].
  assert (Hne : key h ≠ key x).
  { intros Heq. apply Hh. rewrite Heq. by apply list_elem_of_In, in_map, list_elem_of_In. }
  destruct IH as [rest ->]; [done|done| |].
  - intros y Hy. apply Hmax. by right.
  - inversion Hhd as [|? ? Hr]; subst. exfalso. apply (Hmax h); [left|done|done].
Qed.

Lemma ltb_not_leb (a b : string) : String.ltb a b = true → String.leb b a ≠ true.
Proof.
  unfold String.ltb, String.leb. rewrite (String.compare_antisym a b).
  by destruct (String.compare b a).
Qed.

(** X26. Saving a message puts its session first in the listing of the
    session's user: [/message] sets the session's [updated_at] to the
    instant of the call, so when that instant is later, as text, than the
    [updated_at] of the user's other sessions, the first session of a 200
    from [GET /sessions/:userId] is that session, with the new
    [updated_at]. *)
Theorem saveMessage_bumps_session (now seed : Z) (req : History.MessageBody) (d : Db)
    (s : ChatSessions.row) :
  valid_message req →
  NoDup (map ChatSessions.id (chat_sessions d)) →
  s ∈ chat_sessions d →
  ChatSessions.id s = field (History.mb_sessionId req) →
  (∀ other, other ∈ chat_sessions d →
     ChatSessions.user_id other = ChatSessions.user_id s →
     ChatSessions.id other ≠ ChatSessions.id s →
     String.ltb (ChatSessions.updated_at other) (toISOString now) = true) →
  let listing :=
    History.listSessions (ChatSessions.user_id s) (History.saveMessage now seed req d).2 in
  status listing = 200 →
  ∃ first rest,
    body listing = JObj [("sessions", JArr (first :: rest))]
    ∧ jget "id" first = Some (JStr (ChatSessions.id s))
    ∧ jget "updated_at" first = Some (JStr (toISOString now)).
Proof.
  intros Hv Hnd Hs Hid Hlater. cbv zeta. intros Hst.
  set (d' := (History.saveMessage now seed req d).2) in *.
  set (uid := ChatSessions.user_id s) in *.
  destruct (saveMessage_store now seed req d Hv) as (_ & _ & Hsess & _). fold d' in Hsess.
  destruct (listSessions_200 uid d' Hst) as (sessions & Hbody & Hall).
  destruct (select_sessions_by_user_sorted uid d') as [Hsorted Hperm].
  assert (Hids : map ChatSessions.id (chat_sessions d') = map ChatSessions.id (chat_sessions d)).
  { rewrite Hsess, map_map. apply map_ext. intros s0. by destruct (String.eqb _ _). }
  assert (Hnd' : NoDup (map ChatSessions.id (select_sessions_by_user uid d'))).
  { assert (Hp : map ChatSessions.id (select_sessions_by_user uid d')
                 ≡ₚ map ChatSessions.id
                      (filter (λ s0, ChatSessions.user_id s0 = uid) (chat_sessions d')))
      by (apply Permutation_map; exact Hperm).
    rewrite Hp. apply NoDup_map_filter. by rewrite Hids. }
  destruct (Sorted_first ChatSessions.id updated_at_desc (select_sessions_by_user uid d')
              (bumped (toISOString now) s) Hsorted Hnd') as [rest Hrows].
  - apply select_sessions_by_user_elem. split; [|done].
    rewrite Hsess. apply list_elem_of_In, in_map_iff. exists s.
    split; [|by apply list_elem_of_In]. rewrite Hid, String.eqb_refl. done.
  - intros y Hy Hne. apply select_sessions_by_user_elem in Hy as [Hy Huid].
    rewrite Hsess in Hy. apply list_elem_of_In, in_map_iff in Hy as (s0 & Hs0 & Hin).
    apply list_elem_of_In in Hin. cbn [bumped ChatSessions.id] in Hne.
    destruct (String.eqb_spec (ChatSessions.id s0) (field (History.mb_sessionId req)))
      as [Heq|Hneq].
    + subst y. cbn [bumped ChatSessions.id] in Hne. congruence.
    + subst y. unfold updated_at_desc. cbn [bumped ChatSessions.updated_at].
      apply ltb_not_leb, Hlater; [done|done|congruence].
  - rewrite Hrows in Hall. apply Forall2_cons_inv_l in Hall as (first & tail & Hfirst & _ & ->).
    exists first, tail. split; [done|].
    apply session_with_messages_Some in Hfirst as (msgs & _ & -> & _). done.
Qed.

End Bump.

(** [alice]'s first consultation, touched last, is listed first. *)
Lemma saveMessage_bumps_session_witness :
  ∃ first rest,
    body (History.listSessions (H := Reference.runtime) alice_id
            (History.saveMessage (H := Reference.runtime) 400000 9 follow_up second_db).2)
    = JObj [("sessions", JArr (first :: rest))]
    ∧ jget "id" first = Some (JStr consultation_id)
    ∧ jget "updated_at" first = Some (JStr (Reference.iso 400000)).
Proof.
  apply (saveMessage_bumps_session (H := Reference.runtime) 400000 9 follow_up second_db
           {| ChatSessions.id := consultation_id;
              ChatSessions.user_id := alice_id;
              ChatSessions.title := "New Consultation";
              ChatSessions.created_at := Reference.iso 100000;
              ChatSessions.updated_at := Reference.iso 200000 |}).
  - repeat split.
  - apply (bool_decide_unpack _). vm_compute. reflexivity.
  - vm_compute. left.
  - reflexivity.
  - intros other Hin _ Hne. vm_compute in Hin.
    apply elem_of_cons in Hin as [->|Hin]; [by exfalso; apply Hne|].
    apply list_elem_of_singleton in Hin as ->. vm_compute. reflexivity.
  - vm_compute. reflexivity.
Defined.

(* ================================================================== *)
(** * The two routes on the values of the body *)
(* ================================================================== *)

Section UntypedRoutes.
Context `{Runtime} `{Coercions}.

Lemma of_nat_ltb (n : nat) (k : nat) : (Z.of_nat n <? Z.of_nat k) = (n <? k)%nat.
Proof.
  destruct (Z.ltb_spec (Z.of_nat n) (Z.of_nat k)), (Nat.ltb_spec n k); try done; lia.
Qed.

(** On a body whose fields are strings, [/signup] on values is
    [Auth.signup]. *)
Lemma signup_on_strings now draws (req : Auth.SignupBody) d :
  Untyped.signup now draws (signup_values req) d = Auth.signup now draws req d.
Proof.
  unfold Untyped.signup, Auth.signup, signup_values.
  destruct req as [[u|] [p|] [n|] [e|]]; simpl; try done.
  destruct (truthy_str u) eqn:Hu; simpl; [|done].
  destruct (truthy_str p) eqn:Hp; simpl; [|done].
  destruct (truthy_str n) eqn:Hn; simpl; [|done].
  destruct (truthy_str e) eqn:He; simpl; [|done].
  destruct (Regex.test_anchored Auth.emailRegex e); simpl; [|done].
  change 3 with (Z.of_nat 3). rewrite of_nat_ltb.
  destruct (String.length u <? 3)%nat; simpl; [done|].
  destruct (Regex.test_anchored Auth.usernameRegex u); simpl; [|done].
  change 8 with (Z.of_nat 8). rewrite of_nat_ltb.
  destruct (String.length p <? 8)%nat; simpl; [done|].
  destruct (Regex.test (Regex.Class Regex.is_lower) p); simpl; [|done].
  destruct (Regex.test (Regex.Class Regex.is_upper) p); simpl; [|done].
  destruct (Regex.test (Regex.Class Regex.is_digit) p); simpl; [|done].
  destruct (select_user_by_username u d); [done|].
  destruct (select_user_by_email e d); [done|].
  unfold Auth.user_response. simpl. rewrite He. simpl.
  by destruct (insert_user _ d).
Qed.

(** With a password that is a string, [/login] on values is
    [Auth.login]. *)
Lemma login_on_strings now draws (req : Auth.LoginBody) st :
  Untyped.login now draws (login_values req) st = Auth.login now draws req st.
Proof.
  unfold Untyped.login, Auth.login, login_values.
  by destruct req as [[u|] [p|]].
Qed.

(** A number has no [length]: the two length rules never answer for
    it. *)
Lemma length_below_number (k n : Z) : Untyped.length_below (JNum k) n = false.
Proof. reflexivity. Qed.

Lemma signup_number_username now draws k (password name email : option json) d :
  (Untyped.signup now draws
     {| Untyped.su_username := Some (JNum k); Untyped.su_password := password;
        Untyped.su_name := name; Untyped.su_email := email |} d).1
  ≠ rule_error UsernameLength.
Proof.
  unfold Untyped.signup, rule_error. cbn [Untyped.su_username Untyped.su_password
    Untyped.su_name Untyped.su_email].
  rewrite length_below_number.
  repeat (case_match; try discriminate).
Qed.

(** With both fields present and the call allowed, a password that is not
    a string is answered 500 when the username has a user and 401 when it
    has none. *)
Lemma login_other_password now draws username (password : json) st :
  username ≠ "" → truthy password = true → (∀ s, password ≠ JStr s) →
  (checkRateLimit now username (loginAttempts st)).1 = true →
  (Untyped.login now draws
     {| Untyped.li_username := Some username; Untyped.li_password := Some password |} st).1
  = match select_user_by_username username (db st) with
    | Some _ => {| status := 500; body := JObj [("error", JStr "Login failed")] |}
    | None => {| status := 401; body := JObj [("error", JStr "Invalid credentials")] |}
    end.
Proof.
  intros Hu Hp Hns Hok. apply truthy_str_true in Hu.
  unfold Untyped.login. cbn [Untyped.li_username Untyped.li_password]. rewrite Hu, Hp.
  cbn [negb orb].
  destruct (checkRateLimit now username (loginAttempts st)) as [ok la]. simpl in Hok.
  subst ok. cbn [negb].
  destruct (select_user_by_username username (db st)); [|done].
  destruct password; try done. by exfalso; eapply Hns.
Qed.

End UntypedRoutes.

(** C4. [/signup] does not apply the username-length rule to every input:
    the route tests [username.length < 3] on whatever value the body
    holds, and a number has no [length].  With the number 7 for a
    username, whose text has one character, the answer is never the error
    of that rule: with "short1A" it is the error of the password-length
    rule, and with "Valid123" on a new database the account is created
    and stored under the username "7", while the string "7" is rejected
    by the rule. *)
Theorem signup_number_username_unchecked :
  status (Untyped.signup (H := Reference.runtime) (H0 := reference_coercions) 0 sample_draws
            (seven_signup "Valid123") initializeDatabase).1 = 201
  ∧ map Users.username
      (users (Untyped.signup (H := Reference.runtime) (H0 := reference_coercions) 0
                sample_draws (seven_signup "Valid123") initializeDatabase).2) = ["7"]
  ∧ Untyped.signup (H := Reference.runtime) (H0 := reference_coercions) 0 sample_draws
      (seven_signup "short1A") initializeDatabase
    = ({| status := 400;
          body := JObj [("error", JStr "Password must be at least 8 characters")] |},
       initializeDatabase)
  ∧ Untyped.signup (H := Reference.runtime) (H0 := reference_coercions) 0 sample_draws
      {| Untyped.su_username := Some (JStr "7");
         Untyped.su_password := Some (JStr "Valid123");
         Untyped.su_name := Some (JStr "Alice");
         Untyped.su_email := Some (JStr "alice@example.com") |} initializeDatabase
    = ({| status := 400;
          body := JObj [("error", JStr "Username must be at least 3 characters")] |},
       initializeDatabase)
  ∧ (∀ (R : Runtime) (C : Coercions) now draws k password name email d,
       (Untyped.signup now draws
          {| Untyped.su_username := Some (JNum k); Untyped.su_password := password;
             Untyped.su_name := name; Untyped.su_email := email |} d).1
       ≠ {| status := 400;
            body := JObj [("error", JStr "Username must be at least 3 characters")] |}).
Proof.
  split; [vm_compute; reflexivity|]. split; [vm_compute; reflexivity|].
  split; [vm_compute; reflexivity|]. split; [vm_compute; reflexivity|].
  intros R C now draws k password name email d. apply signup_number_username.
Qed.

(** C5. The failures of [/login] are not indistinguishable for every
    call: [bcrypt.compare] is reached only when the username has a user,
    and it rejects a password that is not a string.  With the number
    12345678 for a password, a call that the limiter allows is answered
    401 "Invalid credentials" for a username without a user and 500
    "Login failed" for a username with one, so the answer tells whether
    the username exists. *)
Theorem login_number_password_reveals_username :
  (Untyped.login (H := Reference.runtime) 1000 sample_draws (number_login "bob")
     alice_server).1
  = {| status := 401; body := JObj [("error", JStr "Invalid credentials")] |}
  ∧ (Untyped.login (H := Reference.runtime) 1000 sample_draws (number_login "alice")
       alice_server).1
    = {| status := 500; body := JObj [("error", JStr "Login failed")] |}
  ∧ (∀ (R : Runtime) now draws username (password : json) st,
       username ≠ "" → truthy password = true → (∀ s, password ≠ JStr s) →
       (checkRateLimit now username (loginAttempts st)).1 = true →
       (Untyped.login now draws
          {| Untyped.li_username := Some username;
             Untyped.li_password := Some password |} st).1
       = match select_user_by_username username (db st) with
         | Some _ => {| status := 500; body := JObj [("error", JStr "Login failed")] |}
         | None => {| status := 401; body := JObj [("error", JStr "Invalid credentials")] |}
         end).
Proof.
  split; [vm_compute; reflexivity|]. split; [vm_compute; reflexivity|].
  intros R now draws username password st. apply login_other_password.
Qed.

Section OnStrings.
Context `{Runtime} `{Coercions}.

(** X27. On a body whose fields are strings, [/signup] validates
    fail-fast in the order: all four fields present, email shape, username
    length at least 3, username characters in [[A-Za-z0-9_-]], password
    length at least 8, password with a lower and an upper case letter,
    password with a digit.  The first rule that does not hold decides the
    400 response and the store is left as it was; when all hold, the
    username and then the email are looked up case-insensitively, and a
    match answers 409.  "short1A", "alllowercase1" and "NoDigitsHere" are
    rejected by the length, case and digit rules, and "Valid123"
    passes. *)
Theorem signup_validation_order_on_strings (now : Z) (draws : Auth.Draws)
    (req : Auth.SignupBody) (d : Db) :
  (∀ pre r post,
     signup_rules = pre ++ r :: post →
     Forall (λ r', rule_holds r' req) pre →
     ¬ rule_holds r req →
     Untyped.signup now draws (signup_values req) d = (rule_error r, d))
  ∧ (Forall (λ r, rule_holds r req) signup_rules →
     let username := field (Auth.su_username req) in
     let email := field (Auth.su_email req) in
     ((∃ u, u ∈ users d ∧ LOWER (Users.username u) = LOWER username) →
      Untyped.signup now draws (signup_values req) d
      = ({| status := 409; body := error_body "Username already exists" |}, d))
     ∧ (¬ (∃ u, u ∈ users d ∧ LOWER (Users.username u) = LOWER username) →
        (∃ u e, u ∈ users d ∧ Users.email u = Some e ∧ LOWER e = LOWER email) →
        Untyped.signup now draws (signup_values req) d
        = ({| status := 409; body := error_body "Email already registered" |}, d))
     ∧ (¬ (∃ u, u ∈ users d ∧ LOWER (Users.username u) = LOWER username) →
        ¬ (∃ u e, u ∈ users d ∧ Users.email u = Some e ∧ LOWER e = LOWER email) →
        status (Untyped.signup now draws (signup_values req) d).1 = 201
        ∨ status (Untyped.signup now draws (signup_values req) d).1 = 500))
  ∧ Untyped.signup now draws (signup_values (with_password "short1A")) d
    = (rule_error PasswordLength, d)
  ∧ Untyped.signup now draws (signup_values (with_password "alllowercase1")) d
    = (rule_error PasswordCase, d)
  ∧ Untyped.signup now draws (signup_values (with_password "NoDigitsHere")) d
    = (rule_error PasswordDigit, d)
  ∧ status (Untyped.signup now draws (signup_values (with_password "Valid123"))
              initializeDatabase).1 = 201.
Proof.
  rewrite !signup_on_strings.
  destruct (signup_validation_order now draws req d) as (H1 & H2 & H3 & H4 & H5 & _ & H7).
  split; [exact H1|]. split; [exact H2|]. done.
Qed.

(** X28. With a password that is a string, both fields present and the
    limiter allowing the call, a [/login] for a username that matches no
    user and one with a password that fails against an existing user's
    hash get the same response, status 401 with body
    [{error: "Invalid credentials"}], and neither changes the store. *)
Theorem login_failures_indistinguishable_on_strings
    (now1 now2 : Z) (draws1 draws2 : Auth.Draws)
    (username1 password1 username2 password2 : string) (st1 st2 : Server)
    (user : Users.row) :
  username1 ≠ "" → password1 ≠ "" → username2 ≠ "" → password2 ≠ "" →
  (checkRateLimit now1 username1 (loginAttempts st1)).1 = true →
  (checkRateLimit now2 username2 (loginAttempts st2)).1 = true →
  select_user_by_username username1 (db st1) = None →
  select_user_by_username username2 (db st2) = Some user →
  bcrypt_compare password2 (Users.password_hash user) = false →
  let unknown_user :=
    Untyped.login now1 draws1
      {| Untyped.li_username := Some username1;
         Untyped.li_password := Some (JStr password1) |} st1 in
  let wrong_password :=
    Untyped.login now2 draws2
      {| Untyped.li_username := Some username2;
         Untyped.li_password := Some (JStr password2) |} st2 in
  unknown_user.1 = wrong_password.1
  ∧ wrong_password.1 = {| status := 401; body := JObj [("error", JStr "Invalid credentials")] |}
  ∧ db unknown_user.2 = db st1
  ∧ db wrong_password.2 = db st2.
Proof.
  intros Hu1 Hp1 Hu2 Hp2 Hok1 Hok2 Hnone Hsome Hbad. cbv zeta.
  apply truthy_str_true in Hu1, Hp1, Hu2, Hp2.
  change {| Untyped.li_username := Some username1;
            Untyped.li_password := Some (JStr password1) |}
    with (login_values {| Auth.li_username := Some username1;
                          Auth.li_password := Some password1 |}).
  change {| Untyped.li_username := Some username2;
            Untyped.li_password := Some (JStr password2) |}
    with (login_values {| Auth.li_username := Some username2;
                          Auth.li_password := Some password2 |}).
  rewrite !login_on_strings.
  by apply (login_failures_indistinguishable now1 now2 draws1 draws2 username1 password1
              username2 password2 st1 st2 user).
Qed.

End OnStrings.

(** [bob] is unknown and "wrong" is not [alice]'s password: both logins
    get the same 401. *)
Lemma login_failures_indistinguishable_on_strings_witness :
  (Untyped.login (H := Reference.runtime) 1000 sample_draws
     {| Untyped.li_username := Some "bob"; Untyped.li_password := Some (JStr "Valid123") |}
     alice_server).1
  = (Untyped.login (H := Reference.runtime) 2000 sample_draws
       {| Untyped.li_username := Some "ALICE"; Untyped.li_password := Some (JStr "wrong") |}
       alice_server).1.
Proof.
  destruct (select_user_by_username "ALICE" (db alice_server)) as [user|] eqn:Huser;
    [|vm_compute in Huser; discriminate Huser].
  refine (proj1 (login_failures_indistinguishable_on_strings (H := Reference.runtime)
                   1000 2000 sample_draws sample_draws "bob" "Valid123" "ALICE" "wrong"
                   alice_server alice_server user _ _ _ _ _ _ _ Huser _)).
  - discriminate.
  - discriminate.
  - discriminate.
  - discriminate.
  - vm_compute. reflexivity.
  - vm_compute. reflexivity.
  - vm_compute. reflexivity.
  - vm_compute in Huser. injection Huser as <-. vm_compute. reflexivity.
Defined.
